(** * Strategy calculation engine (calculations.js, config.js, utils.js)

    A shallow embedding of the [Calculations] class together with the parts
    of [Config] and [Utils] it reads, and the properties of the tyre, fuel
    and strategy functions; then the string, hash, array and colour helpers
    of [Utils], the cache of [Database], the login checks of [Auth] and the
    strategy page of the application, which call them.

    Number model.  JavaScript numbers are modelled by exact real numbers
    ([R]): [Math.pow] is [Rpower], [Math.exp] is [exp], [Math.max] is
    [Rmax].  Binary rounding of IEEE doubles and NaN are outside the model:
    a product or sum of the code can differ from the exact one in its last
    binary digit, and a [toFixed] of a value on a decimal tie (the total
    distance [4.015 * 29 = 116.435] of Monaco) by one unit of its last
    decimal.
    Lap counts held by a strategy, stint counts, scores, times and risk
    levels are integers ([Z]); they enter the tyre and fuel formulas through
    [IZR].  A string produced by [Number.prototype.toFixed] is represented by
    the decimal number it denotes, which is what every consumer in the module
    ([<] against a number, [parseFloat]) reads back from it.

    Lookup model.  A table of the module is an object literal, read by
    [JS.get] through its own properties.  A key that names a member of
    [Object.prototype] ([constructor], [toString], ...) is outside the
    model: there the code finds the inherited member instead of
    [undefined] and computes on NaN.  A theorem that speaks of a key missing
    from a table excludes those names ([JS.undefinedAt], [JS.inherited]);
    the lemmas it rests on are stated on [JS.get] alone.

    String model.  Keys, codes and messages that are only compared or
    shown are [string]s.  A string that the code takes apart (sanitising,
    trimming, hashing, prefix tests) is the list of its UTF-16 code units
    ([list N]).  Times are integers, in milliseconds. *)

From Stdlib Require Import Reals Lra Lia ZArith List String Ascii Bool.
From Stdlib Require Import Permutation Sorted DecimalString.
Import ListNotations.

Open Scope string_scope.
Open Scope list_scope.
Open Scope Z_scope.
Open Scope R_scope.

(** ** JavaScript primitives *)

Module JS.

(** [x <= y] and [x < y] on numbers, as booleans. *)
Definition leb (x y : R) : bool := if Rle_dec x y then true else false.
Definition ltb (x y : R) : bool := if Rlt_dec x y then true else false.

(** [Math.floor]. *)
Definition floor (x : R) : Z := Int_part x.

(** [x.toFixed(d)] for a non-negative [x]: the integer [n] for which
    [n / 10^d - x] is closest to zero, the larger one on a tie. *)
Definition toFixed_nonneg (x : R) (d : nat) : R :=
  IZR (floor (x * 10 ^ d + / 2)) / 10 ^ d.

(** [x.toFixed(d)]: a negative [x] is formatted as ["-"] followed by the
    digits of [-x].  This is the fixed-point branch of the built-in, the one
    taken for at most 100 digits and [|x| < 10^21]; every call of the module
    asks for 1 to 3 digits of a bounded value.  The [RangeError] for more
    digits and the exponent form of a larger [x] are outside the model. *)
Definition toFixed (x : R) (d : nat) : R :=
  if ltb x 0 then - toFixed_nonneg (- x) d else toFixed_nonneg x d.

(** [s.toUpperCase()] on the ASCII letters.  The special casing of other
    characters (the sharp s becomes [SS], the long s becomes [S]) is outside
    the model: a compound is one of the codes the page offers, written in
    ASCII. *)
Definition upper_ascii (a : ascii) : ascii :=
  let n := nat_of_ascii a in
  if (andb (Nat.leb 97 n) (Nat.leb n 122)) then ascii_of_nat (n - 32) else a.

Fixpoint toUpperCase (s : string) : string :=
  match s with
  | EmptyString => EmptyString
  | String a r => String (upper_ascii a) (toUpperCase r)
  end.

(** [obj[key]] on an object literal, given as its properties in source
    order: the value of the own property named [key], [None] when [obj] has
    no own property of that name.  No table of the module repeats a key.

    Domain.  An object literal also inherits the members of
    [Object.prototype].  At one of their names ([prototypeKeys] below) a
    table that has no own property of that name yields the inherited member,
    a function or the prototype itself, where [get] yields [None]: the code
    takes it for a record and computes on its missing fields, that is on
    [undefined] and NaN.  Such keys are outside the model, as NaN is; a
    statement about a key that a table does not have says so through
    [undefinedAt], which excludes them. *)
Fixpoint get {A : Type} (obj : list (string * A)) (key : string) : option A :=
  match obj with
  | [] => None
  | (k, v) :: rest => if String.eqb k key then Some v else get rest key
  end.

(** The property names of [Object.prototype], those of Annex B included. *)
Definition prototypeKeys : list string :=
  [ "constructor"; "hasOwnProperty"; "isPrototypeOf"; "propertyIsEnumerable";
    "toLocaleString"; "toString"; "valueOf"; "__proto__";
    "__defineGetter__"; "__defineSetter__"; "__lookupGetter__"; "__lookupSetter__" ].

(** Whether [key] names a member every object literal inherits. *)
Definition inherited (key : string) : bool := existsb (String.eqb key) prototypeKeys.

(** [obj[key]] is [undefined]: [obj] has no own property named [key] and
    inherits none.  For a table of records this is when the test
    [!obj[key]] of the code succeeds. *)
Definition undefinedAt {A : Type} (obj : list (string * A)) (key : string) : Prop :=
  get obj key = None /\ inherited key = false.

(** Decimal rendering of an integer inside a template literal. *)
Definition string_of_Z (z : Z) : string := NilZero.string_of_int (Z.to_int z).

(** [arr.join(sep)]. *)
Fixpoint join (sep : string) (l : list string) : string :=
  match l with
  | [] => EmptyString
  | [s] => s
  | s :: rest => (s ++ sep ++ join sep rest)%string
  end.

(** [arr.sort(compare)]: the sort is stable, an element moves in front
    of another one only when [compare] puts it strictly first. *)
Fixpoint sort_insert {A : Type} (compare : A -> A -> Z) (x : A) (l : list A) : list A :=
  match l with
  | [] => [x]
  | y :: rest =>
    if (compare x y <=? 0)%Z then x :: y :: rest
    else y :: sort_insert compare x rest
  end.

Fixpoint sort {A : Type} (compare : A -> A -> Z) (l : list A) : list A :=
  match l with
  | [] => []
  | x :: rest => sort_insert compare x (sort compare rest)
  end.

(** [arr.slice(0, n)] and [arr.slice(n)]. *)
Definition slice_to {A : Type} (n : nat) (l : list A) : list A := firstn n l.
Definition slice_from {A : Type} (n : nat) (l : list A) : list A := skipn n l.

(** *** Strings by code unit

    Where the code inspects a string character by character, the string is
    the list of its UTF-16 code units, which is what [length], [charCodeAt],
    a character class and [startsWith] see. *)

(** The code units of an ASCII literal. *)
Definition units (s : string) : list N := map N_of_ascii (list_ascii_of_string s).

(** [s.replace(/c/g, replacement)] for a pattern that is the single code
    unit [unit] and a replacement without [$]. *)
Definition replaceAll (unit : N) (replacement : list N) (s : list N) : list N :=
  flat_map (fun u => if (u =? unit)%N then replacement else [u]) s.

(** White space and line terminators, the code units [trim] strips. *)
Definition isWhiteSpace (u : N) : bool :=
  existsb (N.eqb u)
          [9; 10; 11; 12; 13; 32; 160; 5760; 8192; 8193; 8194; 8195; 8196; 8197;
           8198; 8199; 8200; 8201; 8202; 8232; 8233; 8239; 8287; 12288; 65279]%N.

Fixpoint trimStart (s : list N) : list N :=
  match s with
  | [] => []
  | u :: rest => if isWhiteSpace u then trimStart rest else s
  end.

(** [s.trim()]. *)
Definition trim (s : list N) : list N := rev (trimStart (rev (trimStart s))).

(** [s.startsWith(prefix)]. *)
Fixpoint startsWith (s prefix : list N) {struct prefix} : bool :=
  match prefix, s with
  | [], _ => true
  | _ :: _, [] => false
  | p :: prefix', u :: s' => (u =? p)%N && startsWith s' prefix'
  end.

(** Equality of strings ([===]). *)
Fixpoint sameUnits (a b : list N) : bool :=
  match a, b with
  | [], [] => true
  | u :: a', v :: b' => (u =? v)%N && sameUnits a' b'
  | _, _ => false
  end.

(** The character class [[a-zA-Z0-9_]]. *)
Definition isWordUnit (u : N) : bool :=
  ((97 <=? u) && (u <=? 122) || (65 <=? u) && (u <=? 90)
   || (48 <=? u) && (u <=? 57) || (u =? 95))%N.

(** *** 32-bit integers and radix conversion *)

(** [ToInt32]: the integer wrapped into [-2^31, 2^31). *)
Definition toInt32 (x : Z) : Z := ((x + 2 ^ 31) mod 2 ^ 32 - 2 ^ 31)%Z.

(** [x << k] on integers, for a shift count between 0 and 31. *)
Definition shiftLeft (x k : Z) : Z := toInt32 (toInt32 x * 2 ^ k)%Z.

(** The digit [d] of a radix up to 36 as a code unit: [0-9] then [a-z]. *)
Definition digitUnit (d : Z) : N :=
  if (d <? 10)%Z then Z.to_N (48 + d) else Z.to_N (87 + d).

(** The digits of a non-negative integer, most significant first; [fuel]
    bounds their number. *)
Fixpoint digits (radix : Z) (fuel : nat) (n : Z) : list Z :=
  match fuel with
  | O => []
  | S fuel' =>
    if (n <? radix)%Z then [n]
    else digits radix fuel' (n / radix)%Z ++ [(n mod radix)%Z]
  end.

(** [n.toString(radix)] for an integer [n]; an integer has at most
    [log2 n + 1] digits in any radix. *)
Definition toStringRadix (radix : Z) (n : Z) : list N :=
  if (n <? 0)%Z
  then 45%N :: map digitUnit (digits radix (S (Z.to_nat (Z.log2 (- n)))) (- n))
  else map digitUnit (digits radix (S (Z.to_nat (Z.log2 n))) n).

(** The value of a hexadecimal digit, as [parseInt(_, 16)] reads it. *)
Definition hexDigit (u : N) : option Z :=
  if ((48 <=? u) && (u <=? 57))%N then Some (Z.of_N u - 48)%Z
  else if ((97 <=? u) && (u <=? 102))%N then Some (Z.of_N u - 87)%Z
  else if ((65 <=? u) && (u <=? 70))%N then Some (Z.of_N u - 55)%Z
  else None.

(** *** Arrays and maps *)

(** [arr[i]] for an integer [i]: [undefined] outside the array. *)
Definition index {A : Type} (undefined : A) (arr : list A) (i : Z) : A :=
  if (i <? 0)%Z then undefined else nth (Z.to_nat i) arr undefined.

(** The position at which [arr.splice(start, ...)] acts on an array of
    length [len]: a negative [start] counts from the end. *)
Definition spliceStart (len : nat) (start : Z) : nat :=
  if (start <? 0)%Z then Z.to_nat (Z.max (Z.of_nat len + start) 0)
  else Nat.min (Z.to_nat start) len.

(** [arr.splice(start, 1)] and [arr.splice(start, 0, item)], as the array
    they leave. *)
Definition spliceRemove {A : Type} (arr : list A) (start : Z) : list A :=
  let actualStart := spliceStart (List.length arr) start in
  firstn actualStart arr ++ skipn (S actualStart) arr.

Definition spliceInsert {A : Type} (arr : list A) (start : Z) (item : A) : list A :=
  let actualStart := spliceStart (List.length arr) start in
  firstn actualStart arr ++ item :: skipn actualStart arr.

(** A [Map] keyed by strings, as its entries in insertion order:
    [get], [set] (an existing key keeps its place) and [delete]. *)
Fixpoint mapGet {V : Type} (m : list (list N * V)) (key : list N) : option V :=
  match m with
  | [] => None
  | (k, v) :: rest => if sameUnits k key then Some v else mapGet rest key
  end.

Fixpoint mapSet {V : Type} (m : list (list N * V)) (key : list N) (value : V)
  : list (list N * V) :=
  match m with
  | [] => [(key, value)]
  | (k, v) :: rest =>
    if sameUnits k key then (k, value) :: rest else (k, v) :: mapSet rest key value
  end.

Fixpoint mapDelete {V : Type} (m : list (list N * V)) (key : list N)
  : list (list N * V) :=
  match m with
  | [] => []
  | (k, v) :: rest => if sameUnits k key then rest else (k, v) :: mapDelete rest key
  end.

End JS.

(** ** Utils (utils.js) *)

Module Utils.

(** [Utils.formatNumber(num, decimals)]: [Number(num).toFixed(decimals)];
    the [isNaN] guard never fires on a real number. *)
Definition formatNumber (num : R) (decimals : nat) : R := JS.toFixed num decimals.

(** The objects built by [Utils.handleSuccess] ([{success: true, data,
    message}]) and [Utils.handleError] ([{success: false, error,
    context}]). *)
Inductive Response (A : Type) : Type :=
| Success (data : A) (message : string)
| Failure (error : string) (context : string).
Arguments Success {A} data message.
Arguments Failure {A} error context.

Definition handleError {A : Type} (message context : string) : Response A :=
  Failure message context.

Definition handleSuccess {A : Type} (data : A) : Response A :=
  Success data "Operación exitosa".

(** The [success] property of a response. *)
Definition success {A : Type} (r : Response A) : bool :=
  match r with Success _ _ => true | Failure _ _ => false end.

(** [error.message || 'Ha ocurrido un error inesperado'], the message
    [Utils.handleError] reports for an error object. *)
Definition errorMessage (message : string) : string :=
  if String.eqb message "" then "Ha ocurrido un error inesperado" else message.

(** [Utils.sanitizeInput(input)] on a string; any other value is returned
    as it is.  The code units replaced are [&], [<], [>], the double quote
    (34), the single quote (39) and [/]. *)
Definition sanitizeInput (input : list N) : list N :=
  JS.replaceAll 47 (JS.units "&#x2F;")
    (JS.replaceAll 39 (JS.units "&#x27;")
       (JS.replaceAll 34 (JS.units "&quot;")
          (JS.replaceAll 62 (JS.units "&gt;")
             (JS.replaceAll 60 (JS.units "&lt;")
                (JS.replaceAll 38 (JS.units "&amp;") input))))).

(** [{ isValid, errors }]. *)
Module Validation.
Record t : Type := mk { isValid : bool; errors : list string }.
End Validation.

(** [Utils.validatePassword(password)]. *)
Definition validatePassword (password : list N) : Validation.t :=
  Validation.mk
    (6 <=? List.length password)%nat
    (if (List.length password <? 6)%nat
     then ["La contraseña debe tener al menos 6 caracteres"] else []).

(** [/^[a-zA-Z0-9_]+$/.test(s)]. *)
Definition wordOnly (s : list N) : bool :=
  negb (List.length s =? 0)%nat && forallb JS.isWordUnit s.

(** [Utils.validateUsername(username)]. *)
Definition validateUsername (username : list N) : Validation.t :=
  let errors :=
    if (List.length username =? 0)%nat || (List.length (JS.trim username) =? 0)%nat
    then ["El nombre de usuario es requerido"]
    else if (List.length username <? 3)%nat
    then ["El nombre de usuario debe tener al menos 3 caracteres"]
    else if (20 <? List.length username)%nat
    then ["El nombre de usuario no puede tener más de 20 caracteres"]
    else if negb (wordOnly username)
    then ["El nombre de usuario solo puede contener letras, números y guiones bajos"]
    else [] in
  Validation.mk (List.length errors =? 0)%nat errors.

(** The body of the loop of [Utils.simpleHash]:
    [hash = ((hash << 5) - hash) + char; hash = hash & hash]. *)
Definition hashStep (hash : Z) (char : N) : Z :=
  let hash := (JS.shiftLeft hash 5 - hash + Z.of_N char)%Z in
  JS.toInt32 hash.

(** [Utils.simpleHash(str)]: the number 0 for the empty string, a string
    in radix 36 otherwise. *)
Inductive Hash : Type :=
| HashNumber (n : Z)
| HashString (s : list N).

Definition simpleHash (str : list N) : Hash :=
  if (List.length str =? 0)%nat then HashNumber 0
  else HashString (JS.toStringRadix 36 (Z.abs (fold_left hashStep str 0%Z))).

(** [Utils.arrayMove(arr, fromIndex, toIndex)], for integer indices. *)
Definition arrayMove {A : Type} (undefined : A) (arr : list A) (fromIndex toIndex : Z)
  : list A :=
  let element := JS.index undefined arr fromIndex in
  let arr := JS.spliceRemove arr fromIndex in
  JS.spliceInsert arr toIndex element.

(** The [filter] of [Utils.arrayUnique] with the set [seen] it updates;
    [keyOf item] is [item[key]] and [same] is the equality of a [Set]. *)
Fixpoint uniqueFilter {A K : Type} (same : K -> K -> bool) (keyOf : A -> K)
         (seen : list K) (arr : list A) : list A :=
  match arr with
  | [] => []
  | item :: rest =>
    let keyValue := keyOf item in
    if existsb (same keyValue) seen then uniqueFilter same keyOf seen rest
    else item :: uniqueFilter same keyOf (seen ++ [keyValue]) rest
  end.

(** [Utils.arrayUnique(arr, key)]: [key] is given by the reading
    [item => item[key]], [None] when it is left out or falsy
    ([[...new Set(arr)]]). *)
Definition arrayUnique {A K : Type} (sameItem : A -> A -> bool) (sameKey : K -> K -> bool)
           (arr : list A) (key : option (A -> K)) : list A :=
  match key with
  | Some keyOf => uniqueFilter sameKey keyOf [] arr
  | None => uniqueFilter sameItem (fun item => item) [] arr
  end.

(** [{ r, g, b }]. *)
Module Rgb.
Record t : Type := mk { r : Z; g : Z; b : Z }.
End Rgb.

(** [Utils.hexToRgb(hex)]: an optional [#] and exactly six hexadecimal
    digits of either case, [None] for [null]. *)
Definition hexToRgb (hex : list N) : option Rgb.t :=
  let body := match hex with 35%N :: rest => rest | _ => hex end in
  match body with
  | [r1; r2; g1; g2; b1; b2] =>
    match JS.hexDigit r1, JS.hexDigit r2, JS.hexDigit g1,
          JS.hexDigit g2, JS.hexDigit b1, JS.hexDigit b2 with
    | Some r1, Some r2, Some g1, Some g2, Some b1, Some b2 =>
      Some (Rgb.mk (16 * r1 + r2) (16 * g1 + g2) (16 * b1 + b2))
    | _, _, _, _, _, _ => None
    end
  | _ => None
  end.

(** [Utils.rgbToHex(r, g, b)] for integers. *)
Definition rgbToHex (r g b : Z) : list N :=
  35%N :: JS.slice_from 1
             (JS.toStringRadix 16
                (JS.shiftLeft 1 24 + JS.shiftLeft r 16 + JS.shiftLeft g 8 + b)).

End Utils.

(** ** Config (config.js) *)

Module Circuit.
Record t : Type := mk {
  name : string;
  length : R;
  laps : Z;
  tyreWear : R;
  country : string;
  timezone : string;
  difficulty : string
}.
End Circuit.

Module BoostLevel.
Record t : Type := mk { multiplier : R; label : string }.
End BoostLevel.

Module Config.

(** [config.appConfig.boostLevels]. *)
Definition boostLevels : list (string * BoostLevel.t) :=
  [ ("muy-alto", BoostLevel.mk 1.04 "Muy Alto (+4%)");
    ("alto", BoostLevel.mk 1.0161 "Alto (+1.61%)");
    ("neutral", BoostLevel.mk 1 "Neutral");
    ("bajo", BoostLevel.mk 0.988 "Bajo (-1.2%)");
    ("muy-bajo", BoostLevel.mk 0.9799 "Muy Bajo (-2.01%)") ]%string.

(** [config.getCircuitsData()]. *)
Definition getCircuitsData : list (string * Circuit.t) :=
  [ ("ABU", Circuit.mk "Abu Dhabi" 5.410 25 50 "AE" "Asia/Dubai" "Medium");
    ("AUS", Circuit.mk "Australia" 5.301 28 40 "AU" "Australia/Melbourne" "Hard");
    ("AUT", Circuit.mk "Austria" 4.044 34 60 "AT" "Europe/Vienna" "Medium");
    ("AZE", Circuit.mk "Azerbaijan" 6.049 23 45 "AZ" "Asia/Baku" "Hard");
    ("BAH", Circuit.mk "Bahrain" 4.726 29 60 "BH" "Asia/Bahrain" "Medium");
    ("BEL", Circuit.mk "Belgium" 7.041 21 60 "BE" "Europe/Brussels" "Hard");
    ("BRA", Circuit.mk "Brazil" 3.971 34 60 "BR" "America/Sao_Paulo" "Medium");
    ("CAN", Circuit.mk "Canada" 4.341 31 45 "CA" "America/Montreal" "Medium");
    ("CHN", Circuit.mk "China" 5.442 27 80 "CN" "Asia/Shanghai" "Hard");
    ("EUR", Circuit.mk "Europe" 5.590 25 45 "DE" "Europe/Berlin" "Medium");
    ("FRA", Circuit.mk "France" 5.881 24 80 "FR" "Europe/Paris" "Hard");
    ("GBR", Circuit.mk "Great Britain" 5.751 24 65 "GB" "Europe/London" "Hard");
    ("GER", Circuit.mk "Germany" 4.179 33 50 "DE" "Europe/Berlin" "Medium");
    ("HUN", Circuit.mk "Hungary" 3.498 39 30 "HU" "Europe/Budapest" "Easy");
    ("ITA", Circuit.mk "Italy" 5.401 25 35 "IT" "Europe/Rome" "Medium");
    ("JAP", Circuit.mk "Japan" 5.058 27 70 "JP" "Asia/Tokyo" "Hard");
    ("MAL", Circuit.mk "Malaysia" 5.536 27 85 "MY" "Asia/Kuala_Lumpur" "Hard");
    ("MEX", Circuit.mk "Mexico" 4.308 35 60 "MX" "America/Mexico_City" "Medium");
    ("MON", Circuit.mk "Monaco" 4.015 29 20 "MC" "Europe/Monaco" "Very Hard");
    ("RUS", Circuit.mk "Russia" 6.077 23 50 "RU" "Europe/Moscow" "Medium");
    ("SIN", Circuit.mk "Singapore" 5.049 30 45 "SG" "Asia/Singapore" "Hard");
    ("SPA", Circuit.mk "Spain" 4.457 31 85 "ES" "Europe/Madrid" "Hard");
    ("TUR", Circuit.mk "Turkey" 5.162 27 90 "TR" "Europe/Istanbul" "Very Hard");
    ("USA", Circuit.mk "USA" 4.602 30 65 "US" "America/New_York" "Medium") ]%string.

End Config.

(** ** Calculations (calculations.js) *)

Module PerformanceImpact.
Record t : Type := mk { status : string; color : string; impact : string }.
End PerformanceImpact.

Module PitWindow.
Record t : Type := mk { recommendation : string; urgency : string }.
End PitWindow.

Module TyreCircuitInfo.
Record t : Type := mk {
  name : string; tyreWear : R; length : R; difficulty : string }.
End TyreCircuitInfo.

(** The object returned by [calculateTyreWear].  The two object literals of
    the failure paths carry [error], [baseWear] and [remaining] only; the
    literal of the success path carries [success] and the other properties
    and no [error].  A property that a literal does not define is [None]. *)
Module TyreWear.
Record t : Type := mk {
  success : option bool;
  error : option string;
  baseWear : R;
  baseWearWithCompound : option R;
  remaining : R;
  totalWear : option R;
  compound : option string;
  compoundMultiplier : option R;
  performanceImpact : option PerformanceImpact.t;
  recommendedPitWindow : option PitWindow.t;
  lapsCompleted : option R;
  circuitInfo : option TyreCircuitInfo.t
}.

(** [{ error: msg, baseWear: 0, remaining: 100 }]. *)
Definition failure (msg : string) : t :=
  mk None (Some msg) 0 None 100 None None None None None None None.
End TyreWear.

Module Calculations.

(** Set by the constructor. *)
Definition circuitsData : list (string * Circuit.t) := Config.getCircuitsData.
Definition boostLevels : list (string * BoostLevel.t) := Config.boostLevels.

(** *** Tyre wear *)

Definition calculatePerformanceImpact (remaining : R) : PerformanceImpact.t :=
  if JS.leb 80 remaining then PerformanceImpact.mk "Excelente" "green" "0%"
  else if JS.leb 60 remaining then PerformanceImpact.mk "Buena" "lime" "-0.5%"
  else if JS.leb 40 remaining then PerformanceImpact.mk "Aceptable" "yellow" "-1.2%"
  else if JS.leb 20 remaining then PerformanceImpact.mk "Degradada" "orange" "-2.5%"
  else PerformanceImpact.mk "Crítica" "red" "-4.0%".

Definition calculatePitWindow (remaining totalWear : R) : PitWindow.t :=
  if JS.ltb 70 remaining then PitWindow.mk "Continúa" "low"
  else if JS.ltb 40 remaining then PitWindow.mk "Considera parar pronto" "medium"
  else if JS.ltb 20 remaining then PitWindow.mk "Para en las próximas vueltas" "high"
  else PitWindow.mk "¡PARA INMEDIATAMENTE!" "critical".

(** The local [compoundMultipliers] table. *)
Definition compoundMultipliers : list (string * R) :=
  [ ("SS", 2.06); ("S", 0.642); ("M", 1.00); ("H", 0.375) ]%string.

(** [compoundMultipliers[compound.toUpperCase()] || 1.0]; no entry of the
    table is falsy. *)
Definition multiplierOf (compound : string) : R :=
  match JS.get compoundMultipliers (JS.toUpperCase compound) with
  | Some m => m
  | None => 1.0
  end.

(** The local [W_M] of [calculateTyreWear]: base wear of the Medium
    compound. *)
Definition W_M (c : Circuit.t) (tyrePoints : R) : R :=
  let Te := Rmax 1 tyrePoints in
  let Tw := Circuit.tyreWear c in
  let D := Circuit.length c in
  let D0 := 50 in
  let step1 := Te / 1.5 in
  let step2 := Rpower step1 (-0.0778) in
  let step3 := 1.43 * step2 in
  let step4 := 0.00364 * Tw + 0.354 in
  let step5 := step3 * step4 in
  let step6 := D * 1.384612 in
  let step7 := step5 * step6 in
  let step8 := step7 * (200 - D0) in
  (step8 / 10000) * 100.

(** The local [Wc]. *)
Definition Wc (c : Circuit.t) (compound : string) (tyrePoints : R) : R :=
  W_M c tyrePoints * multiplierOf compound.

(** The local [remaining], before formatting. *)
Definition remainingExact (c : Circuit.t) (compound : string) (laps tyrePoints : R) : R :=
  let N := Rmax 1 laps in
  100 * exp (-1.18 * (Wc c compound tyrePoints / 100) * N).

(** The local [totalWear], before formatting. *)
Definition totalWearExact (c : Circuit.t) (compound : string) (laps tyrePoints : R) : R :=
  100 - remainingExact c compound laps tyrePoints.

(** [calculateTyreWear(circuit, compound, laps, tyrePoints)].  [compound]
    is a string and no operation of the body throws on numbers, so the
    [catch] clause is never entered. *)
Definition calculateTyreWear (circuit compound : string) (laps tyrePoints : R) : TyreWear.t :=
  match JS.get circuitsData circuit with
  | None => TyreWear.failure "Circuito no encontrado"
  | Some c =>
    if JS.leb laps 0 || JS.leb tyrePoints 0 then TyreWear.failure "Valores inválidos"
    else
      let Tw := Circuit.tyreWear c in
      let D := Circuit.length c in
      let N := Rmax 1 laps in
      let W_M := W_M c tyrePoints in
      let multiplier := multiplierOf compound in
      let Wc := Wc c compound tyrePoints in
      let remaining := remainingExact c compound laps tyrePoints in
      let totalWear := totalWearExact c compound laps tyrePoints in
      let performanceImpact := calculatePerformanceImpact remaining in
      let recommendedPitWindow := calculatePitWindow remaining totalWear in
      TyreWear.mk
        (Some true)
        None
        (Utils.formatNumber W_M 3)
        (Some (Utils.formatNumber Wc 3))
        (Utils.formatNumber remaining 2)
        (Some (Utils.formatNumber totalWear 2))
        (Some (JS.toUpperCase compound))
        (Some multiplier)
        (Some performanceImpact)
        (Some recommendedPitWindow)
        (Some N)
        (Some (TyreCircuitInfo.mk (Circuit.name c) Tw D (Circuit.difficulty c)))
  end.

(** *** Fuel *)

Module FuelEfficiency.
Record t : Type := mk { rating : string; color : string; fuelPerKm : R }.
End FuelEfficiency.

Module FuelCircuitInfo.
Record t : Type := mk { name : string; laps : Z; length : R }.
End FuelCircuitInfo.

Module Fuel.
Record t : Type := mk {
  totalFuel : R;
  fuelPerLap : R;
  totalDistance : R;
  efficiency : FuelEfficiency.t;
  circuitInfo : FuelCircuitInfo.t
}.
End Fuel.

Definition calculateFuelEfficiency (fuelPerLap circuitLength : R) : FuelEfficiency.t :=
  let fuelPerKm := fuelPerLap / circuitLength in
  let rc :=
    if JS.ltb fuelPerKm 0.5 then ("Excelente", "green")
    else if JS.ltb fuelPerKm 0.7 then ("Buena", "lime")
    else if JS.ltb fuelPerKm 1.0 then ("Media", "yellow")
    else if JS.ltb fuelPerKm 1.3 then ("Pobre", "orange")
    else ("Muy Pobre", "red") in
  FuelEfficiency.mk (fst rc) (snd rc) (Utils.formatNumber fuelPerKm 3).

(** The local [fuel] of [calculateFuel]. *)
Definition raceFuelExact (c : Circuit.t) (fuelPoints : R) : R :=
  let totalDistance := Circuit.length c * IZR (Circuit.laps c) in
  98.45644 * Rpower (Rmax 1 fuelPoints) (-0.088463) * totalDistance / 139.771.

(** The local [fuelPerLap] of [calculateFuel]. *)
Definition raceFuelPerLapExact (c : Circuit.t) (fuelPoints : R) : R :=
  raceFuelExact c fuelPoints / IZR (Circuit.laps c).

(** [calculateFuel(circuit, fuelPoints)]. *)
Definition calculateFuel (circuit : string) (fuelPoints : R) : Utils.Response Fuel.t :=
  match JS.get circuitsData circuit with
  | None => Utils.handleError "Circuito no encontrado" "Fuel calculation"
  | Some c =>
    if JS.leb fuelPoints 0
    then Utils.handleError "Puntos de combustible inválidos" "Fuel calculation"
    else
      let totalDistance := Circuit.length c * IZR (Circuit.laps c) in
      let fuel := raceFuelExact c fuelPoints in
      let fuelPerLap := raceFuelPerLapExact c fuelPoints in
      let efficiency := calculateFuelEfficiency fuelPerLap (Circuit.length c) in
      Utils.handleSuccess
        (Fuel.mk
           (Utils.formatNumber fuel 2)
           (Utils.formatNumber fuelPerLap 3)
           (Utils.formatNumber totalDistance 2)
           efficiency
           (FuelCircuitInfo.mk (Circuit.name c) (Circuit.laps c) (Circuit.length c)))
  end.

Module TimeImpact.
Record t : Type := mk { perLap : R; total : R; direction : string }.
End TimeImpact.

(** The local [timeImpacts] table. *)
Definition timeImpacts : list (string * R) :=
  [ ("muy-alto", -0.8); ("alto", -0.3); ("neutral", 0); ("bajo", 0.4);
    ("muy-bajo", 0.9) ]%string.

(** [calculateBoostTimeImpact(boost, laps)]; [timeImpacts[boost] || 0]
    is [0] both for a missing key and for the falsy entry [0]. *)
Definition calculateBoostTimeImpact (boost : string) (laps : R) : TimeImpact.t :=
  let impactPerLap :=
    match JS.get timeImpacts boost with Some v => v | None => 0 end in
  let totalImpact := impactPerLap * laps in
  TimeImpact.mk
    (Utils.formatNumber impactPerLap 1)
    (Utils.formatNumber totalImpact 1)
    (if JS.ltb impactPerLap 0 then "faster"
     else if JS.ltb 0 impactPerLap then "slower" else "neutral").

Module BoostInfo.
Record t : Type := mk { level : string; multiplier : R; label : string }.
End BoostInfo.

Module StintFuel.
Record t : Type := mk {
  stintFuel : R;
  fuelPerLap : R;
  baseFuelPerLap : R;
  boostInfo : BoostInfo.t;
  fuelSaving : R;
  timeImpact : TimeImpact.t;
  laps : R
}.
End StintFuel.

(** [this.boostLevels[boost] || this.boostLevels['neutral']]; the table
    has a ['neutral'] entry, the last [match] arm is never reached. *)
Definition boostInfoOf (boost : string) : BoostLevel.t :=
  match JS.get boostLevels boost with
  | Some b => b
  | None =>
    match JS.get boostLevels "neutral" with
    | Some b => b
    | None => BoostLevel.mk 1 "Neutral"
    end
  end.

(** The local [fuelPerLap] of [calculateStintFuel]. *)
Definition stintFuelPerLapExact (c : Circuit.t) (fuelPoints : R) : R :=
  (98.45644 * Rpower (Rmax 1 fuelPoints) (-0.088463) * Circuit.length c) / 139.771.

(** The local [stintFuel] after the boost multiplier is applied. *)
Definition stintFuelExact (c : Circuit.t) (fuelPoints laps : R) (boost : string) : R :=
  stintFuelPerLapExact c fuelPoints * laps * BoostLevel.multiplier (boostInfoOf boost).

(** [calculateStintFuel(circuit, fuelPoints, laps, boost)]. *)
Definition calculateStintFuel (circuit : string) (fuelPoints laps : R) (boost : string)
  : Utils.Response StintFuel.t :=
  match JS.get circuitsData circuit with
  | None => Utils.handleError "Circuito no encontrado" "Stint fuel calculation"
  | Some c =>
    if JS.leb fuelPoints 0 || JS.leb laps 0
    then Utils.handleError "Valores inválidos" "Stint fuel calculation"
    else
      let fuelPerLap := stintFuelPerLapExact c fuelPoints in
      let stintFuel := stintFuelExact c fuelPoints laps boost in
      let boostInfo := boostInfoOf boost in
      let fuelSaving := (1 - BoostLevel.multiplier boostInfo) * fuelPerLap * laps in
      let timeImpact := calculateBoostTimeImpact boost laps in
      Utils.handleSuccess
        (StintFuel.mk
           (Utils.formatNumber stintFuel 2)
           (Utils.formatNumber (fuelPerLap * BoostLevel.multiplier boostInfo) 3)
           (Utils.formatNumber fuelPerLap 3)
           (BoostInfo.mk boost (BoostLevel.multiplier boostInfo) (BoostLevel.label boostInfo))
           (Utils.formatNumber (Rabs fuelSaving) 2)
           timeImpact
           laps)
  end.

(** *** Strategies *)

Module Stint.
Record t : Type := mk { stint : Z; compound : string; laps : Z; boost : string }.
End Stint.

Module Strategy.
Record t : Type := mk {
  stints : list Stint.t;
  totalFuel : R;
  description : string
}.
End Strategy.

(** [{ ...strategy, score }]. *)
Module Evaluated.
Record t : Type := mk {
  stints : list Stint.t;
  totalFuel : R;
  description : string;
  score : Z
}.
End Evaluated.

(** [calculateTotalStrategyFuel(circuit, stints, fuelPoints)]. *)
Definition calculateTotalStrategyFuel (circuit : string) (stints : list Stint.t)
           (fuelPoints : R) : R :=
  fold_left
    (fun total stint =>
       let stintFuel :=
         calculateStintFuel circuit fuelPoints (IZR (Stint.laps stint)) (Stint.boost stint) in
       total + match stintFuel with
               | Utils.Success data _ => StintFuel.stintFuel data
               | Utils.Failure _ _ => 0
               end)
    stints 0.

(** [generateStrategyDescription(stints)]. *)
Definition generateStrategyDescription (stints : list Stint.t) : string :=
  if Nat.eqb (List.length stints) 1 then "Estrategia sin paradas"
  else
    let compounds := JS.join " → " (map Stint.compound stints) in
    let laps :=
      JS.join " + " (map (fun s => (JS.string_of_Z (Stint.laps s) ++ "L")%string) stints) in
    (JS.string_of_Z (Z.of_nat (List.length stints)) ++ " paradas: " ++ compounds
       ++ " (" ++ laps ++ ")")%string.

(** The [for] loop of [createBalancedStrategy]: [count] iterations are
    left, [i] is the loop index, [remainingLaps] and [stints] are the
    mutated locals. *)
Fixpoint balancedStints (numStints : Z) (primaryCompound : string)
         (count : nat) (i : Z) (remainingLaps : Z) (stints : list Stint.t)
  : list Stint.t :=
  match count with
  | O => stints
  | S count' =>
    let isLastStint := (i =? numStints - 1)%Z in
    let stintLaps :=
      if isLastStint then remainingLaps else (remainingLaps / (numStints - i))%Z in
    let compound :=
      if (1 <? numStints)%Z then
        if (i =? 0)%Z then "S"
        else if (i =? numStints - 1)%Z then "H"
        else primaryCompound
      else primaryCompound in
    balancedStints numStints primaryCompound count' (i + 1)%Z
      (remainingLaps - stintLaps)%Z
      (stints ++ [Stint.mk (i + 1)%Z compound stintLaps "neutral"])
  end.

(** [createBalancedStrategy(circuit, totalLaps, numStints, primaryCompound,
    tyrePoints, fuelPoints)]. *)
Definition createBalancedStrategy (circuit : string) (totalLaps numStints : Z)
           (primaryCompound : string) (tyrePoints fuelPoints : R) : Strategy.t :=
  let stints :=
    balancedStints numStints primaryCompound (Z.to_nat numStints) 0%Z totalLaps [] in
  Strategy.mk stints
    (calculateTotalStrategyFuel circuit stints fuelPoints)
    (generateStrategyDescription stints).

(** [validateStrategy(strategy, totalLaps)]. *)
Definition validateStrategy (strategy : Strategy.t) (totalLaps : Z) : bool :=
  let totalStintLaps :=
    fold_left (fun sum stint => (sum + Stint.laps stint)%Z) (Strategy.stints strategy) 0%Z in
  (totalStintLaps =? totalLaps)%Z
  && forallb (fun stint => (0 <? Stint.laps stint)%Z) (Strategy.stints strategy).

(** The values [1, 2, ..., maxStints] taken by the outer loop variable. *)
Definition stintCounts (maxStints : Z) : list Z :=
  map Z.of_nat (seq 1 (Z.to_nat maxStints)).

(** [generateStrategies(circuit, totalLaps, tyrePoints, fuelPoints,
    maxStints, compounds, minLength, maxLength)]; the accumulator of the
    two folds is the local array [strategies]. *)
Definition generateStrategies (circuit : string) (totalLaps : Z)
           (tyrePoints fuelPoints : R) (maxStints : Z) (compounds : list string)
           (minLength maxLength : Z) : list Strategy.t :=
  fold_left
    (fun strategies numStints =>
       let avgStintLength := (totalLaps / numStints)%Z in
       if (minLength <=? avgStintLength)%Z && (avgStintLength <=? maxLength)%Z then
         fold_left
           (fun strategies compound =>
              let strategy :=
                createBalancedStrategy circuit totalLaps numStints compound
                                       tyrePoints fuelPoints in
              if validateStrategy strategy totalLaps
              then strategies ++ [strategy]
              else strategies)
           compounds strategies
       else strategies)
    (stintCounts maxStints) [].

(** The tyre branch of the [forEach] body of [evaluateStrategy]. *)
Definition tyreAdjust (score : Z) (remaining : R) : Z :=
  if JS.ltb remaining 20 then (score - 30)%Z
  else if JS.ltb remaining 40 then (score - 15)%Z
  else if JS.ltb 80 remaining then (score - 5)%Z
  else score.

(** The stint-length branch of the [forEach] body of [evaluateStrategy]. *)
Definition lengthAdjust (score : Z) (laps : Z) : Z :=
  if (8 <=? laps)%Z && (laps <=? 25)%Z then (score + 5)%Z else score.

(** [evaluateStrategy(strategy, circuitInfo)]: [circuitInfo] is a circuit
    record, and the tyre call receives its [name]. *)
Definition evaluateStrategy (strategy : Strategy.t) (circuitInfo : Circuit.t) : Z :=
  let score := 100%Z in
  let score := (score - (Z.of_nat (List.length (Strategy.stints strategy)) - 1) * 15)%Z in
  let score :=
    fold_left
      (fun score stint =>
         let tyreWear :=
           calculateTyreWear (Circuit.name circuitInfo) (Stint.compound stint)
                             (IZR (Stint.laps stint)) 100 in
         let score := tyreAdjust score (TyreWear.remaining tyreWear) in
         lengthAdjust score (Stint.laps stint))
      (Strategy.stints strategy) score in
  Z.max 0 score.

Module Constraints.
(** The [constraints] argument of [optimizeStrategy]; [None] is a
    property left undefined. *)
Record t : Type := mk {
  maxStints : option Z;
  preferredCompounds : option (list string);
  minStintLength : option Z;
  maxStintLength : option Z
}.
Definition empty : t := mk None None None None.
End Constraints.

Module OptimizedCircuitInfo.
Record t : Type := mk { name : string; totalLaps : Z; difficulty : string }.
End OptimizedCircuitInfo.

Module Optimization.
Record t : Type := mk {
  recommended : option Evaluated.t;
  alternatives : list Evaluated.t;
  circuitInfo : OptimizedCircuitInfo.t
}.
End Optimization.

Definition withDefault {A : Type} (o : option A) (d : A) : A :=
  match o with Some v => v | None => d end.

(** The [map] callback of [optimizeStrategy]. *)
Definition evaluated (c : Circuit.t) (strategy : Strategy.t) : Evaluated.t :=
  Evaluated.mk (Strategy.stints strategy) (Strategy.totalFuel strategy)
               (Strategy.description strategy) (evaluateStrategy strategy c).

(** The [sort] callback of [optimizeStrategy]. *)
Definition byScoreDescending (a b : Evaluated.t) : Z :=
  (Evaluated.score b - Evaluated.score a)%Z.

(** [optimizeStrategy(circuit, totalLaps, tyrePoints, fuelPoints,
    constraints)]; [Math.floor(totalLaps * 0.7)] is taken on the exact
    product. *)
Definition optimizeStrategy (circuit : string) (totalLaps : Z)
           (tyrePoints fuelPoints : R) (constraints : Constraints.t)
  : Utils.Response Optimization.t :=
  match JS.get circuitsData circuit with
  | None => Utils.handleError "Circuito no encontrado" "Strategy optimization"
  | Some c =>
    let maxStints := withDefault (Constraints.maxStints constraints) 3%Z in
    let preferredCompounds :=
      withDefault (Constraints.preferredCompounds constraints) ["M"; "S"] in
    let minStintLength := withDefault (Constraints.minStintLength constraints) 5%Z in
    let maxStintLength :=
      withDefault (Constraints.maxStintLength constraints)
                  (JS.floor (IZR totalLaps * 0.7)) in
    let strategies :=
      generateStrategies circuit totalLaps tyrePoints fuelPoints
                         maxStints preferredCompounds minStintLength maxStintLength in
    let evaluatedStrategies :=
      JS.slice_to 5 (JS.sort byScoreDescending (map (evaluated c) strategies)) in
    Utils.handleSuccess
      (Optimization.mk
         (nth_error evaluatedStrategies 0)
         (JS.slice_from 1 evaluatedStrategies)
         (OptimizedCircuitInfo.mk (Circuit.name c) totalLaps (Circuit.difficulty c)))
  end.

(** *** Comparative analysis *)

Module Analysis.
Record t : Type := mk {
  estimatedTime : Z;
  totalFuel : R;
  riskLevel : Z;
  pitStops : Z
}.
End Analysis.

(** The locals mutated by the [forEach] of [analyzeStrategy], with the
    index of the next element. *)
Module AnalysisState.
Record t : Type := mk { totalTime : Z; totalFuel : R; riskLevel : Z; index : Z }.
End AnalysisState.

(** The risk branch of the [forEach] body of [analyzeStrategy]. *)
Definition riskAdjust (riskLevel : Z) (remaining : R) : Z :=
  if JS.ltb remaining 30 then (riskLevel + 2)%Z
  else if JS.ltb remaining 50 then (riskLevel + 1)%Z
  else riskLevel.

(** The body of the [forEach] of [analyzeStrategy]. *)
Definition analyzeStint (circuit : string) (numStints : Z)
           (st : AnalysisState.t) (stint : Stint.t) : AnalysisState.t :=
  let index := AnalysisState.index st in
  let tyreCalc :=
    calculateTyreWear circuit (Stint.compound stint) (IZR (Stint.laps stint)) 100 in
  let fuelCalc :=
    calculateStintFuel circuit 100 (IZR (Stint.laps stint)) (Stint.boost stint) in
  let totalTime := (AnalysisState.totalTime st + Stint.laps stint * 90)%Z in
  let totalFuel :=
    AnalysisState.totalFuel st
    + match fuelCalc with
      | Utils.Success data _ => StintFuel.stintFuel data
      | Utils.Failure _ _ => 0
      end in
  let totalTime :=
    if (index <? numStints - 1)%Z then (totalTime + 25)%Z else totalTime in
  let riskLevel := riskAdjust (AnalysisState.riskLevel st) (TyreWear.remaining tyreCalc) in
  AnalysisState.mk totalTime totalFuel riskLevel (index + 1)%Z.

(** [analyzeStrategy(strategy, circuit)]. *)
Definition analyzeStrategy (strategy : Strategy.t) (circuit : string) : Analysis.t :=
  let numStints := Z.of_nat (List.length (Strategy.stints strategy)) in
  let final :=
    fold_left (analyzeStint circuit numStints) (Strategy.stints strategy)
              (AnalysisState.mk 0 0 0 0) in
  Analysis.mk
    (AnalysisState.totalTime final)
    (Utils.formatNumber (AnalysisState.totalFuel final) 2)
    (AnalysisState.riskLevel final)
    (numStints - 1)%Z.

(** [getStrategyPros(analysis)] and [getStrategyCons(analysis)]. *)
Definition getStrategyPros (analysis : Analysis.t) : list string :=
  (if (Analysis.pitStops analysis =? 0)%Z then ["Sin tiempo perdido en boxes"] else [])
  ++ (if (Analysis.pitStops analysis =? 1)%Z
      then ["Una sola parada - estrategia simple"] else [])
  ++ (if (Analysis.riskLevel analysis =? 0)%Z then ["Estrategia muy segura"] else [])
  ++ (if (Analysis.riskLevel analysis <=? 1)%Z then ["Riesgo bajo"] else []).

Definition getStrategyCons (analysis : Analysis.t) : list string :=
  (if (3 <=? Analysis.pitStops analysis)%Z
   then ["Múltiples paradas - tiempo perdido"] else [])
  ++ (if (3 <=? Analysis.riskLevel analysis)%Z
      then ["Alto riesgo de degradación"] else [])
  ++ (if (5 <=? Analysis.riskLevel analysis)%Z
      then ["Estrategia muy arriesgada"] else []).

(** [compareStrategies(strategies, circuit)]: each strategy with its
    analysis and the lists derived from it. *)
Module Compared.
Record t : Type := mk {
  stints : list Stint.t;
  totalFuel : R;
  description : string;
  analysis : Analysis.t;
  pros : list string;
  cons : list string
}.
End Compared.

Definition compareStrategies (strategies : list Strategy.t) (circuit : string)
  : list Compared.t :=
  map (fun strategy =>
         let analysis := analyzeStrategy strategy circuit in
         Compared.mk (Strategy.stints strategy) (Strategy.totalFuel strategy)
                     (Strategy.description strategy)
                     analysis (getStrategyPros analysis) (getStrategyCons analysis))
      strategies.

(** *** Weather *)

Module WeatherConditions.
Record t : Type := mk { temperature : R; humidity : R; rainfall : R }.
End WeatherConditions.

Module WeatherFactors.
Record t : Type := mk { temperature : R; rain : R }.
End WeatherFactors.

(** [{ ...baseCalculation, weatherAdjusted: true, adjustedRemaining,
    weatherFactors }]. *)
Module WeatherAdjusted.
Record t : Type := mk {
  baseCalculation : TyreWear.t;
  weatherAdjusted : bool;
  adjustedRemaining : R;
  weatherFactors : WeatherFactors.t
}.
End WeatherAdjusted.

(** [calculateWeatherImpact(baseCalculation, weatherConditions)]. *)
Definition calculateWeatherImpact (baseCalculation : TyreWear.t)
           (weatherConditions : WeatherConditions.t) : WeatherAdjusted.t :=
  let temperature := WeatherConditions.temperature weatherConditions in
  let rainfall := WeatherConditions.rainfall weatherConditions in
  let tempMultiplier :=
    if JS.ltb 35 temperature then 1.15
    else if JS.ltb temperature 15 then 0.9
    else 1 in
  let rainMultiplier := if JS.ltb 0 rainfall then 0.7 else 1 in
  WeatherAdjusted.mk
    baseCalculation
    true
    (TyreWear.remaining baseCalculation * tempMultiplier * rainMultiplier)
    (WeatherFactors.mk tempMultiplier rainMultiplier).

End Calculations.

(** ** Database (database.js): cached operations *)

Module Database.

(** What [snapshot.val()] returns and the cache stores. *)
#[warnings="-register-all"]
Inductive Value : Type :=
| Null
| Boolean (b : bool)
| Number (n : R)
| Text (s : list N)
| Object (properties : list (list N * Value)).

(** Whether a value passes [if (value)]. *)
Definition truthy (v : Value) : bool :=
  match v with
  | Null => false
  | Boolean b => b
  | Number n => if Req_dec_T n 0 then false else true
  | Text s => negb (List.length s =? 0)%nat
  | Object _ => true
  end.

(** An entry [{ data, timestamp }] of [this.cache]. *)
Module Cached.
Record t : Type := mk { data : Value; timestamp : Z }.
End Cached.

Definition Cache : Type := list (list N * Cached.t).

(** [this.cacheTimeout = 5 * 60 * 1000]. *)
Definition cacheTimeout : Z := 5 * 60 * 1000.

(** [getFromCache(path)], with [now] the value of [Date.now()]. *)
Definition getFromCache (cache : Cache) (now : Z) (path : list N) : Value :=
  match JS.mapGet cache path with
  | Some cached =>
    if (now - Cached.timestamp cached <? cacheTimeout)%Z then Cached.data cached else Null
  | None => Null
  end.

(** [setCache(path, data)]. *)
Definition setCache (cache : Cache) (now : Z) (path : list N) (data : Value) : Cache :=
  JS.mapSet cache path (Cached.mk data now).

(** [invalidateCache(path)]. *)
Definition invalidateCache (cache : Cache) (path : list N) : Cache :=
  let keysToRemove :=
    filter (fun key => JS.startsWith key path || JS.startsWith path key) (map fst cache) in
  fold_left (fun cache key => JS.mapDelete cache key) keysToRemove cache.

(** The outcome of the call to Firebase an operation makes. *)
Inductive Firebase : Type :=
| Resolves (value : Value)
| Rejects (message : string).

(** [executeOperation(operation, path, data)] as the response and the
    cache it leaves.  [prelude] is the message of the error thrown before
    the [switch] (by the initialisation or by [ref]), if any; [now] and
    [fetched] are the values of [Date.now()] when the cache is read and
    when the fetched value is stored. *)
Definition executeOperation (cache : Cache) (prelude : option string) (now fetched : Z)
           (operation : string) (path : list N) (data : Value) (firebase : Firebase)
  : Utils.Response Value * Cache :=
  let failure message :=
    Utils.handleError (Utils.errorMessage message) ("Database " ++ operation)%string in
  match prelude with
  | Some message => (failure message, cache)
  | None =>
    if String.eqb operation "set" then
      match firebase with
      | Resolves _ => (Utils.Success data "Data saved successfully",
                       invalidateCache cache path)
      | Rejects message => (failure message, cache)
      end
    else if String.eqb operation "get" then
      let cachedData := getFromCache cache now path in
      if truthy cachedData
      then (Utils.Success cachedData "Data retrieved from cache", cache)
      else
        match firebase with
        | Resolves result => (Utils.Success result "Data retrieved successfully",
                              setCache cache fetched path result)
        | Rejects message => (failure message, cache)
        end
    else if String.eqb operation "remove" then
      match firebase with
      | Resolves _ => (Utils.Success Null "Data removed successfully",
                       invalidateCache cache path)
      | Rejects message => (failure message, cache)
      end
    else (failure ("Unknown operation: " ++ operation)%string, cache)
  end.

End Database.

(** ** Auth (auth.js) *)

Module Auth.

(** [hashPassword(password)]. *)
Definition hashPassword (password : list N) : Utils.Hash :=
  let hash := fold_left Utils.hashStep password 0%Z in
  let salt :=
    JS.units "ferrari_salt_" ++ JS.toStringRadix 10 (Z.of_nat (List.length password)) in
  Utils.simpleHash (JS.toStringRadix 10 (Z.abs hash) ++ salt).

(** The [data] of a successful [validateLogin]. *)
Module Login.
Record t : Type := mk { username : list N; password : list N }.
End Login.

(** [validateLogin(username, password)] on two strings. *)
Definition validateLogin (username password : list N) : Utils.Response Login.t :=
  if (List.length username =? 0)%nat || (List.length password =? 0)%nat
  then Utils.handleError "Usuario y contraseña son requeridos" "Login validation"
  else
    let sanitizedUsername := Utils.sanitizeInput (JS.trim username) in
    let userValidation := Utils.validateUsername sanitizedUsername in
    if negb (Utils.Validation.isValid userValidation)
    then Utils.handleError
           (Utils.errorMessage (nth 0 (Utils.Validation.errors userValidation) ""))
           "Username validation"
    else
      let passwordValidation := Utils.validatePassword password in
      if negb (Utils.Validation.isValid passwordValidation)
      then Utils.handleError
             (Utils.errorMessage (nth 0 (Utils.Validation.errors passwordValidation) ""))
             "Password validation"
      else Utils.handleSuccess (Login.mk sanitizedUsername password).

(** The record the rate limiter keeps per identifier. *)
Module Attempt.
Record t : Type := mk { count : Z; firstAttempt : Z; lockedUntil : Z }.
End Attempt.

Definition Attempts : Type := list (list N * Attempt.t).

Definition maxAttempts : Z := 5.
Definition lockoutTime : Z := 15 * 60 * 1000.

(** [{ allowed, remainingTime }]; [remainingTime] is defined on a lock
    only. *)
Module RateCheck.
Record t : Type := mk { allowed : bool; remainingTime : option Z }.
End RateCheck.

(** [rateLimit.check(identifier)].  The record read from the map is the
    stored object, so the reset of an expired window is seen by the map; a
    record made up for an unknown identifier is dropped.  [Math.ceil] of the
    minutes left is taken on the exact quotient. *)
Definition check (attempts : Attempts) (now : Z) (identifier : list N)
  : RateCheck.t * Attempts :=
  let stored := JS.mapGet attempts identifier in
  let record := match stored with Some r => r | None => Attempt.mk 0 now 0 end in
  if (now <? Attempt.lockedUntil record)%Z
  then (RateCheck.mk false (Some (- ((now - Attempt.lockedUntil record) / 60000))%Z),
        attempts)
  else
    let record :=
      if (lockoutTime <? now - Attempt.firstAttempt record)%Z
      then Attempt.mk 0 now (Attempt.lockedUntil record)
      else record in
    (RateCheck.mk (Attempt.count record <? maxAttempts)%Z None,
     match stored with
     | Some _ => JS.mapSet attempts identifier record
     | None => attempts
     end).

(** [rateLimit.record(identifier)]. *)
Definition record (attempts : Attempts) (now : Z) (identifier : list N) : Attempts :=
  let record :=
    match JS.mapGet attempts identifier with
    | Some r => r
    | None => Attempt.mk 0 now 0
    end in
  let count := (Attempt.count record + 1)%Z in
  let lockedUntil :=
    if (maxAttempts <=? count)%Z then (now + lockoutTime)%Z
    else Attempt.lockedUntil record in
  JS.mapSet attempts identifier (Attempt.mk count (Attempt.firstAttempt record) lockedUntil).

(** [rateLimit.reset(identifier)]. *)
Definition reset (attempts : Attempts) (identifier : list N) : Attempts :=
  JS.mapDelete attempts identifier.

(** [Utils.sanitizeInput(username) || 'unknown']. *)
Definition identifierOf (username : list N) : list N :=
  let sanitized := Utils.sanitizeInput username in
  if (List.length sanitized =? 0)%nat then JS.units "unknown" else sanitized.

(** [loginWithRateLimit(username, password)] as the response and the
    attempts it leaves.  [login] is what [this.login(username, password)]
    returns when it is called; [now] and [recorded] are the values of
    [Date.now()] in [check] and in [record]. *)
Definition loginWithRateLimit {A : Type} (attempts : Attempts) (now recorded : Z)
           (username : list N) (login : Utils.Response A)
  : Utils.Response A * Attempts :=
  let identifier := identifierOf username in
  let (rateLimitCheck, attempts) := check attempts now identifier in
  if negb (RateCheck.allowed rateLimitCheck) then
    let message :=
      match RateCheck.remainingTime rateLimitCheck with
      | Some remainingTime =>
        if (remainingTime =? 0)%Z then "Demasiados intentos de inicio de sesión."
        else ("Demasiados intentos. Inténtalo de nuevo en "
                ++ JS.string_of_Z remainingTime ++ " minutos.")%string
      | None => "Demasiados intentos de inicio de sesión."
      end in
    (Utils.handleError message "Rate limit", attempts)
  else if negb (Utils.success login)
  then (login, record attempts recorded identifier)
  else (login, reset attempts identifier).

End Auth.

(** ** The strategy planner (main.js) *)

Module Main.

(** A stint of [state.strategy.stints]. *)
Module StintInput.
Record t : Type := mk { compound : string; laps : Z; boost : string }.
End StintInput.

(** [state.strategy]. *)
Module StrategyState.
Record t : Type := mk {
  circuit : string;
  tyrePoints : Z;
  fuelPoints : Z;
  stints : list StintInput.t
}.
End StrategyState.

(** The strategy the application starts with. *)
Definition initialStrategy : StrategyState.t :=
  StrategyState.mk "FRA" 49 100 [StintInput.mk "M" 6 "neutral"].

(** The stint pushed by the handlers. *)
Definition newStint : StintInput.t := StintInput.mk "M" 10 "neutral".

(** [parseInt(value) || fallback]; [None] is [NaN]. *)
Definition parsedOr (parsed : option Z) (fallback : Z) : Z :=
  match parsed with
  | Some n => if (n =? 0)%Z then fallback else n
  | None => fallback
  end.

(** What the user does on the strategy page, with the values the handler
    reads from the event: [parseInt] of an input as [option Z], a
    [data-index] as an integer. *)
Inductive Event : Type :=
| CircuitChange (value : string)
| TyrePointsChange (parsed : option Z)
| FuelPointsChange (parsed : option Z)
| StintsChange (parsed : option Z)
| CompoundClick (index : Z) (compound : string)
| LapsChange (index : Z) (parsed : option Z)
| BoostChange (index : Z) (value : string)
| AddStint
| RemoveStint (index : Z)
| Optimize.

(** [stints[index].field = value]: outside the array the assignment
    throws and the strategy is left as it was. *)
Definition updateStint (stints : list StintInput.t) (index : Z)
           (update : StintInput.t -> StintInput.t) : list StintInput.t :=
  if (index <? 0)%Z then stints
  else
    match nth_error stints (Z.to_nat index) with
    | Some stint =>
      firstn (Z.to_nat index) stints ++ update stint :: skipn (S (Z.to_nat index)) stints
    | None => stints
    end.

Definition withStints (strategy : StrategyState.t) (stints : list StintInput.t)
  : StrategyState.t :=
  StrategyState.mk (StrategyState.circuit strategy) (StrategyState.tyrePoints strategy)
                   (StrategyState.fuelPoints strategy) stints.

(** The toast that ends [optimizeStrategy]. *)
Definition optimizeToast (strategy : StrategyState.t) : string :=
  match JS.get Calculations.circuitsData (StrategyState.circuit strategy) with
  | None => "Error optimizando estrategia"
  | Some circuit =>
    match Calculations.optimizeStrategy
            (StrategyState.circuit strategy) (Circuit.laps circuit)
            (IZR (StrategyState.tyrePoints strategy))
            (IZR (StrategyState.fuelPoints strategy))
            (Calculations.Constraints.mk
               (Some 3%Z) (Some ["M"; "S"; "H"]) (Some 5%Z)
               (Some (JS.floor (IZR (Circuit.laps circuit) * 0.7)))) with
    | Utils.Success data _ =>
      match Calculations.Optimization.recommended data with
      | Some _ => "Estrategia optimizada"
      | None => "No se pudo optimizar la estrategia"
      end
    | Utils.Failure _ _ => "No se pudo optimizar la estrategia"
    end
  end.

(** [optimizeStrategy()] of the application, as the strategy it leaves:
    on an unknown circuit code [circuit.laps] throws and nothing changes. *)
Definition optimizeStrategy (strategy : StrategyState.t) : StrategyState.t :=
  match JS.get Calculations.circuitsData (StrategyState.circuit strategy) with
  | None => strategy
  | Some circuit =>
    match Calculations.optimizeStrategy
            (StrategyState.circuit strategy) (Circuit.laps circuit)
            (IZR (StrategyState.tyrePoints strategy))
            (IZR (StrategyState.fuelPoints strategy))
            (Calculations.Constraints.mk
               (Some 3%Z) (Some ["M"; "S"; "H"]) (Some 5%Z)
               (Some (JS.floor (IZR (Circuit.laps circuit) * 0.7)))) with
    | Utils.Success data _ =>
      match Calculations.Optimization.recommended data with
      | Some recommended =>
        withStints strategy
          (map (fun stint =>
                  StintInput.mk
                    (Calculations.Stint.compound stint)
                    (Calculations.Stint.laps stint)
                    (if String.eqb (Calculations.Stint.boost stint) ""
                     then "neutral" else Calculations.Stint.boost stint))
               (Calculations.Evaluated.stints recommended))
      | None => strategy
      end
    | Utils.Failure _ _ => strategy
    end
  end.

(** The event handlers of the strategy page, as the strategy they leave. *)
Definition handle (strategy : StrategyState.t) (event : Event) : StrategyState.t :=
  let stints := StrategyState.stints strategy in
  match event with
  | CircuitChange value =>
    StrategyState.mk value (StrategyState.tyrePoints strategy)
                     (StrategyState.fuelPoints strategy) stints
  | TyrePointsChange parsed =>
    StrategyState.mk (StrategyState.circuit strategy) (Z.max 1 (parsedOr parsed 100))
                     (StrategyState.fuelPoints strategy) stints
  | FuelPointsChange parsed =>
    StrategyState.mk (StrategyState.circuit strategy) (StrategyState.tyrePoints strategy)
                     (Z.max 1 (parsedOr parsed 100)) stints
  | StintsChange parsed =>
    let newLength := Z.to_nat (Z.max 1 (Z.min 5 (parsedOr parsed 1))) in
    let stints :=
      Nat.iter (newLength - List.length stints) (fun stints => stints ++ [newStint]) stints in
    let stints :=
      Nat.iter (List.length stints - newLength) (fun stints => removelast stints) stints in
    withStints strategy stints
  | CompoundClick index compound =>
    withStints strategy
      (updateStint stints index
         (fun stint => StintInput.mk compound (StintInput.laps stint)
                                     (StintInput.boost stint)))
  | LapsChange index parsed =>
    withStints strategy
      (updateStint stints index
         (fun stint => StintInput.mk (StintInput.compound stint)
                                     (Z.max 1 (parsedOr parsed 1))
                                     (StintInput.boost stint)))
  | BoostChange index value =>
    withStints strategy
      (updateStint stints index
         (fun stint => StintInput.mk (StintInput.compound stint)
                                     (StintInput.laps stint) value))
  | AddStint =>
    if (List.length stints <? 5)%nat then withStints strategy (stints ++ [newStint])
    else strategy
  | RemoveStint index => withStints strategy (JS.spliceRemove stints index)
  | Optimize => optimizeStrategy strategy
  end.

(** Whether the page rendered from [strategy] has the control that fires
    [event] with these values: the options of the two selects, one group
    of controls per stint, the remove buttons only when there is more than
    one stint. *)
Definition rendered (strategy : StrategyState.t) (event : Event) : bool :=
  let count := Z.of_nat (List.length (StrategyState.stints strategy)) in
  let onStint index := ((0 <=? index) && (index <? count))%Z in
  match event with
  | CircuitChange value =>
    match JS.get Calculations.circuitsData value with Some _ => true | None => false end
  | CompoundClick index compound =>
    onStint index && existsb (String.eqb compound) ["SS"; "S"; "M"; "H"]
  | LapsChange index _ => onStint index
  | BoostChange index value =>
    onStint index
    && match JS.get Config.boostLevels value with Some _ => true | None => false end
  | AddStint => (count <? 5)%Z
  | RemoveStint index => onStint index && (1 <? count)%Z
  | TyrePointsChange _ | FuelPointsChange _ | StintsChange _ | Optimize => true
  end.

(** The strategy after a session: each event is handled if the page shows
    its control, and is impossible otherwise. *)
Fixpoint session (strategy : StrategyState.t) (events : list Event)
  : option StrategyState.t :=
  match events with
  | [] => Some strategy
  | event :: rest =>
    if rendered strategy event then session (handle strategy event) rest else None
  end.

(** The tyre and fuel calls [renderStints] makes for a stint. *)
Definition stintTyre (strategy : StrategyState.t) (stint : StintInput.t) : TyreWear.t :=
  Calculations.calculateTyreWear
    (StrategyState.circuit strategy) (StintInput.compound stint)
    (IZR (StintInput.laps stint)) (IZR (StrategyState.tyrePoints strategy)).

Definition stintFuel (strategy : StrategyState.t) (stint : StintInput.t)
  : Utils.Response Calculations.StintFuel.t :=
  Calculations.calculateStintFuel
    (StrategyState.circuit strategy) (IZR (StrategyState.fuelPoints strategy))
    (IZR (StintInput.laps stint)) (StintInput.boost stint).

End Main.

(** ** Auxiliary notions *)

(** What the data model asks of a circuit record: a positive length, a
    base tyre wear that is not negative, a positive lap count. *)
Definition wellFormedCircuit (c : Circuit.t) : Prop :=
  0 < Circuit.length c /\ 0 <= Circuit.tyreWear c /\ (0 < Circuit.laps c)%Z.


(** The catalog entries used as concrete inputs below. *)
Definition Turkey : Circuit.t :=
  Circuit.mk "Turkey" 5.162 27 90 "TR" "Europe/Istanbul" "Very Hard".

Definition Monaco : Circuit.t :=
  Circuit.mk "Monaco" 4.015 29 20 "MC" "Europe/Monaco" "Very Hard".

Definition France : Circuit.t :=
  Circuit.mk "France" 5.881 24 80 "FR" "Europe/Paris" "Hard".

(** The score as the specification words it, for comparison with
    [Calculations.evaluateStrategy]: 100, minus 15 per stint beyond the
    first, then per stint the tyre penalty read from the Tyre Wear Model of
    the circuit with code [circuit] at 100 tyre points and the stint-length
    bonus, floored at 0. *)
Module Spec.

Definition tyrePenalty (remaining : R) : Z :=
  if JS.ltb remaining 20 then 30%Z
  else if JS.ltb remaining 40 then 15%Z
  else if JS.ltb 80 remaining then 5%Z
  else 0%Z.

Definition lengthBonus (laps : Z) : Z :=
  if (8 <=? laps)%Z && (laps <=? 25)%Z then 5%Z else 0%Z.

Definition stintDelta (circuit : string) (stint : Calculations.Stint.t) : Z :=
  let remaining :=
    TyreWear.remaining
      (Calculations.calculateTyreWear circuit (Calculations.Stint.compound stint)
                                      (IZR (Calculations.Stint.laps stint)) 100) in
  (lengthBonus (Calculations.Stint.laps stint) - tyrePenalty remaining)%Z.

Definition score (stints : list Calculations.Stint.t) (circuit : string) : Z :=
  Z.max 0
    (100 - 15 * (Z.of_nat (List.length stints) - 1)
     + fold_right Z.add 0%Z (map (stintDelta circuit) stints))%Z.

End Spec.

(** The boost multiplier as the specification tabulates it: 1.04, 1.0161,
    1.0, 0.988 and 0.9799 for the five levels, Neutral for any other key. *)
Definition tabulatedBoostMultiplier (boost : string) : R :=
  if String.eqb "muy-alto" boost then 1.04
  else if String.eqb "alto" boost then 1.0161
  else if String.eqb "neutral" boost then 1.0
  else if String.eqb "bajo" boost then 0.988
  else if String.eqb "muy-bajo" boost then 0.9799
  else 1.0.

(** Sum of a list of integers. *)
Definition sumZ (l : list Z) : Z := fold_right Z.add 0%Z l.

(** The risk a stint adds, read off the tyre call. *)
Definition stintRisk (circuit : string) (stint : Calculations.Stint.t) : Z :=
  let remaining :=
    TyreWear.remaining
      (Calculations.calculateTyreWear circuit (Calculations.Stint.compound stint)
                                      (IZR (Calculations.Stint.laps stint)) 100) in
  if JS.ltb remaining 30 then 2%Z else if JS.ltb remaining 50 then 1%Z else 0%Z.

(** What the generator guarantees of a strategy it keeps. *)
Definition generated (totalLaps maxStints minLength maxLength : Z)
           (strategy : Calculations.Strategy.t) : Prop :=
  let stints := Calculations.Strategy.stints strategy in
  let stintCount := Z.of_nat (List.length stints) in
  sumZ (map Calculations.Stint.laps stints) = totalLaps
  /\ Forall (fun stint => (0 < Calculations.Stint.laps stint)%Z) stints
  /\ (1 <= stintCount <= maxStints)%Z
  /\ (minLength <= totalLaps / stintCount <= maxLength)%Z.

(** Ranked no lower: the order the sort of [optimizeStrategy] produces. *)
Definition scoredAtLeast (a b : Calculations.Evaluated.t) : Prop :=
  (Calculations.Evaluated.score b <= Calculations.Evaluated.score a)%Z.

(** The [stintFuel] a call reports, 0 for a failed call: the summand of
    [calculateTotalStrategyFuel]. *)
Definition reportedStintFuel (circuit : string) (fuelPoints laps : R) (boost : string) : R :=
  match Calculations.calculateStintFuel circuit fuelPoints laps boost with
  | Utils.Success data _ => Calculations.StintFuel.stintFuel data
  | Utils.Failure _ _ => 0
  end.

(** What [createBalancedStrategy] puts in the stint numbered [number] of
    [numStints]: Soft first and Hard last when there are several stints, the
    primary compound elsewhere; a lap count of the even average or one more;
    neutral boost. *)
Definition balancedStint (totalLaps numStints : Z) (primaryCompound : string)
           (stint : Calculations.Stint.t) : Prop :=
  let number := Calculations.Stint.stint stint in
  (Calculations.Stint.laps stint = totalLaps / numStints
   \/ Calculations.Stint.laps stint = totalLaps / numStints + 1)%Z
  /\ Calculations.Stint.boost stint = "neutral"
  /\ Calculations.Stint.compound stint
     = (if (1 <? numStints)%Z then
          if (number =? 1)%Z then "S"
          else if (number =? numStints)%Z then "H"
          else primaryCompound
        else primaryCompound).

(** The stints and the score of every ranked candidate, in order. *)
Definition ranking (result : Utils.Response Calculations.Optimization.t)
  : option (list (list Calculations.Stint.t * Z)) :=
  match result with
  | Utils.Success data _ =>
    Some (map (fun e => (Calculations.Evaluated.stints e, Calculations.Evaluated.score e))
              (match Calculations.Optimization.recommended data with
               | Some best => [best]
               | None => []
               end ++ Calculations.Optimization.alternatives data))
  | Utils.Failure _ _ => None
  end.

(** The replacement [Utils.sanitizeInput] makes for one code unit, all six
    patterns taken at once. *)
Definition escape (u : N) : list N :=
  if (u =? 38)%N then JS.units "&amp;"
  else if (u =? 60)%N then JS.units "&lt;"
  else if (u =? 62)%N then JS.units "&gt;"
  else if (u =? 34)%N then JS.units "&quot;"
  else if (u =? 39)%N then JS.units "&#x27;"
  else if (u =? 47)%N then JS.units "&#x2F;"
  else [u].

(** The code units [Utils.sanitizeInput] rewrites. *)
Definition isMarkup (u : N) : bool :=
  existsb (N.eqb u) [38; 60; 62; 34; 39; 47]%N.

(** The hash of a string without the wrap to 32 bits: the polynomial in
    31 whose coefficients are the code units. *)
Definition polynomialHash (str : list N) : Z :=
  fold_left (fun hash char => (31 * hash + Z.of_N char)%Z) str 0%Z.

(** The number a list of digits denotes, most significant first. *)
Definition digitsValue (radix : Z) (ds : list Z) : Z :=
  fold_left (fun value d => (value * radix + d)%Z) ds 0%Z.

(** Two paths of which one starts with the other: what
    [Database.invalidateCache] removes together. *)
Definition overlap (key path : list N) : bool :=
  JS.startsWith key path || JS.startsWith path key.

(** The attempts after a run of failed logins under [username], one per
    pair of times (that of the check, that of the record). *)
Definition failedLogins (attempts : Auth.Attempts) (username : list N)
           (times : list (Z * Z)) : Auth.Attempts :=
  fold_left
    (fun attempts time =>
       snd (Auth.loginWithRateLimit
              attempts (fst time) (snd time) username
              (Utils.Failure "Contraseña incorrecta" "Login" : Utils.Response unit)))
    times attempts.

(** What the strategy page relies on: a circuit of the catalog, tyre and
    fuel points of at least 1, one to five stints of at least one lap. *)
Definition plannable (strategy : Main.StrategyState.t) : Prop :=
  (exists c, JS.get Calculations.circuitsData (Main.StrategyState.circuit strategy) = Some c)
  /\ (1 <= Main.StrategyState.tyrePoints strategy)%Z
  /\ (1 <= Main.StrategyState.fuelPoints strategy)%Z
  /\ (1 <= List.length (Main.StrategyState.stints strategy) <= 5)%nat
  /\ Forall (fun stint => (1 <= Main.StintInput.laps stint)%Z)
            (Main.StrategyState.stints strategy).

(** * Properties *)

(** ** Numbers *)

Lemma leb_true_iff (x y : R) : JS.leb x y = true <-> x <= y.
Proof. unfold JS.leb. destruct (Rle_dec x y); split; intros; try easy. Qed.

Lemma leb_false_iff (x y : R) : JS.leb x y = false <-> y < x.
Proof.
  unfold JS.leb. destruct (Rle_dec x y); split; intros; try easy; lra.
Qed.

Lemma ltb_true_iff (x y : R) : JS.ltb x y = true <-> x < y.
Proof. unfold JS.ltb. destruct (Rlt_dec x y); split; intros; try easy. Qed.

Lemma ltb_false_iff (x y : R) : JS.ltb x y = false <-> y <= x.
Proof.
  unfold JS.ltb. destruct (Rlt_dec x y); split; intros; try easy; lra.
Qed.

(** Settles the comparisons of the goal whose outcome [lra] can decide. *)
Ltac js_compare :=
  repeat match goal with
         | |- context [JS.ltb ?x ?y] =>
             first [ rewrite (proj2 (ltb_true_iff x y)) by lra
                   | rewrite (proj2 (ltb_false_iff x y)) by lra ]
         | |- context [JS.leb ?x ?y] =>
             first [ rewrite (proj2 (leb_true_iff x y)) by lra
                   | rewrite (proj2 (leb_false_iff x y)) by lra ]
         end.

(** A reading of 100 percent in the threshold tests of the evaluator and of
    the comparator. *)
Lemma tyreAdjust_fresh (score : Z) : Calculations.tyreAdjust score 100 = (score - 5)%Z.
Proof. unfold Calculations.tyreAdjust. js_compare. reflexivity. Qed.

Lemma tyrePenalty_fresh : Spec.tyrePenalty 100 = 5%Z.
Proof. unfold Spec.tyrePenalty. js_compare. reflexivity. Qed.

Lemma riskAdjust_fresh (risk : Z) : Calculations.riskAdjust risk 100 = risk.
Proof. unfold Calculations.riskAdjust. js_compare. reflexivity. Qed.

Lemma floor_bounds (x : R) : IZR (JS.floor x) <= x < IZR (JS.floor x) + 1.
Proof. unfold JS.floor. destruct (base_Int_part x). lra. Qed.

Lemma floor_unique (x : R) (z : Z) : IZR z <= x < IZR z + 1 -> JS.floor x = z.
Proof.
  intros H. unfold JS.floor. symmetry. apply Int_part_spec. lra.
Qed.

Lemma floor_monotone (x y : R) : x <= y -> (JS.floor x <= JS.floor y)%Z.
Proof.
  intros Hxy.
  destruct (floor_bounds x) as [Hx _], (floor_bounds y) as [_ Hy].
  assert (H : IZR (JS.floor x) < IZR (JS.floor y + 1)).
  { rewrite plus_IZR. lra. }
  apply lt_IZR in H. lia.
Qed.

Lemma pow10_pos (d : nat) : 0 < 10 ^ d.
Proof. apply pow_lt. lra. Qed.

Lemma toFixed_nonneg_monotone (x y : R) (d : nat) :
  x <= y -> JS.toFixed_nonneg x d <= JS.toFixed_nonneg y d.
Proof.
  intros Hxy. unfold JS.toFixed_nonneg.
  pose proof (pow10_pos d) as Hd.
  apply Rmult_le_compat_r.
  - left. now apply Rinv_0_lt_compat.
  - apply IZR_le, floor_monotone. nra.
Qed.

Lemma toFixed_nonneg_sign (x : R) (d : nat) : 0 <= x -> 0 <= JS.toFixed_nonneg x d.
Proof.
  intros Hx. unfold JS.toFixed_nonneg.
  pose proof (pow10_pos d) as Hd.
  apply Rmult_le_pos.
  - apply IZR_le. rewrite <- (floor_unique 0 0) by lra.
    apply floor_monotone. nra.
  - left. now apply Rinv_0_lt_compat.
Qed.

Lemma formatNumber_monotone (x y : R) (d : nat) :
  x <= y -> Utils.formatNumber x d <= Utils.formatNumber y d.
Proof.
  intros Hxy. unfold Utils.formatNumber, JS.toFixed.
  destruct (JS.ltb x 0) eqn:Hx, (JS.ltb y 0) eqn:Hy.
  - apply Ropp_le_contravar, toFixed_nonneg_monotone. lra.
  - apply ltb_true_iff in Hx. apply ltb_false_iff in Hy.
    pose proof (toFixed_nonneg_sign (- x) d).
    pose proof (toFixed_nonneg_sign y d). lra.
  - apply ltb_false_iff in Hx. apply ltb_true_iff in Hy. lra.
  - now apply toFixed_nonneg_monotone.
Qed.

(** The value of [toFixed] when the scaled argument is known to lie in the
    rounding interval of the integer [n]. *)
Lemma formatNumber_value (x : R) (d : nat) (n : Z) :
  0 <= x -> IZR n - / 2 <= x * 10 ^ d < IZR n + / 2 ->
  Utils.formatNumber x d = IZR n / 10 ^ d.
Proof.
  intros Hx Hn. unfold Utils.formatNumber, JS.toFixed.
  assert (Hlt : JS.ltb x 0 = false) by (apply ltb_false_iff; lra).
  rewrite Hlt. unfold JS.toFixed_nonneg.
  rewrite (floor_unique _ n); [reflexivity | lra].
Qed.

Lemma formatNumber_zero (d : nat) : Utils.formatNumber 0 d = 0.
Proof.
  pose proof (pow10_pos d).
  rewrite (formatNumber_value 0 d 0); [unfold Rdiv; lra | lra | lra].
Qed.

(** ** Folds and lists *)

Lemma fold_left_invariant {A B : Type} (P : A -> Prop) (step : A -> B -> A)
      (l : list B) (init : A) :
  P init -> (forall acc x, In x l -> P acc -> P (step acc x)) -> P (fold_left step l init).
Proof.
  revert init. induction l as [| x l IH]; intros init Hinit Hstep; simpl; [exact Hinit |].
  apply IH.
  - apply Hstep; [now left | exact Hinit].
  - intros acc y Hy. apply Hstep. now right.
Qed.

Lemma fold_left_add_delta {A : Type} (delta : A -> Z) (step : Z -> A -> Z)
      (l : list A) (init : Z) :
  (forall acc x, step acc x = (acc + delta x)%Z) ->
  fold_left step l init = (init + fold_right Z.add 0%Z (map delta l))%Z.
Proof.
  intros Hstep. revert init.
  induction l as [| x l IH]; intros init; simpl; [lia |].
  rewrite IH, Hstep. lia.
Qed.

Lemma In_firstn {A : Type} (n : nat) (l : list A) (x : A) : In x (firstn n l) -> In x l.
Proof.
  revert l. induction n as [| n IH]; intros [| y l]; simpl; try tauto.
  intros [H | H]; [now left | right; now apply IH].
Qed.

(** ** The catalog and the tables *)

Lemma get_In {A : Type} (obj : list (string * A)) (key : string) (v : A) :
  JS.get obj key = Some v -> In (key, v) obj.
Proof.
  induction obj as [| [k w] rest IH]; simpl; [discriminate |].
  destruct (String.eqb k key) eqn:E.
  - apply String.eqb_eq in E. intros [= ->]. subst. now left.
  - intros H. right. now apply IH.
Qed.

Lemma catalog_wellFormed :
  Forall (fun kc => wellFormedCircuit (snd kc)) Calculations.circuitsData.
Proof.
  unfold Calculations.circuitsData, Config.getCircuitsData, wellFormedCircuit.
  repeat (constructor; [simpl; repeat split; try lra; try lia |]).
  constructor.
Qed.

Lemma catalog_circuit (circuit : string) (c : Circuit.t) :
  JS.get Calculations.circuitsData circuit = Some c -> wellFormedCircuit c.
Proof.
  intros H. apply get_In in H.
  pose proof catalog_wellFormed as F.
  rewrite Forall_forall in F. exact (F _ H).
Qed.

Lemma multiplierOf_pos (compound : string) : 0 < Calculations.multiplierOf compound.
Proof.
  unfold Calculations.multiplierOf.
  destruct (JS.get Calculations.compoundMultipliers (JS.toUpperCase compound)) eqn:E;
    [| lra].
  apply get_In in E. simpl in E.
  repeat (destruct E as [E | E]; [injection E as _ <-; lra |]).
  contradiction.
Qed.

Lemma Rpower_pos (x y : R) : 0 < Rpower x y.
Proof. unfold Rpower. apply exp_pos. Qed.

(** ** The wear formula on a well-formed circuit *)

Section WellFormedCircuit.

Variable c : Circuit.t.
Hypothesis c_wellFormed : wellFormedCircuit c.

Lemma W_M_pos (tyrePoints : R) : 0 < Calculations.W_M c tyrePoints.
Proof.
  destruct c_wellFormed as (HD & HT & _). unfold Calculations.W_M. cbv zeta.
  pose proof (Rpower_pos (Rmax 1 tyrePoints / 1.5) (-0.0778)) as Hp.
  assert (H4 : 0 < 0.00364 * Circuit.tyreWear c + 0.354) by lra.
  assert (H5 : 0 < 1.43 * Rpower (Rmax 1 tyrePoints / 1.5) (-0.0778)
                   * (0.00364 * Circuit.tyreWear c + 0.354)).
  { apply Rmult_lt_0_compat; lra. }
  assert (H7 : 0 < 1.43 * Rpower (Rmax 1 tyrePoints / 1.5) (-0.0778)
                   * (0.00364 * Circuit.tyreWear c + 0.354)
                   * (Circuit.length c * 1.384612)).
  { apply Rmult_lt_0_compat; lra. }
  lra.
Qed.

Lemma Wc_pos (compound : string) (tyrePoints : R) :
  0 < Calculations.Wc c compound tyrePoints.
Proof.
  unfold Calculations.Wc.
  apply Rmult_lt_0_compat; [apply W_M_pos | apply multiplierOf_pos].
Qed.

(** More laps never leave more tyre. *)
Lemma remainingExact_nonincreasing (compound : string) (laps1 laps2 tyrePoints : R) :
  laps1 <= laps2 ->
  Calculations.remainingExact c compound laps2 tyrePoints
  <= Calculations.remainingExact c compound laps1 tyrePoints.
Proof.
  intros Hl. unfold Calculations.remainingExact. cbv zeta.
  pose proof (Wc_pos compound tyrePoints) as Hw.
  assert (Hm : Rmax 1 laps1 <= Rmax 1 laps2).
  { apply Rle_max_compat_l. exact Hl. }
  assert (He : -1.18 * (Calculations.Wc c compound tyrePoints / 100) * Rmax 1 laps2
               <= -1.18 * (Calculations.Wc c compound tyrePoints / 100) * Rmax 1 laps1)
    by nra.
  destruct He as [He | He].
  - apply exp_increasing in He. lra.
  - rewrite He. lra.
Qed.

(** A larger compound multiplier leaves strictly less tyre. *)
Lemma remainingExact_decreasing_in_multiplier
      (compound1 compound2 : string) (laps tyrePoints : R) :
  Calculations.multiplierOf compound1 < Calculations.multiplierOf compound2 ->
  Calculations.remainingExact c compound2 laps tyrePoints
  < Calculations.remainingExact c compound1 laps tyrePoints.
Proof.
  intros Hm. unfold Calculations.remainingExact, Calculations.Wc. cbv zeta.
  pose proof (W_M_pos tyrePoints) as HW.
  assert (HN : 1 <= Rmax 1 laps) by apply Rmax_l.
  set (W := Calculations.W_M c tyrePoints) in *.
  set (N := Rmax 1 laps) in *.
  assert (He : -1.18 * (W * Calculations.multiplierOf compound2 / 100) * N
               < -1.18 * (W * Calculations.multiplierOf compound1 / 100) * N).
  { assert (W * Calculations.multiplierOf compound1
            < W * Calculations.multiplierOf compound2) by nra.
    nra. }
  apply exp_increasing in He. lra.
Qed.

End WellFormedCircuit.

(** ** Tyre wear *)

Lemma calculateTyreWear_valid (circuit compound : string) (c : Circuit.t)
      (laps tyrePoints : R) :
  JS.get Calculations.circuitsData circuit = Some c -> 0 < laps -> 0 < tyrePoints ->
  let r := Calculations.calculateTyreWear circuit compound laps tyrePoints in
  TyreWear.success r = Some true
  /\ TyreWear.error r = None
  /\ TyreWear.remaining r
     = Utils.formatNumber (Calculations.remainingExact c compound laps tyrePoints) 2
  /\ TyreWear.totalWear r
     = Some (Utils.formatNumber (Calculations.totalWearExact c compound laps tyrePoints) 2).
Proof.
  intros Hc Hl Ht. unfold Calculations.calculateTyreWear. rewrite Hc.
  assert (E1 : JS.leb laps 0 = false) by (apply leb_false_iff; lra).
  assert (E2 : JS.leb tyrePoints 0 = false) by (apply leb_false_iff; lra).
  rewrite E1, E2. simpl. repeat split.
Qed.

Lemma calculateTyreWear_invalid (circuit compound : string) (laps tyrePoints : R) :
  JS.get Calculations.circuitsData circuit = None \/ laps <= 0 \/ tyrePoints <= 0 ->
  Calculations.calculateTyreWear circuit compound laps tyrePoints
  = TyreWear.failure "Circuito no encontrado"
  \/ Calculations.calculateTyreWear circuit compound laps tyrePoints
     = TyreWear.failure "Valores inválidos".
Proof.
  intros H. unfold Calculations.calculateTyreWear.
  destruct (JS.get Calculations.circuitsData circuit) as [c |]; [| now left].
  destruct H as [H | H]; [discriminate |]. right.
  assert (E : JS.leb laps 0 || JS.leb tyrePoints 0 = true).
  { apply orb_true_iff. destruct H; [left | right]; now apply leb_true_iff. }
  now rewrite E.
Qed.

(** C5.  For a circuit of the catalog, any compound and tyre points of at
    least 1, the [remaining] value returned by [calculateTyreWear] does not
    increase when the lap count grows, over lap counts of at least 1. *)
Theorem remaining_nonincreasing_in_laps
        (circuit compound : string) (c : Circuit.t) (tyrePoints laps1 laps2 : R) :
  JS.get Calculations.circuitsData circuit = Some c ->
  1 <= tyrePoints -> 1 <= laps1 -> laps1 <= laps2 ->
  TyreWear.remaining (Calculations.calculateTyreWear circuit compound laps2 tyrePoints)
  <= TyreWear.remaining (Calculations.calculateTyreWear circuit compound laps1 tyrePoints).
Proof.
  intros Hc Ht H1 H12.
  destruct (calculateTyreWear_valid circuit compound c laps1 tyrePoints Hc)
    as (_ & _ & R1 & _); try lra.
  destruct (calculateTyreWear_valid circuit compound c laps2 tyrePoints Hc)
    as (_ & _ & R2 & _); try lra.
  rewrite R1, R2.
  apply formatNumber_monotone, remainingExact_nonincreasing; [| exact H12].
  exact (catalog_circuit circuit c Hc).
Qed.

Lemma get_MON : JS.get Calculations.circuitsData "MON" = Some Monaco.
Proof. reflexivity. Qed.

Lemma remaining_nonincreasing_in_laps_witness :
  TyreWear.remaining (Calculations.calculateTyreWear "MON" "S" 12 100)
  <= TyreWear.remaining (Calculations.calculateTyreWear "MON" "S" 6 100).
Proof.
  apply (remaining_nonincreasing_in_laps "MON" "S" _ 100 6 12 get_MON); lra.
Defined.

(** ** Bounds on [exp], [ln] and [Rpower] *)

Lemma exp_lower_pow (y : R) (n : nat) : 0 <= y -> (1 + y) ^ n <= exp (INR n * y).
Proof.
  intros Hy. induction n as [| n IH].
  - simpl. rewrite Rmult_0_l, exp_0. lra.
  - rewrite S_INR, Rmult_plus_distr_r, Rmult_1_l, exp_plus. simpl pow.
    pose proof (exp_ineq1_le y) as H1.
    pose proof (exp_pos (INR n * y)) as H2.
    assert (0 <= (1 + y) ^ n) by (apply pow_le; lra).
    rewrite (Rmult_comm (exp _)).
    apply Rmult_le_compat; lra.
Qed.

Lemma exp_monotone (x y : R) : x <= y -> exp x <= exp y.
Proof.
  intros [H | H]; [left; now apply exp_increasing | rewrite H; lra].
Qed.

(** [exp (- k) <= 1 / b] as soon as [b <= (1 + y)^n] and [n * y <= k]. *)
Lemma exp_neg_upper (k y b : R) (n : nat) :
  0 <= y -> 0 < b -> b <= (1 + y) ^ n -> INR n * y <= k -> exp (- k) <= / b.
Proof.
  intros Hy Hb Hp Hk.
  pose proof (exp_lower_pow y n Hy) as H1.
  pose proof (exp_monotone _ _ Hk) as H2.
  rewrite exp_Ropp. apply Rinv_le_contravar; lra.
Qed.

Lemma ln_upper (x b : R) : 0 < x -> x <= exp b -> ln x <= b.
Proof.
  intros Hx [H | H].
  - apply ln_increasing in H; [| exact Hx]. rewrite ln_exp in H. lra.
  - rewrite H, ln_exp. lra.
Qed.

Lemma ln_100_over_1_5 : ln (100 / 1.5) <= 5.
Proof.
  apply ln_upper; [lra |].
  pose proof (exp_lower_pow (/ 4) 20) as H.
  replace (INR 20 * / 4) with 5 in H by (simpl; lra).
  assert (100 / 1.5 <= (1 + / 4) ^ 20) by (simpl; lra).
  lra.
Qed.

(** The power term of the base wear at 100 tyre points. *)
Lemma step2_at_100_lower : 0.611 <= Rpower (100 / 1.5) (-0.0778).
Proof.
  unfold Rpower.
  pose proof ln_100_over_1_5 as Hl.
  pose proof (exp_ineq1_le (-0.0778 * ln (100 / 1.5))) as He.
  lra.
Qed.

Lemma Rmax_1_of_ge (x : R) : 1 <= x -> Rmax 1 x = x.
Proof. intros H. now apply Rmax_right. Qed.

(** ** Turkey at 100 tyre points *)

Lemma get_TUR : JS.get Calculations.circuitsData "TUR" = Some Turkey.
Proof. reflexivity. Qed.

Lemma get_Turkey_by_name :
  JS.get Calculations.circuitsData (Circuit.name Turkey) = None.
Proof. reflexivity. Qed.

Lemma W_M_Turkey_lower : 6.38 <= Calculations.W_M Turkey 100.
Proof.
  unfold Calculations.W_M, Turkey. cbv zeta. simpl Circuit.tyreWear. simpl Circuit.length.
  rewrite (Rmax_1_of_ge 100) by lra.
  pose proof step2_at_100_lower as H. lra.
Qed.

Lemma multiplierOf_table :
  Calculations.multiplierOf "H" = 0.375 /\ Calculations.multiplierOf "S" = 0.642
  /\ Calculations.multiplierOf "M" = 1.00 /\ Calculations.multiplierOf "SS" = 2.06.
Proof. repeat split; reflexivity. Qed.

(** Remaining tyre life on Turkey once [1.18 * (Wc / 100) * N] is at least
    [n * y]: below [100 / (1 + y)^n]. *)
Lemma remainingExact_Turkey_upper (compound : string) (laps y : R) (n : nat) :
  1 <= laps -> 0 <= y ->
  INR n * y <= 1.18 * (6.38 * Calculations.multiplierOf compound / 100) * laps ->
  Calculations.remainingExact Turkey compound laps 100 <= 100 / (1 + y) ^ n.
Proof.
  intros Hl Hy Hn. unfold Calculations.remainingExact, Calculations.Wc. cbv zeta.
  rewrite (Rmax_1_of_ge laps) by exact Hl.
  pose proof W_M_Turkey_lower as HW.
  pose proof (multiplierOf_pos compound) as Hm.
  set (W := Calculations.W_M Turkey 100) in *.
  set (m := Calculations.multiplierOf compound) in *.
  assert (Hk : INR n * y <= 1.18 * (W * m / 100) * laps).
  { assert (6.38 * m <= W * m) by nra.
    assert (1.18 * (6.38 * m / 100) * laps <= 1.18 * (W * m / 100) * laps) by nra.
    lra. }
  assert (Hp : 0 < (1 + y) ^ n) by (apply pow_lt; lra).
  pose proof (exp_neg_upper (1.18 * (W * m / 100) * laps) y ((1 + y) ^ n) n
                            Hy Hp ltac:(lra) Hk) as He.
  replace (-1.18 * (W * m / 100) * laps) with (- (1.18 * (W * m / 100) * laps)) by lra.
  unfold Rdiv. apply Rmult_le_compat_l; lra.
Qed.

Lemma remainingExact_pos (c : Circuit.t) (compound : string) (laps tyrePoints : R) :
  0 < Calculations.remainingExact c compound laps tyrePoints.
Proof.
  unfold Calculations.remainingExact. cbv zeta.
  pose proof (exp_pos (-1.18 * (Calculations.Wc c compound tyrePoints / 100) * Rmax 1 laps)).
  lra.
Qed.

(** A stint of 25 laps on the Medium compound leaves less than 20 percent on
    Turkey. *)
Lemma remaining_Turkey_medium_25 :
  TyreWear.remaining (Calculations.calculateTyreWear "TUR" "M" 25 100) < 20.
Proof.
  destruct (calculateTyreWear_valid "TUR" "M" Turkey 25 100 get_TUR)
    as (_ & _ & E & _); try lra.
  rewrite E.
  assert (Hr : Calculations.remainingExact Turkey "M" 25 100 <= 19.99).
  { pose proof (remainingExact_Turkey_upper "M" 25 0.235 8) as H.
    destruct multiplierOf_table as (_ & _ & Hm & _). rewrite Hm in H.
    specialize (H ltac:(lra) ltac:(lra) ltac:(simpl; lra)).
    assert (100 / (1 + 0.235) ^ 8 <= 19.99).
    { simpl pow. apply Rmult_le_reg_r with ((1 + 0.235) ^ 8); simpl pow; [lra |].
      unfold Rdiv. rewrite Rmult_assoc, Rinv_l; lra. }
    lra. }
  apply Rle_lt_trans with (Utils.formatNumber 19.99 2).
  - now apply formatNumber_monotone.
  - rewrite (formatNumber_value 19.99 2 1999); simpl; lra.
Qed.

(** At 1000 laps on Turkey the formatted total wear is 100.00 on any
    compound of the table. *)
Lemma totalWear_Turkey_1000 (compound : string) :
  0.375 <= Calculations.multiplierOf compound ->
  TyreWear.totalWear (Calculations.calculateTyreWear "TUR" compound 1000 100) = Some 100.
Proof.
  intros Hm.
  destruct (calculateTyreWear_valid "TUR" compound Turkey 1000 100 get_TUR)
    as (_ & _ & _ & E); try lra.
  rewrite E. f_equal.
  pose proof (remainingExact_pos Turkey compound 1000 100) as Hpos.
  pose proof (remainingExact_Turkey_upper compound 1000 1 28) as H.
  specialize (H ltac:(lra) ltac:(lra) ltac:(simpl; lra)).
  assert (100 / (1 + 1) ^ 28 <= 0.005).
  { apply Rmult_le_reg_r with ((1 + 1) ^ 28); simpl pow; [lra |].
    unfold Rdiv. rewrite Rmult_assoc, Rinv_l; lra. }
  unfold Calculations.totalWearExact.
  rewrite (formatNumber_value _ 2 10000); simpl; lra.
Qed.

(** ** Compound ordering *)

(** C7, as the code has it.  On a circuit of the catalog, for a lap count
    and tyre points of at least 1, the total wear before formatting is
    strictly smaller on Hard than on SuperSoft (multipliers 0.375 < 0.642 <
    1.00 < 2.06); the [totalWear] that [calculateTyreWear] returns is that
    value formatted to two decimals, and for Hard it is at most the one for
    SuperSoft. *)
Theorem hard_totalWear_below_supersoft
        (circuit : string) (c : Circuit.t) (laps tyrePoints : R) :
  JS.get Calculations.circuitsData circuit = Some c -> 1 <= laps -> 1 <= tyrePoints ->
  (Calculations.multiplierOf "H" < Calculations.multiplierOf "S"
   /\ Calculations.multiplierOf "S" < Calculations.multiplierOf "M"
   /\ Calculations.multiplierOf "M" < Calculations.multiplierOf "SS")
  /\ Calculations.totalWearExact c "H" laps tyrePoints
     < Calculations.totalWearExact c "SS" laps tyrePoints
  /\ exists wearH wearSS : R,
      TyreWear.totalWear (Calculations.calculateTyreWear circuit "H" laps tyrePoints)
      = Some wearH
      /\ TyreWear.totalWear (Calculations.calculateTyreWear circuit "SS" laps tyrePoints)
         = Some wearSS
      /\ wearH = Utils.formatNumber (Calculations.totalWearExact c "H" laps tyrePoints) 2
      /\ wearSS = Utils.formatNumber (Calculations.totalWearExact c "SS" laps tyrePoints) 2
      /\ wearH <= wearSS.
Proof.
  intros Hc Hl Ht.
  pose proof (catalog_circuit circuit c Hc) as Hwf.
  destruct multiplierOf_table as (EH & ES & EM & ESS).
  assert (Hlt : Calculations.totalWearExact c "H" laps tyrePoints
                < Calculations.totalWearExact c "SS" laps tyrePoints).
  { unfold Calculations.totalWearExact.
    pose proof (remainingExact_decreasing_in_multiplier c Hwf "H" "SS" laps tyrePoints).
    rewrite EH, ESS in *. lra. }
  split; [rewrite EH, ES, EM, ESS; lra |].
  split; [exact Hlt |].
  destruct (calculateTyreWear_valid circuit "H" c laps tyrePoints Hc)
    as (_ & _ & _ & E1); try lra.
  destruct (calculateTyreWear_valid circuit "SS" c laps tyrePoints Hc)
    as (_ & _ & _ & E2); try lra.
  eexists. eexists. repeat split; [exact E1 | exact E2 |].
  apply formatNumber_monotone. lra.
Qed.

Lemma hard_totalWear_below_supersoft_witness :
  Calculations.totalWearExact Monaco "H" 10 100
  < Calculations.totalWearExact Monaco "SS" 10 100.
Proof.
  apply (hard_totalWear_below_supersoft "MON" Monaco 10 100 get_MON); lra.
Defined.

(** C7, as stated, fails once both compounds are worn out: at 1000 laps on
    Turkey with 100 tyre points the returned total wear is 100.00 for Hard
    and for SuperSoft alike. *)
Lemma hard_supersoft_totalWear_tie :
  TyreWear.totalWear (Calculations.calculateTyreWear "TUR" "H" 1000 100) = Some 100
  /\ TyreWear.totalWear (Calculations.calculateTyreWear "TUR" "SS" 1000 100) = Some 100.
Proof.
  destruct multiplierOf_table as (EH & _ & _ & ESS).
  split; apply totalWear_Turkey_1000; [rewrite EH | rewrite ESS]; lra.
Qed.

(** ** Failed tyre calls *)

Lemma failed_call_remaining (circuit compound : string) (laps tyrePoints : R) :
  JS.get Calculations.circuitsData circuit = None \/ laps <= 0 \/ tyrePoints <= 0 ->
  TyreWear.remaining (Calculations.calculateTyreWear circuit compound laps tyrePoints) = 100.
Proof.
  intros H.
  destruct (calculateTyreWear_invalid circuit compound laps tyrePoints H) as [E | E];
    now rewrite E.
Qed.

(** C10.  When [calculateTyreWear] fails, that is when the catalog is
    [undefined] at the circuit code (the test [!c]), or the lap count or the
    tyre points are not positive, it returns an object with an [error], no
    [success] property, [baseWear = 0] and [remaining = 100]; the threshold
    tests of [evaluateStrategy] then take the [> 80] branch (5 points off,
    no degradation penalty) and those of [analyzeStrategy] add no risk. *)
Theorem failed_tyre_call_reads_as_fresh
        (circuit compound : string) (laps tyrePoints : R) :
  JS.undefinedAt Calculations.circuitsData circuit \/ laps <= 0 \/ tyrePoints <= 0 ->
  let r := Calculations.calculateTyreWear circuit compound laps tyrePoints in
  (TyreWear.error r = Some "Circuito no encontrado"
   \/ TyreWear.error r = Some "Valores inválidos")
  /\ TyreWear.success r = None
  /\ TyreWear.baseWear r = 0
  /\ TyreWear.remaining r = 100
  /\ (forall score : Z, Calculations.tyreAdjust score (TyreWear.remaining r) = (score - 5)%Z)
  /\ (forall risk : Z, Calculations.riskAdjust risk (TyreWear.remaining r) = risk).
Proof.
  intros H r.
  assert (H' : JS.get Calculations.circuitsData circuit = None
               \/ laps <= 0 \/ tyrePoints <= 0).
  { destruct H as [[H _] | H]; [now left | now right]. }
  destruct (calculateTyreWear_invalid circuit compound laps tyrePoints H') as [E | E];
    subst r; rewrite E; cbn [TyreWear.failure TyreWear.error TyreWear.success
                              TyreWear.baseWear TyreWear.remaining];
    repeat split; auto using tyreAdjust_fresh, riskAdjust_fresh.
Qed.

Lemma failed_tyre_call_reads_as_fresh_witness :
  TyreWear.remaining (Calculations.calculateTyreWear "Turkey" "M" 25 100) = 100.
Proof.
  apply (failed_tyre_call_reads_as_fresh "Turkey" "M" 25 100).
  left. split; reflexivity.
Defined.

(** ** Strategy score *)

Lemma tyreAdjust_penalty (score : Z) (remaining : R) :
  Calculations.tyreAdjust score remaining = (score - Spec.tyrePenalty remaining)%Z.
Proof.
  unfold Calculations.tyreAdjust, Spec.tyrePenalty.
  destruct (JS.ltb remaining 20); [reflexivity |].
  destruct (JS.ltb remaining 40); [reflexivity |].
  destruct (JS.ltb 80 remaining); lia.
Qed.

Lemma lengthAdjust_bonus (score laps : Z) :
  Calculations.lengthAdjust score laps = (score + Spec.lengthBonus laps)%Z.
Proof.
  unfold Calculations.lengthAdjust, Spec.lengthBonus.
  destruct ((8 <=? laps)%Z && (laps <=? 25)%Z); lia.
Qed.

(** The score computed by the code is the specified one with the tyre model
    looked up under the display name of the circuit record. *)
Lemma evaluateStrategy_by_name (strategy : Calculations.Strategy.t) (c : Circuit.t) :
  Calculations.evaluateStrategy strategy c
  = Spec.score (Calculations.Strategy.stints strategy) (Circuit.name c).
Proof.
  unfold Calculations.evaluateStrategy, Spec.score. cbv zeta.
  rewrite (fold_left_add_delta (Spec.stintDelta (Circuit.name c))).
  - f_equal. lia.
  - intros acc x. rewrite lengthAdjust_bonus, tyreAdjust_penalty.
    unfold Spec.stintDelta. cbv zeta. lia.
Qed.

(** C1, at a failing input.  For the one-stint strategy of 25 laps on
    Medium that the generator builds for Turkey, [evaluateStrategy] looks the
    circuit up under its name ["Turkey"], finds nothing and scores 100; the
    score specified for the catalog circuit ["TUR"], whose tyres are left
    under 20 percent, is 75. *)
Theorem evaluateStrategy_Turkey_medium_25 :
  let strategy := Calculations.createBalancedStrategy "TUR" 25 1 "M" 100 100 in
  map Calculations.Stint.compound (Calculations.Strategy.stints strategy) = ["M"]
  /\ map Calculations.Stint.laps (Calculations.Strategy.stints strategy) = [25%Z]
  /\ Calculations.evaluateStrategy strategy Turkey = 100%Z
  /\ Spec.score (Calculations.Strategy.stints strategy) "TUR" = 75%Z.
Proof.
  cbv zeta.
  assert (Es : Calculations.Strategy.stints
                 (Calculations.createBalancedStrategy "TUR" 25 1 "M" 100 100)
               = [Calculations.Stint.mk 1 "M" 25 "neutral"]) by reflexivity.
  rewrite evaluateStrategy_by_name, Es.
  split; [reflexivity |]. split; [reflexivity |].
  set (stint := Calculations.Stint.mk 1 "M" 25 "neutral").
  assert (D1 : Spec.stintDelta "Turkey" stint = 0%Z).
  { unfold Spec.stintDelta, stint. cbv zeta.
    simpl Calculations.Stint.compound. simpl Calculations.Stint.laps.
    rewrite (failed_call_remaining "Turkey" "M" 25 100 (or_introl eq_refl)).
    rewrite tyrePenalty_fresh. reflexivity. }
  assert (D2 : Spec.stintDelta "TUR" stint = (-25)%Z).
  { unfold Spec.stintDelta, stint. cbv zeta.
    simpl Calculations.Stint.compound. simpl Calculations.Stint.laps.
    unfold Spec.tyrePenalty.
    pose proof remaining_Turkey_medium_25 as Hr.
    apply ltb_true_iff in Hr. rewrite Hr. reflexivity. }
  unfold Spec.score. cbn [map fold_right List.length Circuit.name Turkey].
  rewrite D1, D2. split; reflexivity.
Qed.

(** ** Fuel *)

Lemma boostInfoOf_multiplier (boost : string) :
  BoostLevel.multiplier (Calculations.boostInfoOf boost) = tabulatedBoostMultiplier boost.
Proof.
  unfold Calculations.boostInfoOf, Calculations.boostLevels, Config.boostLevels,
    tabulatedBoostMultiplier, JS.get.
  repeat (match goal with
          | |- context [String.eqb ?k boost] => destruct (String.eqb k boost)
          end; [simpl; lra |]).
  simpl. lra.
Qed.



Lemma tabulatedBoostMultiplier_pos (boost : string) : 0 < tabulatedBoostMultiplier boost.
Proof.
  unfold tabulatedBoostMultiplier.
  repeat (match goal with
          | |- context [String.eqb ?k boost] => destruct (String.eqb k boost)
          end; [lra |]).
  lra.
Qed.

Lemma calculateStintFuel_valid (circuit : string) (c : Circuit.t)
      (fuelPoints laps : R) (boost : string) :
  JS.get Calculations.circuitsData circuit = Some c -> 0 < fuelPoints -> 0 < laps ->
  Calculations.calculateStintFuel circuit fuelPoints laps boost
  = Utils.Success
      (Calculations.StintFuel.mk
         (Utils.formatNumber (Calculations.stintFuelExact c fuelPoints laps boost) 2)
         (Utils.formatNumber
            (Calculations.stintFuelPerLapExact c fuelPoints
             * BoostLevel.multiplier (Calculations.boostInfoOf boost)) 3)
         (Utils.formatNumber (Calculations.stintFuelPerLapExact c fuelPoints) 3)
         (Calculations.BoostInfo.mk boost
            (BoostLevel.multiplier (Calculations.boostInfoOf boost))
            (BoostLevel.label (Calculations.boostInfoOf boost)))
         (Utils.formatNumber
            (Rabs ((1 - BoostLevel.multiplier (Calculations.boostInfoOf boost))
                   * Calculations.stintFuelPerLapExact c fuelPoints * laps)) 2)
         (Calculations.calculateBoostTimeImpact boost laps)
         laps)
      "Operación exitosa".
Proof.
  intros Hc Hf Hl. unfold Calculations.calculateStintFuel. rewrite Hc.
  assert (E1 : JS.leb fuelPoints 0 = false) by (apply leb_false_iff; lra).
  assert (E2 : JS.leb laps 0 = false) by (apply leb_false_iff; lra).
  rewrite E1, E2. reflexivity.
Qed.

Lemma calculateFuel_valid (circuit : string) (c : Circuit.t) (fuelPoints : R) :
  JS.get Calculations.circuitsData circuit = Some c -> 0 < fuelPoints ->
  Calculations.calculateFuel circuit fuelPoints
  = Utils.Success
      (Calculations.Fuel.mk
         (Utils.formatNumber (Calculations.raceFuelExact c fuelPoints) 2)
         (Utils.formatNumber (Calculations.raceFuelPerLapExact c fuelPoints) 3)
         (Utils.formatNumber (Circuit.length c * IZR (Circuit.laps c)) 2)
         (Calculations.calculateFuelEfficiency
            (Calculations.raceFuelPerLapExact c fuelPoints) (Circuit.length c))
         (Calculations.FuelCircuitInfo.mk (Circuit.name c) (Circuit.laps c)
                                          (Circuit.length c)))
      "Operación exitosa".
Proof.
  intros Hc Hf. unfold Calculations.calculateFuel. rewrite Hc.
  assert (E1 : JS.leb fuelPoints 0 = false) by (apply leb_false_iff; lra).
  rewrite E1. reflexivity.
Qed.





Lemma power_term_decreasing (a b y : R) :
  1 <= a -> a < b -> y < 0 -> Rpower b y < Rpower a y.
Proof.
  intros Ha Hab Hy. unfold Rpower. apply exp_increasing.
  assert (ln a < ln b) by (apply ln_increasing; lra).
  nra.
Qed.

Lemma stintFuelPerLapExact_decreasing (c : Circuit.t) (fp1 fp2 : R) :
  wellFormedCircuit c -> 1 <= fp1 -> fp1 < fp2 ->
  Calculations.stintFuelPerLapExact c fp2 < Calculations.stintFuelPerLapExact c fp1.
Proof.
  intros (HD & _ & _) H1 H12. unfold Calculations.stintFuelPerLapExact.
  rewrite !Rmax_1_of_ge by lra.
  pose proof (power_term_decreasing fp1 fp2 (-0.088463) H1 H12 ltac:(lra)) as Hp.
  assert (98.45644 * Rpower fp2 (-0.088463) * Circuit.length c
          < 98.45644 * Rpower fp1 (-0.088463) * Circuit.length c) by nra.
  lra.
Qed.

Lemma raceFuelPerLapExact_stint (c : Circuit.t) (fuelPoints : R) :
  wellFormedCircuit c ->
  Calculations.raceFuelPerLapExact c fuelPoints
  = Calculations.stintFuelPerLapExact c fuelPoints.
Proof.
  intros (_ & _ & HL).
  unfold Calculations.raceFuelPerLapExact, Calculations.raceFuelExact,
    Calculations.stintFuelPerLapExact. cbv zeta.
  assert (0 < IZR (Circuit.laps c)) by (apply IZR_lt; lia).
  field. lra.
Qed.

Lemma fuelPerLapExact_clamped (c : Circuit.t) (fp1 fp2 : R) :
  fp1 <= 1 -> fp2 <= 1 ->
  Calculations.stintFuelPerLapExact c fp1 = Calculations.stintFuelPerLapExact c fp2
  /\ Calculations.raceFuelPerLapExact c fp1 = Calculations.raceFuelPerLapExact c fp2.
Proof.
  intros H1 H2.
  unfold Calculations.raceFuelPerLapExact, Calculations.raceFuelExact,
    Calculations.stintFuelPerLapExact.
  rewrite (Rmax_left 1 fp1), (Rmax_left 1 fp2) by lra. split; reflexivity.
Qed.

Lemma stintFuelPerLapExact_nonincreasing (c : Circuit.t) (fp1 fp2 : R) :
  wellFormedCircuit c -> fp1 <= fp2 ->
  Calculations.stintFuelPerLapExact c fp2 <= Calculations.stintFuelPerLapExact c fp1.
Proof.
  intros Hc H12.
  destruct (Rle_lt_dec fp2 1) as [H2 | H2].
  - destruct (fuelPerLapExact_clamped c fp1 fp2) as [E _]; lra.
  - destruct (Rle_lt_dec 1 fp1) as [H1 | H1].
    + destruct H12 as [H12 | ->]; [| lra].
      left. now apply stintFuelPerLapExact_decreasing.
    + destruct (fuelPerLapExact_clamped c fp1 1) as [E _]; try lra.
      rewrite E. left. apply stintFuelPerLapExact_decreasing; [exact Hc | lra | exact H2].
Qed.

(** C8, as the code has it.  On a circuit of the catalog and for accepted
    fuel points [0 < fp1 < fp2]: the fuel per lap before formatting, in
    [calculateFuel] and in [calculateStintFuel], is strictly smaller at [fp2]
    when [1 <= fp1], and the same at both when [fp2 <= 1] (the clamp); the
    values returned ([fuelPerLap] of [calculateFuel], [baseFuelPerLap] and
    [fuelPerLap] of [calculateStintFuel], three decimals) never increase. *)
Theorem fuelPerLap_decreasing_from_one
        (circuit : string) (c : Circuit.t) (fp1 fp2 laps : R) (boost : string) :
  JS.get Calculations.circuitsData circuit = Some c ->
  0 < fp1 -> fp1 < fp2 -> 0 < laps ->
  (1 <= fp1 ->
   Calculations.raceFuelPerLapExact c fp2 < Calculations.raceFuelPerLapExact c fp1
   /\ Calculations.stintFuelPerLapExact c fp2 < Calculations.stintFuelPerLapExact c fp1)
  /\ (fp2 <= 1 ->
      Calculations.raceFuelPerLapExact c fp2 = Calculations.raceFuelPerLapExact c fp1
      /\ Calculations.stintFuelPerLapExact c fp2 = Calculations.stintFuelPerLapExact c fp1)
  /\ (exists (d1 d2 : Calculations.Fuel.t) (message : string),
         Calculations.calculateFuel circuit fp1 = Utils.Success d1 message
         /\ Calculations.calculateFuel circuit fp2 = Utils.Success d2 message
         /\ Calculations.Fuel.fuelPerLap d1
            = Utils.formatNumber (Calculations.raceFuelPerLapExact c fp1) 3
         /\ Calculations.Fuel.fuelPerLap d2
            = Utils.formatNumber (Calculations.raceFuelPerLapExact c fp2) 3
         /\ Calculations.Fuel.fuelPerLap d2 <= Calculations.Fuel.fuelPerLap d1)
  /\ (exists (s1 s2 : Calculations.StintFuel.t) (message : string),
         Calculations.calculateStintFuel circuit fp1 laps boost = Utils.Success s1 message
         /\ Calculations.calculateStintFuel circuit fp2 laps boost = Utils.Success s2 message
         /\ Calculations.StintFuel.baseFuelPerLap s1
            = Utils.formatNumber (Calculations.stintFuelPerLapExact c fp1) 3
         /\ Calculations.StintFuel.baseFuelPerLap s2
            = Utils.formatNumber (Calculations.stintFuelPerLapExact c fp2) 3
         /\ Calculations.StintFuel.baseFuelPerLap s2
            <= Calculations.StintFuel.baseFuelPerLap s1
         /\ Calculations.StintFuel.fuelPerLap s2 <= Calculations.StintFuel.fuelPerLap s1).
Proof.
  intros Hc H1 H12 Hl.
  pose proof (catalog_circuit circuit c Hc) as Hwf.
  pose proof (stintFuelPerLapExact_nonincreasing c fp1 fp2 Hwf ltac:(lra)) as Hle.
  split; [| split; [| split]].
  - intros Hge. rewrite !raceFuelPerLapExact_stint by exact Hwf.
    split; now apply stintFuelPerLapExact_decreasing.
  - intros Hle1.
    destruct (fuelPerLapExact_clamped c fp2 fp1) as [E1 E2]; [lra | lra |].
    split; assumption.
  - rewrite (calculateFuel_valid circuit c fp1 Hc), (calculateFuel_valid circuit c fp2 Hc)
      by lra.
    eexists. eexists. eexists.
    split; [reflexivity |]. split; [reflexivity |].
    cbn [Calculations.Fuel.fuelPerLap].
    split; [reflexivity |]. split; [reflexivity |].
    apply formatNumber_monotone. rewrite !raceFuelPerLapExact_stint by exact Hwf.
    exact Hle.
  - rewrite (calculateStintFuel_valid circuit c fp1 laps boost Hc),
      (calculateStintFuel_valid circuit c fp2 laps boost Hc) by lra.
    eexists. eexists. eexists.
    split; [reflexivity |]. split; [reflexivity |].
    cbn [Calculations.StintFuel.baseFuelPerLap Calculations.StintFuel.fuelPerLap].
    split; [reflexivity |]. split; [reflexivity |].
    split; apply formatNumber_monotone; [exact Hle |].
    rewrite boostInfoOf_multiplier.
    pose proof (tabulatedBoostMultiplier_pos boost). nra.
Qed.

Lemma fuelPerLap_decreasing_from_one_witness :
  Calculations.raceFuelPerLapExact Monaco 100 < Calculations.raceFuelPerLapExact Monaco 50
  /\ Calculations.stintFuelPerLapExact Monaco 100
     < Calculations.stintFuelPerLapExact Monaco 50.
Proof.
  apply (fuelPerLap_decreasing_from_one "MON" Monaco 50 100 10 "neutral" get_MON); lra.
Defined.

(** C8, as stated, fails below the clamp: 0.5 and 0.75 fuel points are both
    accepted on Monaco, and both calls return the same result, with the same
    fuel per lap. *)
Lemma fuelPerLap_constant_below_one :
  Utils.success (Calculations.calculateFuel "MON" 0.5) = true
  /\ Calculations.calculateFuel "MON" 0.75 = Calculations.calculateFuel "MON" 0.5
  /\ Calculations.raceFuelPerLapExact Monaco 0.75
     = Calculations.raceFuelPerLapExact Monaco 0.5
  /\ Utils.success (Calculations.calculateStintFuel "MON" 0.5 10 "neutral") = true
  /\ Calculations.calculateStintFuel "MON" 0.75 10 "neutral"
     = Calculations.calculateStintFuel "MON" 0.5 10 "neutral"
  /\ Calculations.stintFuelPerLapExact Monaco 0.75
     = Calculations.stintFuelPerLapExact Monaco 0.5.
Proof.
  destruct (fuelPerLapExact_clamped Monaco 0.75 0.5) as [E1 E2]; try lra.
  rewrite !(calculateFuel_valid "MON" Monaco _ get_MON) by lra.
  rewrite !(calculateStintFuel_valid "MON" Monaco _ _ _ get_MON) by lra.
  unfold Calculations.stintFuelExact, Calculations.raceFuelPerLapExact in *.
  assert (E3 : Calculations.raceFuelExact Monaco 0.75 = Calculations.raceFuelExact Monaco 0.5).
  { unfold Calculations.raceFuelExact.
    rewrite (Rmax_left 1 0.75), (Rmax_left 1 0.5) by lra. reflexivity. }
  rewrite E1, E3. repeat split; reflexivity.
Qed.

(** ** Failure reporting *)


Lemma calculateStintFuel_invalid (circuit : string) (fuelPoints laps : R) (boost : string) :
  (JS.get Calculations.circuitsData circuit = None ->
   Calculations.calculateStintFuel circuit fuelPoints laps boost
   = Utils.Failure "Circuito no encontrado" "Stint fuel calculation")
  /\ (JS.get Calculations.circuitsData circuit <> None -> fuelPoints <= 0 \/ laps <= 0 ->
      Calculations.calculateStintFuel circuit fuelPoints laps boost
      = Utils.Failure "Valores inválidos" "Stint fuel calculation").
Proof.
  unfold Calculations.calculateStintFuel.
  destruct (JS.get Calculations.circuitsData circuit) as [c |].
  - split; [discriminate |]. intros _ H.
    assert (E : JS.leb fuelPoints 0 || JS.leb laps 0 = true).
    { apply orb_true_iff. destruct H; [left | right]; now apply leb_true_iff. }
    rewrite E. reflexivity.
  - split; [reflexivity | congruence].
Qed.

Lemma get_None_or_Some {A : Type} (obj : list (string * A)) (key : string) :
  JS.get obj key = None \/ exists v, JS.get obj key = Some v.
Proof. destruct (JS.get obj key) as [v |]; [right; now exists v | now left]. Qed.

(** On a circuit code outside the catalog [analyzeStrategy] still answers:
    no fuel and no risk. *)
Lemma analyzeStrategy_unknown_circuit (strategy : Calculations.Strategy.t) (circuit : string) :
  JS.get Calculations.circuitsData circuit = None ->
  Calculations.Analysis.totalFuel (Calculations.analyzeStrategy strategy circuit) = 0
  /\ Calculations.Analysis.riskLevel (Calculations.analyzeStrategy strategy circuit) = 0%Z.
Proof.
  intros Hn. unfold Calculations.analyzeStrategy. cbv zeta.
  cbn [Calculations.Analysis.totalFuel Calculations.Analysis.riskLevel].
  set (numStints := Z.of_nat (List.length (Calculations.Strategy.stints strategy))).
  assert (Hinv : Calculations.AnalysisState.totalFuel
                   (fold_left (Calculations.analyzeStint circuit numStints)
                              (Calculations.Strategy.stints strategy)
                              (Calculations.AnalysisState.mk 0 0 0 0)) = 0
                 /\ Calculations.AnalysisState.riskLevel
                      (fold_left (Calculations.analyzeStint circuit numStints)
                                 (Calculations.Strategy.stints strategy)
                                 (Calculations.AnalysisState.mk 0 0 0 0)) = 0%Z).
  { apply (fold_left_invariant
             (fun st => Calculations.AnalysisState.totalFuel st = 0
                        /\ Calculations.AnalysisState.riskLevel st = 0%Z)).
    - split; reflexivity.
    - intros acc x _ [Hf Hr]. unfold Calculations.analyzeStint. cbv zeta.
      cbn [Calculations.AnalysisState.totalFuel Calculations.AnalysisState.riskLevel].
      rewrite failed_call_remaining by now left.
      destruct (calculateStintFuel_invalid circuit 100
                  (IZR (Calculations.Stint.laps x)) (Calculations.Stint.boost x)) as [E _].
      rewrite (E Hn), Hf, Hr, riskAdjust_fresh. split; [lra | reflexivity]. }
  destruct Hinv as [Hf Hr]. rewrite Hf, Hr, formatNumber_zero. split; reflexivity.
Qed.




(** ** Comparative analysis *)

Lemma analyzeStint_fold (circuit : string) (numStints : Z)
      (stints : list Calculations.Stint.t) (st : Calculations.AnalysisState.t) :
  stints <> [] ->
  (Calculations.AnalysisState.index st + Z.of_nat (List.length stints) = numStints)%Z ->
  let final := fold_left (Calculations.analyzeStint circuit numStints) stints st in
  Calculations.AnalysisState.totalTime final
  = (Calculations.AnalysisState.totalTime st
     + 90 * sumZ (map Calculations.Stint.laps stints)
     + 25 * (Z.of_nat (List.length stints) - 1))%Z
  /\ Calculations.AnalysisState.riskLevel final
     = (Calculations.AnalysisState.riskLevel st + sumZ (map (stintRisk circuit) stints))%Z.
Proof.
  revert st. induction stints as [| x rest IH]; intros st Hne Hidx; [congruence |].
  cbn [fold_left]. cbv zeta.
  set (st' := Calculations.analyzeStint circuit numStints st x).
  assert (Hrisk : Calculations.AnalysisState.riskLevel st'
                  = (Calculations.AnalysisState.riskLevel st + stintRisk circuit x)%Z).
  { unfold st', Calculations.analyzeStint, Calculations.riskAdjust, stintRisk. cbv zeta.
    cbn [Calculations.AnalysisState.riskLevel].
    destruct (JS.ltb _ 30); [reflexivity |].
    destruct (JS.ltb _ 50); [reflexivity | lia]. }
  assert (Hindex : Calculations.AnalysisState.index st'
                   = (Calculations.AnalysisState.index st + 1)%Z) by reflexivity.
  assert (Htime : Calculations.AnalysisState.totalTime st'
                  = (Calculations.AnalysisState.totalTime st
                     + Calculations.Stint.laps x * 90
                     + if (Calculations.AnalysisState.index st <? numStints - 1)%Z
                       then 25 else 0)%Z).
  { unfold st', Calculations.analyzeStint. cbv zeta.
    cbn [Calculations.AnalysisState.totalTime].
    destruct (Calculations.AnalysisState.index st <? numStints - 1)%Z; lia. }
  cbn [List.length map] in *. unfold sumZ in *. cbn [fold_right].
  destruct rest as [| y rest'].
  - cbn [fold_left List.length map fold_right] in *.
    rewrite Htime, Hrisk.
    assert (E : (Calculations.AnalysisState.index st <? numStints - 1)%Z = false)
      by (apply Z.ltb_ge; lia).
    rewrite E. split; lia.
  - destruct (IH st' ltac:(discriminate)) as [IHt IHr].
    { rewrite Hindex. cbn [List.length] in *. lia. }
    cbv zeta in IHt, IHr. rewrite IHt, IHr, Htime, Hrisk.
    assert (E : (Calculations.AnalysisState.index st <? numStints - 1)%Z = true).
    { apply Z.ltb_lt. cbn [List.length] in Hidx. lia. }
    rewrite E. cbn [List.length map fold_right] in *. split; lia.
Qed.

(** C9.  For a strategy with [n >= 1] stints, [analyzeStrategy] returns an
    estimated time of 90 seconds per lap of every stint plus 25 seconds per
    stop, [n - 1] pit stops, and a risk level that adds, per stint, 2 when the
    [remaining] of the tyre call at 100 tyre points is under 30 and otherwise
    1 when it is under 50. *)
Theorem analyzeStrategy_time_stops_risk
        (strategy : Calculations.Strategy.t) (circuit : string) :
  Calculations.Strategy.stints strategy <> [] ->
  let stints := Calculations.Strategy.stints strategy in
  let n := Z.of_nat (List.length stints) in
  let analysis := Calculations.analyzeStrategy strategy circuit in
  Calculations.Analysis.estimatedTime analysis
  = (90 * sumZ (map Calculations.Stint.laps stints) + 25 * (n - 1))%Z
  /\ Calculations.Analysis.pitStops analysis = (n - 1)%Z
  /\ Calculations.Analysis.riskLevel analysis
     = sumZ (map (fun stint =>
                    let remaining :=
                      TyreWear.remaining
                        (Calculations.calculateTyreWear
                           circuit (Calculations.Stint.compound stint)
                           (IZR (Calculations.Stint.laps stint)) 100) in
                    if JS.ltb remaining 30 then 2%Z
                    else if JS.ltb remaining 50 then 1%Z else 0%Z) stints).
Proof.
  intros Hne. cbv zeta.
  unfold Calculations.analyzeStrategy. cbv zeta.
  cbn [Calculations.Analysis.estimatedTime Calculations.Analysis.pitStops
       Calculations.Analysis.riskLevel].
  destruct (analyzeStint_fold circuit
              (Z.of_nat (List.length (Calculations.Strategy.stints strategy)))
              (Calculations.Strategy.stints strategy)
              (Calculations.AnalysisState.mk 0 0 0 0) Hne) as [Ht Hr].
  { reflexivity. }
  cbv zeta in Ht, Hr. rewrite Ht, Hr.
  cbn [Calculations.AnalysisState.totalTime Calculations.AnalysisState.riskLevel].
  repeat split; lia.
Qed.

Lemma analyzeStrategy_time_stops_risk_witness :
  Calculations.Analysis.estimatedTime
    (Calculations.analyzeStrategy
       (Calculations.Strategy.mk
          [Calculations.Stint.mk 1 "S" 13 "neutral"; Calculations.Stint.mk 2 "H" 14 "neutral"]
          0 "") "TUR")
  = 2455%Z.
Proof.
  apply (analyzeStrategy_time_stops_risk
           (Calculations.Strategy.mk
              [Calculations.Stint.mk 1 "S" 13 "neutral";
               Calculations.Stint.mk 2 "H" 14 "neutral"] 0 "") "TUR").
  discriminate.
Defined.

(** ** Strategy generation *)

Lemma balancedStints_length (numStints : Z) (primaryCompound : string) (count : nat)
      (i remainingLaps : Z) (stints : list Calculations.Stint.t) :
  List.length
    (Calculations.balancedStints numStints primaryCompound count i remainingLaps stints)
  = (List.length stints + count)%nat.
Proof.
  revert i remainingLaps stints.
  induction count as [| count IH]; intros i remainingLaps stints; simpl.
  - lia.
  - rewrite IH, length_app. simpl. lia.
Qed.

Lemma createBalancedStrategy_length (circuit : string) (totalLaps numStints : Z)
      (primaryCompound : string) (tyrePoints fuelPoints : R) :
  List.length
    (Calculations.Strategy.stints
       (Calculations.createBalancedStrategy circuit totalLaps numStints primaryCompound
                                            tyrePoints fuelPoints))
  = Z.to_nat numStints.
Proof.
  unfold Calculations.createBalancedStrategy. cbn [Calculations.Strategy.stints].
  rewrite balancedStints_length. reflexivity.
Qed.

Lemma fold_left_sum_laps (stints : list Calculations.Stint.t) (init : Z) :
  fold_left (fun sum stint => (sum + Calculations.Stint.laps stint)%Z) stints init
  = (init + sumZ (map Calculations.Stint.laps stints))%Z.
Proof.
  apply fold_left_add_delta. reflexivity.
Qed.

Lemma validateStrategy_true (strategy : Calculations.Strategy.t) (totalLaps : Z) :
  Calculations.validateStrategy strategy totalLaps = true <->
  sumZ (map Calculations.Stint.laps (Calculations.Strategy.stints strategy)) = totalLaps
  /\ Forall (fun stint => (0 < Calculations.Stint.laps stint)%Z)
            (Calculations.Strategy.stints strategy).
Proof.
  unfold Calculations.validateStrategy. cbv zeta.
  rewrite andb_true_iff, fold_left_sum_laps, Z.eqb_eq, forallb_forall, Forall_forall.
  rewrite Z.add_0_l.
  split; intros [H1 H2]; (split; [exact H1 |]); intros x Hx; apply Z.ltb_lt; auto.
Qed.

Lemma In_stintCounts (maxStints numStints : Z) :
  In numStints (Calculations.stintCounts maxStints) <-> (1 <= numStints <= maxStints)%Z.
Proof.
  unfold Calculations.stintCounts. rewrite in_map_iff. split.
  - intros (k & <- & Hk). apply in_seq in Hk. lia.
  - intros H. exists (Z.to_nat numStints). split; [lia |]. apply in_seq. lia.
Qed.

(** C2.  Every strategy returned by [generateStrategies] has stint lap
    counts that are all positive and sum to [totalLaps], and its stint count
    [n] lies in [1 .. maxStints] with [floor (totalLaps / n)] inside
    [minLength .. maxLength]: no stint count whose even average is out of
    range yields a strategy. *)
Theorem generateStrategies_sound
        (circuit : string) (totalLaps : Z) (tyrePoints fuelPoints : R)
        (maxStints : Z) (compounds : list string) (minLength maxLength : Z) :
  Forall
    (fun strategy =>
       let stints := Calculations.Strategy.stints strategy in
       let stintCount := Z.of_nat (List.length stints) in
       fold_right Z.add 0%Z (map Calculations.Stint.laps stints) = totalLaps
       /\ Forall (fun stint => (0 < Calculations.Stint.laps stint)%Z) stints
       /\ (1 <= stintCount <= maxStints)%Z
       /\ (minLength <= totalLaps / stintCount <= maxLength)%Z)
    (Calculations.generateStrategies circuit totalLaps tyrePoints fuelPoints
                                     maxStints compounds minLength maxLength).
Proof.
  change (Forall (generated totalLaps maxStints minLength maxLength)
                 (Calculations.generateStrategies circuit totalLaps tyrePoints fuelPoints
                                                  maxStints compounds minLength maxLength)).
  unfold Calculations.generateStrategies.
  apply fold_left_invariant; [constructor |].
  intros acc numStints Hn Hacc. cbv zeta.
  destruct ((minLength <=? totalLaps / numStints)%Z
            && (totalLaps / numStints <=? maxLength)%Z) eqn:Havg; [| exact Hacc].
  apply andb_true_iff in Havg. destruct Havg as [Hlo Hhi].
  apply Z.leb_le in Hlo, Hhi. apply In_stintCounts in Hn.
  apply fold_left_invariant; [exact Hacc |].
  intros acc' compound _ Hacc'.
  destruct (Calculations.validateStrategy _ totalLaps) eqn:Hv; [| exact Hacc'].
  apply Forall_app. split; [exact Hacc' |]. constructor; [| constructor].
  apply validateStrategy_true in Hv. destruct Hv as [Hsum Hpos].
  unfold generated. cbv zeta.
  rewrite createBalancedStrategy_length, Z2Nat.id by lia.
  repeat split; try assumption; lia.
Qed.

(** The scenario of 24 laps with at most 3 stints of 5 to 16 laps: one
    stint is skipped (24 > 16), two and three stints are kept, once per
    preferred compound, in ascending stint count and then compound order. *)
Example generateStrategies_24_laps :
  map (fun strategy =>
         map (fun stint => (Calculations.Stint.compound stint, Calculations.Stint.laps stint))
             (Calculations.Strategy.stints strategy))
      (Calculations.generateStrategies "FRA" 24 49 100 3 ["M"; "S"] 5 16)
  = [ [("S", 12%Z); ("H", 12%Z)];
      [("S", 12%Z); ("H", 12%Z)];
      [("S", 8%Z); ("M", 8%Z); ("H", 8%Z)];
      [("S", 8%Z); ("S", 8%Z); ("H", 8%Z)] ].
Proof. reflexivity. Qed.

(** ** Optimisation *)

Lemma sort_insert_perm {A : Type} (compare : A -> A -> Z) (x : A) (l : list A) :
  Permutation (JS.sort_insert compare x l) (x :: l).
Proof.
  induction l as [| y rest IH]; simpl; [reflexivity |].
  destruct (compare x y <=? 0)%Z; [reflexivity |].
  rewrite IH. apply perm_swap.
Qed.

Lemma sort_perm {A : Type} (compare : A -> A -> Z) (l : list A) :
  Permutation (JS.sort compare l) l.
Proof.
  induction l as [| x rest IH]; simpl; [reflexivity |].
  rewrite sort_insert_perm. now constructor.
Qed.

Lemma sort_insert_sorted (x : Calculations.Evaluated.t) (l : list Calculations.Evaluated.t) :
  StronglySorted scoredAtLeast l ->
  StronglySorted scoredAtLeast (JS.sort_insert Calculations.byScoreDescending x l).
Proof.
  induction 1 as [| y rest Hs IH Hy]; simpl.
  - constructor; constructor.
  - unfold Calculations.byScoreDescending at 1.
    destruct (_ <=? 0)%Z eqn:E.
    + apply Z.leb_le in E. constructor; [now constructor |].
      constructor; [unfold scoredAtLeast; lia |].
      rewrite Forall_forall in *. intros z Hz. specialize (Hy z Hz).
      unfold scoredAtLeast in *. lia.
    + apply Z.leb_gt in E. constructor; [exact IH |].
      rewrite Forall_forall in *. intros z Hz.
      apply (Permutation_in _ (sort_insert_perm _ x rest)) in Hz.
      destruct Hz as [<- | Hz]; [unfold scoredAtLeast; lia | now apply Hy].
Qed.

Lemma sort_sorted (l : list Calculations.Evaluated.t) :
  StronglySorted scoredAtLeast (JS.sort Calculations.byScoreDescending l).
Proof.
  induction l as [| x rest IH]; simpl; [constructor | now apply sort_insert_sorted].
Qed.

Lemma sorted_head_is_best (best : Calculations.Evaluated.t)
      (rest : list Calculations.Evaluated.t) :
  StronglySorted scoredAtLeast (best :: rest) ->
  forall s, In s (best :: rest) -> scoredAtLeast best s.
Proof.
  intros Hs s [<- | Hin].
  - unfold scoredAtLeast. lia.
  - apply StronglySorted_inv in Hs. destruct Hs as [_ Hall].
    rewrite Forall_forall in Hall. now apply Hall.
Qed.

(** C3.  For a circuit code at which the catalog is [undefined] (no own
    property and no inherited one) [optimizeStrategy] fails with the
    unknown-circuit error.  For a known one it succeeds: the evaluated
    candidates are sorted by descending score and cut to five; when the
    generator produced none, [recommended] is undefined and [alternatives]
    empty; otherwise [recommended] is a candidate whose score no candidate
    exceeds, and [alternatives] holds the at most four candidates that
    follow it, none scoring above it.  At a code that is not in the catalog
    but names a member of [Object.prototype] the test [!c] of the code does
    not fire; the statement leaves that case out. *)
Theorem optimizeStrategy_recommends_best
        (circuit : string) (totalLaps : Z) (tyrePoints fuelPoints : R)
        (constraints : Calculations.Constraints.t) :
  match JS.get Calculations.circuitsData circuit with
  | None =>
    JS.inherited circuit = false ->
    Calculations.optimizeStrategy circuit totalLaps tyrePoints fuelPoints constraints
    = Utils.Failure "Circuito no encontrado" "Strategy optimization"
  | Some c =>
    let strategies :=
      Calculations.generateStrategies
        circuit totalLaps tyrePoints fuelPoints
        (Calculations.withDefault (Calculations.Constraints.maxStints constraints) 3%Z)
        (Calculations.withDefault (Calculations.Constraints.preferredCompounds constraints)
                                  ["M"; "S"])
        (Calculations.withDefault (Calculations.Constraints.minStintLength constraints) 5%Z)
        (Calculations.withDefault (Calculations.Constraints.maxStintLength constraints)
                                  (JS.floor (IZR totalLaps * 0.7))) in
    let candidates :=
      map (fun strategy =>
             Calculations.Evaluated.mk
               (Calculations.Strategy.stints strategy)
               (Calculations.Strategy.totalFuel strategy)
               (Calculations.Strategy.description strategy)
               (Calculations.evaluateStrategy strategy c)) strategies in
    exists (data : Calculations.Optimization.t) (message : string)
           (ranked : list Calculations.Evaluated.t),
      Calculations.optimizeStrategy circuit totalLaps tyrePoints fuelPoints constraints
      = Utils.Success data message
      /\ Permutation ranked candidates
      /\ StronglySorted
           (fun a b =>
              (Calculations.Evaluated.score b <= Calculations.Evaluated.score a)%Z) ranked
      /\ (List.length (Calculations.Optimization.alternatives data) <= 4)%nat
      /\ match Calculations.Optimization.recommended data with
         | None =>
           strategies = [] /\ Calculations.Optimization.alternatives data = []
         | Some best =>
           strategies <> []
           /\ best :: Calculations.Optimization.alternatives data = firstn 5 ranked
           /\ In best candidates
           /\ (forall s, In s candidates ->
                         (Calculations.Evaluated.score s
                          <= Calculations.Evaluated.score best)%Z)
           /\ (forall a, In a (Calculations.Optimization.alternatives data) ->
                         In a candidates
                         /\ (Calculations.Evaluated.score a
                             <= Calculations.Evaluated.score best)%Z)
         end
  end.
Proof.
  unfold Calculations.optimizeStrategy.
  destruct (JS.get Calculations.circuitsData circuit) as [c |]; [| intros _; reflexivity].
  cbv zeta.
  set (strategies := Calculations.generateStrategies _ _ _ _ _ _ _ _).
  change (fun strategy : Calculations.Strategy.t =>
            Calculations.Evaluated.mk
              (Calculations.Strategy.stints strategy)
              (Calculations.Strategy.totalFuel strategy)
              (Calculations.Strategy.description strategy)
              (Calculations.evaluateStrategy strategy c))
    with (Calculations.evaluated c).
  set (candidates := map (Calculations.evaluated c) strategies).
  set (ranked := JS.sort Calculations.byScoreDescending candidates).
  pose proof (sort_perm Calculations.byScoreDescending candidates) as Hperm.
  pose proof (sort_sorted candidates) as Hsorted.
  fold ranked in Hperm, Hsorted.
  eexists. eexists. exists ranked.
  split; [reflexivity |]. split; [exact Hperm |]. split; [exact Hsorted |].
  cbn [Calculations.Optimization.alternatives Calculations.Optimization.recommended].
  unfold JS.slice_from, JS.slice_to.
  split.
  { rewrite length_skipn, length_firstn. lia. }
  destruct ranked as [| best rest] eqn:Er.
  - cbn. split; [| reflexivity].
    apply Permutation_nil in Hperm. unfold candidates in Hperm.
    now apply map_eq_nil in Hperm.
  - cbn [firstn skipn nth_error].
    assert (Hbest : In best candidates).
    { apply (Permutation_in _ Hperm). now left. }
    split.
    { intros E. unfold candidates in Hbest. rewrite E in Hbest. exact Hbest. }
    split; [reflexivity |]. split; [exact Hbest |].
    pose proof (sorted_head_is_best best rest Hsorted) as Hmax.
    split.
    + intros s Hs. apply Hmax. apply (Permutation_in _ (Permutation_sym Hperm) Hs).
    + intros a Ha. change (In a (firstn 4 rest)) in Ha. apply In_firstn in Ha. split.
      * apply (Permutation_in _ Hperm). now right.
      * apply Hmax. now right.
Qed.

(** The catalog has no circuit named [constructor], and yet is not
    [undefined] there: the test [!c] that guards the unknown-circuit error
    of [optimizeStrategy] and of the tyre and fuel functions is a test of
    [undefined], not of membership. *)
Example constructor_is_not_undefined :
  JS.get Calculations.circuitsData "constructor" = None
  /\ JS.inherited "constructor" = true
  /\ forall circuit : string,
      JS.undefinedAt Calculations.circuitsData circuit ->
      JS.get Calculations.circuitsData circuit = None /\ circuit <> "constructor".
Proof.
  split; [reflexivity |]. split; [reflexivity |].
  intros circuit [Hget Hinh]. split; [exact Hget |].
  intros ->. discriminate Hinh.
Qed.

(** ** The balanced split *)

(** The two nested loops of [generateStrategies] read as a comprehension:
    stint counts in ascending order, then the compounds in the order
    given. *)
Lemma generateStrategies_flat_map
      (circuit : string) (totalLaps : Z) (tyrePoints fuelPoints : R)
      (maxStints : Z) (compounds : list string) (minLength maxLength : Z) :
  Calculations.generateStrategies circuit totalLaps tyrePoints fuelPoints
                                  maxStints compounds minLength maxLength
  = flat_map
      (fun numStints =>
         if (minLength <=? totalLaps / numStints)%Z
            && (totalLaps / numStints <=? maxLength)%Z
         then
           flat_map
             (fun compound =>
                let strategy :=
                  Calculations.createBalancedStrategy circuit totalLaps numStints compound
                                                      tyrePoints fuelPoints in
                if Calculations.validateStrategy strategy totalLaps then [strategy] else [])
             compounds
         else [])
      (Calculations.stintCounts maxStints).
Proof.
  unfold Calculations.generateStrategies.
  assert (Hinner : forall numStints (l : list string) acc,
             fold_left
               (fun strategies compound =>
                  let strategy :=
                    Calculations.createBalancedStrategy circuit totalLaps numStints compound
                                                        tyrePoints fuelPoints in
                  if Calculations.validateStrategy strategy totalLaps
                  then strategies ++ [strategy] else strategies) l acc
             = acc ++ flat_map
                        (fun compound =>
                           let strategy :=
                             Calculations.createBalancedStrategy
                               circuit totalLaps numStints compound tyrePoints fuelPoints in
                           if Calculations.validateStrategy strategy totalLaps
                           then [strategy] else []) l).
  { intros numStints l. induction l as [| x l IH]; intros acc; simpl.
    - now rewrite app_nil_r.
    - rewrite IH. destruct (Calculations.validateStrategy _ totalLaps); simpl.
      + now rewrite <- app_assoc.
      + reflexivity. }
  generalize (Calculations.stintCounts maxStints) as counts.
  assert (Houter : forall (counts : list Z) acc,
             fold_left
               (fun strategies numStints =>
                  let avgStintLength := (totalLaps / numStints)%Z in
                  if (minLength <=? avgStintLength)%Z && (avgStintLength <=? maxLength)%Z
                  then
                    fold_left
                      (fun strategies0 compound =>
                         let strategy :=
                           Calculations.createBalancedStrategy
                             circuit totalLaps numStints compound tyrePoints fuelPoints in
                         if Calculations.validateStrategy strategy totalLaps
                         then strategies0 ++ [strategy] else strategies0)
                      compounds strategies
                  else strategies) counts acc
             = acc ++ flat_map
                        (fun numStints =>
                           if (minLength <=? totalLaps / numStints)%Z
                              && (totalLaps / numStints <=? maxLength)%Z
                           then
                             flat_map
                               (fun compound =>
                                  let strategy :=
                                    Calculations.createBalancedStrategy
                                      circuit totalLaps numStints compound
                                      tyrePoints fuelPoints in
                                  if Calculations.validateStrategy strategy totalLaps
                                  then [strategy] else [])
                               compounds
                           else []) counts).
  { intros counts. induction counts as [| n counts IH]; intros acc; simpl.
    - now rewrite app_nil_r.
    - rewrite IH.
      destruct ((minLength <=? totalLaps / n)%Z && (totalLaps / n <=? maxLength)%Z).
      + rewrite Hinner. now rewrite <- app_assoc.
      + reflexivity. }
  intros counts. now rewrite Houter.
Qed.

Lemma balancedStints_laps (numStints : Z) (primaryCompound : string) (count : nat)
      (i remainingLaps : Z) (stints : list Calculations.Stint.t) :
  (i + Z.of_nat count = numStints)%Z -> (1 <= Z.of_nat count <= remainingLaps)%Z ->
  let result :=
    Calculations.balancedStints numStints primaryCompound count i remainingLaps stints in
  sumZ (map Calculations.Stint.laps result)
  = (sumZ (map Calculations.Stint.laps stints) + remainingLaps)%Z
  /\ (Forall (fun stint => (0 < Calculations.Stint.laps stint)%Z) stints ->
      Forall (fun stint => (0 < Calculations.Stint.laps stint)%Z) result).
Proof.
  revert i remainingLaps stints.
  induction count as [| count IH]; intros i remainingLaps stints Hi Hc; [lia |].
  cbn [Calculations.balancedStints]. cbv zeta.
  assert (Hsum : forall st,
             sumZ (map Calculations.Stint.laps (stints ++ [st]))
             = (sumZ (map Calculations.Stint.laps stints) + Calculations.Stint.laps st)%Z).
  { intros st. rewrite map_app. unfold sumZ. rewrite fold_right_app. simpl.
    generalize (map Calculations.Stint.laps stints) as l.
    induction l as [| z l IHl]; simpl; lia. }
  destruct count as [| count'].
  - (* the last stint takes what is left *)
    assert (E : (i =? numStints - 1)%Z = true) by (apply Z.eqb_eq; lia).
    rewrite E. cbn [Calculations.balancedStints].
    split.
    + rewrite Hsum. reflexivity.
    + intros Hall. apply Forall_app. split; [exact Hall |].
      constructor; [simpl; lia | constructor].
  - assert (E : (i =? numStints - 1)%Z = false) by (apply Z.eqb_neq; lia).
    rewrite E.
    set (k := (numStints - i)%Z).
    assert (Hk : (k = Z.of_nat (S (S count')))%Z) by (unfold k; lia).
    assert (Hk2 : (2 <= k <= remainingLaps)%Z) by lia.
    pose proof (Z.div_mod remainingLaps k ltac:(lia)) as Hdm.
    pose proof (Z.mod_pos_bound remainingLaps k ltac:(lia)) as Hmb.
    assert (Hq : (1 <= remainingLaps / k)%Z).
    { apply Z.div_le_lower_bound; lia. }
    assert (Hrem : (Z.of_nat (S count') <= remainingLaps - remainingLaps / k)%Z) by nia.
    match goal with
    | |- context [Calculations.balancedStints _ _ _ ?i' ?r' ?acc'] =>
        destruct (IH i' r' acc' ltac:(lia) ltac:(lia)) as [IHs IHp]
    end.
    cbv zeta in IHs, IHp. split.
    + rewrite IHs, Hsum. simpl Calculations.Stint.laps. lia.
    + intros Hall. apply IHp. apply Forall_app. split; [exact Hall |].
      constructor; [simpl; lia | constructor].
Qed.

Lemma balanced_split_validates
      (circuit : string) (totalLaps numStints : Z) (primaryCompound : string)
      (tyrePoints fuelPoints : R) :
  (1 <= numStints <= totalLaps)%Z ->
  Calculations.validateStrategy
    (Calculations.createBalancedStrategy circuit totalLaps numStints primaryCompound
                                         tyrePoints fuelPoints) totalLaps = true.
Proof.
  intros H. apply validateStrategy_true.
  unfold Calculations.createBalancedStrategy. cbn [Calculations.Strategy.stints].
  destruct (balancedStints_laps numStints primaryCompound (Z.to_nat numStints)
                                0 totalLaps []) as [Hs Hp]; try lia.
  cbv zeta in Hs, Hp. split; [rewrite Hs; reflexivity | apply Hp; constructor].
Qed.

(** X1.  The balanced split of [totalLaps] into [numStints] stints has
    [numStints] stints, all of a positive lap count, that sum to [totalLaps],
    whenever there are at least as many laps as stints: [validateStrategy]
    accepts it. *)
Theorem createBalancedStrategy_valid
        (circuit : string) (totalLaps numStints : Z) (primaryCompound : string)
        (tyrePoints fuelPoints : R) :
  (1 <= numStints <= totalLaps)%Z ->
  let strategy :=
    Calculations.createBalancedStrategy circuit totalLaps numStints primaryCompound
                                        tyrePoints fuelPoints in
  Calculations.validateStrategy strategy totalLaps = true
  /\ Z.of_nat (List.length (Calculations.Strategy.stints strategy)) = numStints
  /\ fold_right Z.add 0%Z (map Calculations.Stint.laps (Calculations.Strategy.stints strategy))
     = totalLaps
  /\ Forall (fun stint => (0 < Calculations.Stint.laps stint)%Z)
            (Calculations.Strategy.stints strategy).
Proof.
  intros H. cbv zeta.
  pose proof (balanced_split_validates circuit totalLaps numStints primaryCompound
                                       tyrePoints fuelPoints H) as Hv.
  split; [exact Hv |]. split.
  - rewrite createBalancedStrategy_length. lia.
  - apply validateStrategy_true in Hv. exact Hv.
Qed.

Lemma createBalancedStrategy_valid_witness :
  Calculations.validateStrategy
    (Calculations.createBalancedStrategy "FRA" 24 3 "M" 49 100) 24 = true.
Proof.
  apply (createBalancedStrategy_valid "FRA" 24 3 "M" 49 100). lia.
Defined.

(** X2.  Every stint count in [1 .. maxStints] that does not exceed
    [totalLaps] and whose even average is in range yields the balanced
    strategy of each preferred compound. *)
Theorem generateStrategies_complete
        (circuit : string) (totalLaps : Z) (tyrePoints fuelPoints : R)
        (maxStints : Z) (compounds : list string) (minLength maxLength : Z)
        (numStints : Z) (compound : string) :
  (1 <= numStints <= maxStints)%Z -> (numStints <= totalLaps)%Z ->
  (minLength <= totalLaps / numStints <= maxLength)%Z ->
  In compound compounds ->
  In (Calculations.createBalancedStrategy circuit totalLaps numStints compound
                                          tyrePoints fuelPoints)
     (Calculations.generateStrategies circuit totalLaps tyrePoints fuelPoints
                                      maxStints compounds minLength maxLength).
Proof.
  intros Hn Hlaps Havg Hc.
  rewrite generateStrategies_flat_map. apply in_flat_map.
  exists numStints. split; [now apply In_stintCounts |].
  assert (E : (minLength <=? totalLaps / numStints)%Z
              && (totalLaps / numStints <=? maxLength)%Z = true).
  { apply andb_true_iff. split; apply Z.leb_le; lia. }
  rewrite E. apply in_flat_map. exists compound. split; [exact Hc |].
  cbv zeta.
  rewrite (balanced_split_validates circuit totalLaps numStints compound
                                    tyrePoints fuelPoints) by lia.
  now left.
Qed.

Lemma generateStrategies_complete_witness :
  In (Calculations.createBalancedStrategy "FRA" 24 2 "M" 49 100)
     (Calculations.generateStrategies "FRA" 24 49 100 3 ["M"; "S"] 5 16).
Proof.
  apply (generateStrategies_complete "FRA" 24 49 100 3 ["M"; "S"] 5 16 2 "M").
  - lia.
  - lia.
  - split; [apply Z.leb_le | apply Z.leb_le]; reflexivity.
  - now left.
Defined.

(** ** A run of the optimiser *)

Lemma get_FRA : JS.get Calculations.circuitsData "FRA" = Some France.
Proof. reflexivity. Qed.

(** Only ["USA"] is filed under a code equal to its display name. *)
Lemma catalog_names_unresolved :
  Forall (fun kc => fst kc = "USA"
                    \/ JS.get Calculations.circuitsData (Circuit.name (snd kc)) = None)
         Calculations.circuitsData.
Proof.
  unfold Calculations.circuitsData, Config.getCircuitsData.
  repeat (constructor; [first [right; reflexivity | left; reflexivity] |]).
  constructor.
Qed.

(** When the display name is not a catalog code every stint is scored as if
    its tyres were new. *)
Lemma evaluateStrategy_unresolved_name (strategy : Calculations.Strategy.t) (c : Circuit.t) :
  JS.get Calculations.circuitsData (Circuit.name c) = None ->
  Calculations.evaluateStrategy strategy c
  = Z.max 0
      (100 - 15 * (Z.of_nat (List.length (Calculations.Strategy.stints strategy)) - 1)
       + sumZ (map (fun stint => (Spec.lengthBonus (Calculations.Stint.laps stint) - 5)%Z)
                   (Calculations.Strategy.stints strategy)))%Z.
Proof.
  intros Hn. rewrite evaluateStrategy_by_name. unfold Spec.score, sumZ.
  do 3 f_equal. apply map_ext. intros stint. unfold Spec.stintDelta. cbv zeta.
  rewrite failed_call_remaining by now left.
  now rewrite tyrePenalty_fresh.
Qed.

(** France over 24 laps with at most 3 stints of 5 to 16 laps: the two
    two-stint candidates come first with 85 points, the two three-stint
    candidates follow with 70. *)
Example optimizeStrategy_France_24 :
  exists (data : Calculations.Optimization.t) (message : string),
    Calculations.optimizeStrategy
      "FRA" 24 49 100
      (Calculations.Constraints.mk (Some 3%Z) (Some ["M"; "S"]) (Some 5%Z) (Some 16%Z))
    = Utils.Success data message
    /\ option_map (fun e => map Calculations.Stint.laps (Calculations.Evaluated.stints e))
                  (Calculations.Optimization.recommended data) = Some [12%Z; 12%Z]
    /\ option_map Calculations.Evaluated.score (Calculations.Optimization.recommended data)
       = Some 85%Z
    /\ map Calculations.Evaluated.score (Calculations.Optimization.alternatives data)
       = [85%Z; 70%Z; 70%Z].
Proof.
  unfold Calculations.optimizeStrategy. rewrite get_FRA.
  cbn [Calculations.withDefault Calculations.Constraints.maxStints
       Calculations.Constraints.preferredCompounds Calculations.Constraints.minStintLength
       Calculations.Constraints.maxStintLength].
  set (s1 := Calculations.createBalancedStrategy "FRA" 24 2 "M" 49 100).
  set (s2 := Calculations.createBalancedStrategy "FRA" 24 2 "S" 49 100).
  set (s3 := Calculations.createBalancedStrategy "FRA" 24 3 "M" 49 100).
  set (s4 := Calculations.createBalancedStrategy "FRA" 24 3 "S" 49 100).
  assert (Hgen : Calculations.generateStrategies "FRA" 24 49 100 3 ["M"; "S"] 5 16
                 = [s1; s2; s3; s4]) by reflexivity.
  rewrite Hgen.
  assert (Hname : JS.get Calculations.circuitsData (Circuit.name France) = None)
    by reflexivity.
  assert (L1 : map Calculations.Stint.laps (Calculations.Strategy.stints s1) = [12%Z; 12%Z])
    by reflexivity.
  assert (E1 : Calculations.evaluateStrategy s1 France = 85%Z).
  { rewrite (evaluateStrategy_unresolved_name s1 France Hname). reflexivity. }
  assert (E2 : Calculations.evaluateStrategy s2 France = 85%Z).
  { rewrite (evaluateStrategy_unresolved_name s2 France Hname). reflexivity. }
  assert (E3 : Calculations.evaluateStrategy s3 France = 70%Z).
  { rewrite (evaluateStrategy_unresolved_name s3 France Hname). reflexivity. }
  assert (E4 : Calculations.evaluateStrategy s4 France = 70%Z).
  { rewrite (evaluateStrategy_unresolved_name s4 France Hname). reflexivity. }
  clearbody s1 s2 s3 s4.
  cbn [map]. unfold Calculations.evaluated. rewrite E1, E2, E3, E4.
  eexists. eexists. split; [reflexivity |].
  cbn. rewrite L1. repeat split.
Qed.

(** * Further properties *)

(** ** Formatting *)

Lemma toFixed_nonneg_scaled (n : Z) (d : nat) :
  JS.toFixed_nonneg (IZR n / 10 ^ d) d = IZR n / 10 ^ d.
Proof.
  pose proof (pow10_pos d) as Hd. unfold JS.toFixed_nonneg.
  rewrite (floor_unique _ n); [reflexivity |].
  replace (IZR n / 10 ^ d * 10 ^ d) with (IZR n) by (field; lra). lra.
Qed.

Lemma formatNumber_scaled (n : Z) (d : nat) :
  Utils.formatNumber (IZR n / 10 ^ d) d = IZR n / 10 ^ d.
Proof.
  pose proof (pow10_pos d) as Hd.
  unfold Utils.formatNumber, JS.toFixed.
  destruct (JS.ltb (IZR n / 10 ^ d) 0) eqn:E.
  - replace (- (IZR n / 10 ^ d)) with (IZR (- n) / 10 ^ d)
      by (rewrite opp_IZR; field; lra).
    rewrite toFixed_nonneg_scaled, opp_IZR. field. lra.
  - apply toFixed_nonneg_scaled.
Qed.

(** ** Tyre results *)

Lemma remainingExact_le_100 (c : Circuit.t) (compound : string) (laps tyrePoints : R) :
  wellFormedCircuit c -> Calculations.remainingExact c compound laps tyrePoints <= 100.
Proof.
  intros Hc. unfold Calculations.remainingExact. cbv zeta.
  pose proof (Wc_pos c Hc compound tyrePoints) as Hw.
  assert (HN : 1 <= Rmax 1 laps) by apply Rmax_l.
  assert (He : -1.18 * (Calculations.Wc c compound tyrePoints / 100) * Rmax 1 laps <= 0)
    by nra.
  apply exp_monotone in He. rewrite exp_0 in He. lra.
Qed.

Lemma formatNumber_100 : Utils.formatNumber 100 2 = 100.
Proof. rewrite (formatNumber_value 100 2 10000); simpl; lra. Qed.



Lemma calculateTyreWear_tiers (circuit compound : string) (c : Circuit.t)
      (laps tyrePoints : R) :
  JS.get Calculations.circuitsData circuit = Some c -> 0 < laps -> 0 < tyrePoints ->
  let r := Calculations.calculateTyreWear circuit compound laps tyrePoints in
  let x := Calculations.remainingExact c compound laps tyrePoints in
  TyreWear.performanceImpact r = Some (Calculations.calculatePerformanceImpact x)
  /\ TyreWear.recommendedPitWindow r = Some (Calculations.calculatePitWindow x (100 - x)).
Proof.
  intros Hc Hl Ht. unfold Calculations.calculateTyreWear. rewrite Hc.
  assert (E1 : JS.leb laps 0 = false) by (apply leb_false_iff; lra).
  assert (E2 : JS.leb tyrePoints 0 = false) by (apply leb_false_iff; lra).
  rewrite E1, E2. split; reflexivity.
Qed.

Lemma formatNumber_whole (n : Z) : Utils.formatNumber (IZR n) 2 = IZR n.
Proof.
  replace (IZR n) with (IZR (n * 100) / 10 ^ 2) at 1 by (rewrite mult_IZR; simpl; lra).
  rewrite formatNumber_scaled, mult_IZR. simpl. lra.
Qed.

(** X5.  In a successful [calculateTyreWear] result the performance tier
    and the pit window agree with each other and with the [remaining]
    shown: "Excelente" comes with low urgency and at least 80.00,
    "Crítica" with critical urgency and at most 20.00; low urgency means at
    least 70.00 left, critical urgency at most 20.00 and a tier of
    "Degradada" or "Crítica". *)
Theorem tyre_tiers_agree
        (circuit compound : string) (c : Circuit.t) (laps tyrePoints : R) :
  JS.get Calculations.circuitsData circuit = Some c -> 0 < laps -> 0 < tyrePoints ->
  let r := Calculations.calculateTyreWear circuit compound laps tyrePoints in
  exists (impact : PerformanceImpact.t) (window : PitWindow.t),
    TyreWear.performanceImpact r = Some impact
    /\ TyreWear.recommendedPitWindow r = Some window
    /\ (PerformanceImpact.status impact = "Excelente" ->
        PitWindow.urgency window = "low" /\ 80 <= TyreWear.remaining r)
    /\ (PerformanceImpact.status impact = "Crítica" ->
        PitWindow.urgency window = "critical" /\ TyreWear.remaining r <= 20)
    /\ (PitWindow.urgency window = "low" -> 70 <= TyreWear.remaining r)
    /\ (PitWindow.urgency window = "critical" ->
        TyreWear.remaining r <= 20
        /\ (PerformanceImpact.status impact = "Degradada"
            \/ PerformanceImpact.status impact = "Crítica")).
Proof.
  intros Hc Hl Ht. cbv zeta.
  destruct (calculateTyreWear_tiers circuit compound c laps tyrePoints Hc Hl Ht) as [Ep Ew].
  destruct (calculateTyreWear_valid circuit compound c laps tyrePoints Hc Hl Ht)
    as (_ & _ & Er & _).
  cbv zeta in Ep, Ew, Er. rewrite Ep, Ew, Er.
  set (x := Calculations.remainingExact c compound laps tyrePoints).
  eexists. eexists. split; [reflexivity |]. split; [reflexivity |].
  assert (Hup : forall n : Z, IZR n <= x -> IZR n <= Utils.formatNumber x 2).
  { intros n Hn. rewrite <- (formatNumber_whole n). now apply formatNumber_monotone. }
  assert (Hdown : forall n : Z, x <= IZR n -> Utils.formatNumber x 2 <= IZR n).
  { intros n Hn. rewrite <- (formatNumber_whole n). now apply formatNumber_monotone. }
  unfold Calculations.calculatePerformanceImpact, Calculations.calculatePitWindow.
  destruct (JS.leb 80 x) eqn:P80; [| destruct (JS.leb 60 x) eqn:P60;
    [| destruct (JS.leb 40 x) eqn:P40; [| destruct (JS.leb 20 x) eqn:P20]]];
    (destruct (JS.ltb 70 x) eqn:W70; [| destruct (JS.ltb 40 x) eqn:W40;
      [| destruct (JS.ltb 20 x) eqn:W20]]);
    cbn [PerformanceImpact.status PitWindow.urgency];
    repeat match goal with
           | H : JS.leb _ _ = true |- _ => apply leb_true_iff in H
           | H : JS.leb _ _ = false |- _ => apply leb_false_iff in H
           | H : JS.ltb _ _ = true |- _ => apply ltb_true_iff in H
           | H : JS.ltb _ _ = false |- _ => apply ltb_false_iff in H
           end;
    try lra;
    repeat split; intros; try discriminate; try reflexivity;
      try (apply (Hup 80%Z); lra); try (apply (Hup 70%Z); lra);
      try (apply (Hdown 20%Z); lra); auto.
Qed.

Lemma tyre_tiers_agree_witness :
  exists (impact : PerformanceImpact.t) (window : PitWindow.t),
    TyreWear.performanceImpact (Calculations.calculateTyreWear "TUR" "M" 25 100)
    = Some impact
    /\ TyreWear.recommendedPitWindow (Calculations.calculateTyreWear "TUR" "M" 25 100)
       = Some window.
Proof.
  destruct (tyre_tiers_agree "TUR" "M" Turkey 25 100 get_TUR) as (i & w & Hi & Hw & _);
    [lra | lra |].
  exists i, w. split; assumption.
Defined.

(** ** Boost and fuel *)

(** Splits on the key [boost]: one of the five keys of the tables, or none
    of them. *)
Ltac boost_cases boost :=
  destruct (String.eqb_spec "muy-alto" boost) as [<- | ?];
  [| destruct (String.eqb_spec "alto" boost) as [<- | ?];
     [| destruct (String.eqb_spec "neutral" boost) as [<- | ?];
        [| destruct (String.eqb_spec "bajo" boost) as [<- | ?];
           [| destruct (String.eqb_spec "muy-bajo" boost) as [<- | ?]]]]].

Lemma eqb_neq_false (k boost : string) : k <> boost -> String.eqb k boost = false.
Proof. intros H. now apply String.eqb_neq. Qed.

Lemma boost_tables_agree (boost : string) (laps : R) :
  let m := BoostLevel.multiplier (Calculations.boostInfoOf boost) in
  let direction :=
    Calculations.TimeImpact.direction (Calculations.calculateBoostTimeImpact boost laps) in
  (direction = "faster" /\ 1 < m) \/ (direction = "slower" /\ m < 1)
  \/ (direction = "neutral" /\ m = 1).
Proof.
  cbv zeta. rewrite boostInfoOf_multiplier.
  unfold tabulatedBoostMultiplier, Calculations.calculateBoostTimeImpact,
    Calculations.timeImpacts, JS.get.
  cbn [Calculations.TimeImpact.direction].
  boost_cases boost;
    repeat match goal with
           | H : ?k <> boost |- _ => rewrite (eqb_neq_false k boost H); clear H
           end;
    cbn [String.eqb Ascii.eqb Bool.eqb]; js_compare;
    first [ left; split; [reflexivity | lra]
          | right; left; split; [reflexivity | lra]
          | right; right; split; [reflexivity | lra] ].
Qed.

(** X6.  In a successful [calculateStintFuel] result, for a boost key that
    names no member of [Object.prototype], the two boost tables agree: the
    time impact is tagged "faster" exactly when the fuel multiplier is above
    1, "slower" exactly when it is below 1 and "neutral" exactly when it is
    1 (which includes every key at which the tables are [undefined]). *)
Theorem boost_direction_matches_multiplier
        (circuit : string) (c : Circuit.t) (fuelPoints laps : R) (boost : string) :
  JS.get Calculations.circuitsData circuit = Some c -> 0 < fuelPoints -> 0 < laps ->
  JS.inherited boost = false ->
  exists (data : Calculations.StintFuel.t) (message : string),
    Calculations.calculateStintFuel circuit fuelPoints laps boost
    = Utils.Success data message
    /\ let m := Calculations.BoostInfo.multiplier (Calculations.StintFuel.boostInfo data) in
       let direction :=
         Calculations.TimeImpact.direction (Calculations.StintFuel.timeImpact data) in
       (direction = "faster" <-> 1 < m)
       /\ (direction = "slower" <-> m < 1)
       /\ (direction = "neutral" <-> m = 1).
Proof.
  intros Hc Hf Hl _.
  rewrite (calculateStintFuel_valid circuit c fuelPoints laps boost Hc Hf Hl).
  eexists. eexists. split; [reflexivity |].
  cbn [Calculations.StintFuel.boostInfo Calculations.StintFuel.timeImpact
       Calculations.BoostInfo.multiplier].
  cbv zeta.
  destruct (boost_tables_agree boost laps) as [[D M] | [[D M] | [D M]]];
    cbv zeta in D, M; rewrite D;
    repeat split; intros; try discriminate; try reflexivity; try lra.
Qed.

Lemma boost_direction_matches_multiplier_witness :
  exists (data : Calculations.StintFuel.t) (message : string),
    Calculations.calculateStintFuel "MON" 100 10 "bajo" = Utils.Success data message
    /\ (Calculations.TimeImpact.direction (Calculations.StintFuel.timeImpact data)
        = "slower"
        <-> Calculations.BoostInfo.multiplier (Calculations.StintFuel.boostInfo data) < 1).
Proof.
  destruct (boost_direction_matches_multiplier "MON" Monaco 100 10 "bajo" get_MON)
    as (data & message & E & _ & H & _); [lra | lra | reflexivity |].
  exists data, message. split; [exact E | exact H].
Defined.

Lemma stintFuelPerLapExact_pos (c : Circuit.t) (fuelPoints : R) :
  wellFormedCircuit c -> 0 < Calculations.stintFuelPerLapExact c fuelPoints.
Proof.
  intros (HD & _ & _). unfold Calculations.stintFuelPerLapExact.
  pose proof (Rpower_pos (Rmax 1 fuelPoints) (-0.088463)) as Hp.
  assert (0 < 98.45644 * Rpower (Rmax 1 fuelPoints) (-0.088463) * Circuit.length c) by nra.
  lra.
Qed.

Lemma stintFuel_of_valid (circuit : string) (c : Circuit.t)
      (fuelPoints laps : R) (boost : string) :
  JS.get Calculations.circuitsData circuit = Some c -> 0 < fuelPoints -> 0 < laps ->
  match Calculations.calculateStintFuel circuit fuelPoints laps boost with
  | Utils.Success data _ => Calculations.StintFuel.stintFuel data
  | Utils.Failure _ _ => 0
  end
  = Utils.formatNumber (Calculations.stintFuelExact c fuelPoints laps boost) 2.
Proof.
  intros Hc Hf Hl.
  now rewrite (calculateStintFuel_valid circuit c fuelPoints laps boost Hc Hf Hl).
Qed.

(** X7.  On a catalog circuit with positive fuel points the [stintFuel]
    reported never decreases when laps are added, and for a given lap count
    it is ordered like the boost levels: muy-bajo <= bajo <= neutral <=
    alto <= muy-alto. *)
Theorem stintFuel_ordered_by_laps_and_boost
        (circuit : string) (c : Circuit.t) (fuelPoints laps1 laps2 : R) (boost : string) :
  JS.get Calculations.circuitsData circuit = Some c ->
  0 < fuelPoints -> 0 < laps1 -> laps1 <= laps2 ->
  reportedStintFuel circuit fuelPoints laps1 boost
  <= reportedStintFuel circuit fuelPoints laps2 boost
  /\ reportedStintFuel circuit fuelPoints laps1 "muy-bajo"
     <= reportedStintFuel circuit fuelPoints laps1 "bajo"
  /\ reportedStintFuel circuit fuelPoints laps1 "bajo"
     <= reportedStintFuel circuit fuelPoints laps1 "neutral"
  /\ reportedStintFuel circuit fuelPoints laps1 "neutral"
     <= reportedStintFuel circuit fuelPoints laps1 "alto"
  /\ reportedStintFuel circuit fuelPoints laps1 "alto"
     <= reportedStintFuel circuit fuelPoints laps1 "muy-alto".
Proof.
  intros Hc Hf Hl H12.
  pose proof (catalog_circuit circuit c Hc) as Hwf.
  pose proof (stintFuelPerLapExact_pos c fuelPoints Hwf) as Hp.
  unfold reportedStintFuel.
  rewrite !(stintFuel_of_valid circuit c) by (assumption || lra).
  unfold Calculations.stintFuelExact. rewrite !boostInfoOf_multiplier.
  pose proof (tabulatedBoostMultiplier_pos boost) as Hb.
  assert (T1 : tabulatedBoostMultiplier "muy-bajo" = 0.9799) by reflexivity.
  assert (T2 : tabulatedBoostMultiplier "bajo" = 0.988) by reflexivity.
  assert (T3 : tabulatedBoostMultiplier "neutral" = 1.0) by reflexivity.
  assert (T4 : tabulatedBoostMultiplier "alto" = 1.0161) by reflexivity.
  assert (T5 : tabulatedBoostMultiplier "muy-alto" = 1.04) by reflexivity.
  rewrite T1, T2, T3, T4, T5.
  set (f := Calculations.stintFuelPerLapExact c fuelPoints) in *.
  assert (Hfl : 0 < f * laps1) by nra.
  assert (Hfl2 : f * laps1 <= f * laps2) by nra.
  repeat split; apply formatNumber_monotone; try lra.
  apply Rmult_le_compat_r; lra.
Qed.

Lemma stintFuel_ordered_by_laps_and_boost_witness :
  reportedStintFuel "MON" 100 10 "neutral" <= reportedStintFuel "MON" 100 12 "neutral".
Proof.
  apply (stintFuel_ordered_by_laps_and_boost "MON" Monaco 100 10 12 "neutral" get_MON); lra.
Defined.



(** ** Strategy fuel *)

Lemma calculateTotalStrategyFuel_fold (circuit : string) (fuelPoints : R)
      (stints : list Calculations.Stint.t) :
  Calculations.calculateTotalStrategyFuel circuit stints fuelPoints
  = fold_left
      (fun total stint =>
         total + reportedStintFuel circuit fuelPoints
                                   (IZR (Calculations.Stint.laps stint))
                                   (Calculations.Stint.boost stint))
      stints 0.
Proof. reflexivity. Qed.

Lemma analyzeStint_totalFuel (circuit : string) (numStints : Z)
      (stints : list Calculations.Stint.t) (st : Calculations.AnalysisState.t) :
  Calculations.AnalysisState.totalFuel
    (fold_left (Calculations.analyzeStint circuit numStints) stints st)
  = fold_left
      (fun total stint =>
         total + reportedStintFuel circuit 100
                                   (IZR (Calculations.Stint.laps stint))
                                   (Calculations.Stint.boost stint))
      stints (Calculations.AnalysisState.totalFuel st).
Proof.
  revert st. induction stints as [| x rest IH]; intros st; [reflexivity |].
  cbn [fold_left]. rewrite IH. reflexivity.
Qed.

(** X9.  The [totalFuel] of [analyzeStrategy(strategy, circuit)] is
    [Utils.formatNumber(calculateTotalStrategyFuel(circuit, strategy.stints,
    100), 2)]: the loop of the analysis adds the same stint fuels at 100
    fuel points, in the same order and from the same 0, as
    [calculateTotalStrategyFuel], and formats the sum, which the latter
    returns as it is.  For a strategy built with 100 fuel points it is the
    [totalFuel] stored in the strategy, formatted to two decimals. *)
Theorem analyzeStrategy_totalFuel_is_strategy_fuel
        (strategy : Calculations.Strategy.t) (circuit : string) :
  Calculations.Analysis.totalFuel (Calculations.analyzeStrategy strategy circuit)
  = Utils.formatNumber
      (Calculations.calculateTotalStrategyFuel
         circuit (Calculations.Strategy.stints strategy) 100) 2
  /\ forall (totalLaps numStints : Z) (compound : string) (tyrePoints : R),
      let built :=
        Calculations.createBalancedStrategy circuit totalLaps numStints compound
                                            tyrePoints 100 in
      Calculations.Analysis.totalFuel (Calculations.analyzeStrategy built circuit)
      = Utils.formatNumber (Calculations.Strategy.totalFuel built) 2.
Proof.
  assert (H : forall s : Calculations.Strategy.t,
             Calculations.Analysis.totalFuel (Calculations.analyzeStrategy s circuit)
             = Utils.formatNumber
                 (Calculations.calculateTotalStrategyFuel
                    circuit (Calculations.Strategy.stints s) 100) 2).
  { intros s. unfold Calculations.analyzeStrategy. cbv zeta.
    cbn [Calculations.Analysis.totalFuel].
    rewrite analyzeStint_totalFuel, calculateTotalStrategyFuel_fold.
    reflexivity. }
  split; [apply H |].
  intros totalLaps numStints compound tyrePoints built. rewrite H. reflexivity.
Qed.

(** ** Score range *)

Lemma stintDelta_le_5 (circuit : string) (stint : Calculations.Stint.t) :
  (Spec.stintDelta circuit stint <= 5)%Z.
Proof.
  unfold Spec.stintDelta, Spec.lengthBonus, Spec.tyrePenalty. cbv zeta.
  destruct ((8 <=? Calculations.Stint.laps stint)%Z
            && (Calculations.Stint.laps stint <=? 25)%Z);
    destruct (JS.ltb _ 20); [| destruct (JS.ltb _ 40); [| destruct (JS.ltb 80 _)] |
                             | destruct (JS.ltb _ 40); [| destruct (JS.ltb 80 _)]]; lia.
Qed.

Lemma sum_stintDelta_le (circuit : string) (stints : list Calculations.Stint.t) :
  (fold_right Z.add 0 (map (Spec.stintDelta circuit) stints)
   <= 5 * Z.of_nat (List.length stints))%Z.
Proof.
  induction stints as [| x rest IH]; [simpl; lia |].
  cbn [map fold_right List.length].
  pose proof (stintDelta_le_5 circuit x). lia.
Qed.

(** X10.  [evaluateStrategy] returns a score between 0 and [115 - 10 * n]
    for a strategy of [n] stints, whatever the circuit record: at most 105
    with one stint, 10 less for every further stint; a strategy without
    stints scores 115. *)
Theorem evaluateStrategy_score_range
        (strategy : Calculations.Strategy.t) (circuitInfo : Circuit.t) :
  let n := Z.of_nat (List.length (Calculations.Strategy.stints strategy)) in
  (0 <= Calculations.evaluateStrategy strategy circuitInfo <= Z.max 0 (115 - 10 * n))%Z
  /\ (Calculations.Strategy.stints strategy = [] ->
      Calculations.evaluateStrategy strategy circuitInfo = 115%Z).
Proof.
  cbv zeta. rewrite evaluateStrategy_by_name. unfold Spec.score.
  pose proof (sum_stintDelta_le (Circuit.name circuitInfo)
                                (Calculations.Strategy.stints strategy)) as Hs.
  split; [lia |].
  intros E. rewrite E. reflexivity.
Qed.

(** ** Shape of the balanced split *)

Lemma balancedStints_shape (totalLaps numStints : Z) (primaryCompound : string)
      (count : nat) (i remainingLaps : Z) (stints : list Calculations.Stint.t) :
  let q := (totalLaps / numStints)%Z in
  (0 <= i)%Z -> (i + Z.of_nat count = numStints)%Z ->
  (q * Z.of_nat count <= remainingLaps <= (q + 1) * Z.of_nat count)%Z ->
  Forall (balancedStint totalLaps numStints primaryCompound) stints ->
  let result :=
    Calculations.balancedStints numStints primaryCompound count i remainingLaps stints in
  Forall (balancedStint totalLaps numStints primaryCompound) result
  /\ map Calculations.Stint.stint result
     = map Calculations.Stint.stint stints
       ++ map Z.of_nat (seq (Z.to_nat i + 1) count).
Proof.
  cbv zeta. revert i remainingLaps stints.
  induction count as [| count IH]; intros i remainingLaps stints Hi Hn Hrem Hall.
  - cbn [Calculations.balancedStints seq map]. now rewrite app_nil_r.
  - cbn [Calculations.balancedStints]. cbv zeta.
    set (q := (totalLaps / numStints)%Z) in *.
    set (stintLaps := if (i =? numStints - 1)%Z then remainingLaps
                      else (remainingLaps / (numStints - i))%Z).
    assert (Hlaps : (stintLaps = q \/ stintLaps = q + 1)%Z
                    /\ (q * Z.of_nat count <= remainingLaps - stintLaps
                        <= (q + 1) * Z.of_nat count)%Z).
    { unfold stintLaps. destruct (i =? numStints - 1)%Z eqn:E.
      - apply Z.eqb_eq in E. assert (count = 0%nat) by lia. subst count.
        simpl Z.of_nat in *. lia.
      - apply Z.eqb_neq in E.
        set (k := (numStints - i)%Z).
        assert (Hk : k = Z.of_nat (S count)) by (unfold k; lia).
        rewrite <- Hk in Hrem.
        assert (Hk2 : (2 <= k)%Z) by lia.
        pose proof (Z.div_mod remainingLaps k ltac:(lia)) as Hdm.
        pose proof (Z.mod_pos_bound remainingLaps k ltac:(lia)) as Hmb.
        assert (Hc : Z.of_nat count = (k - 1)%Z) by lia. rewrite Hc.
        assert (Hq : (q <= remainingLaps / k <= q + 1)%Z).
        { split; [apply Z.div_le_lower_bound; lia |].
          apply Z.lt_succ_r. apply Z.div_lt_upper_bound; nia. }
        split; [lia |]. nia. }
    destruct Hlaps as [Hl Hr].
    set (compound := if (1 <? numStints)%Z
                     then if (i =? 0)%Z then "S"
                          else if (i =? numStints - 1)%Z then "H" else primaryCompound
                     else primaryCompound).
    destruct (IH (i + 1)%Z (remainingLaps - stintLaps)%Z
                 (stints ++ [Calculations.Stint.mk (i + 1) compound stintLaps "neutral"]))
      as [IH1 IH2]; try lia.
    { apply Forall_app. split; [exact Hall |]. constructor; [| constructor].
      unfold balancedStint. cbv zeta.
      cbn [Calculations.Stint.stint Calculations.Stint.laps Calculations.Stint.boost
           Calculations.Stint.compound].
      split; [exact Hl |]. split; [reflexivity |].
      unfold compound.
      destruct (1 <? numStints)%Z; [| reflexivity].
      replace (i + 1 =? 1)%Z with (i =? 0)%Z
        by (destruct (Z.eqb_spec i 0), (Z.eqb_spec (i + 1) 1); lia).
      replace (i + 1 =? numStints)%Z with (i =? numStints - 1)%Z
        by (destruct (Z.eqb_spec i (numStints - 1)), (Z.eqb_spec (i + 1) numStints); lia).
      reflexivity. }
    split; [exact IH1 |].
    rewrite IH2, map_app, <- app_assoc. f_equal.
    cbn [map Calculations.Stint.stint seq app]. f_equal; [lia |].
    replace (Z.to_nat (i + 1) + 1)%nat with (S (Z.to_nat i + 1)) by lia.
    reflexivity.
Qed.

(** X11.  For [numStints >= 1], [createBalancedStrategy] numbers its stints
    1 to [numStints], gives every stint neutral boost and a lap count equal
    to [floor (totalLaps / numStints)] or one more, and chooses the
    compounds by position: the primary compound for a single stint,
    otherwise Soft first, Hard last and the primary compound in between. *)
Theorem createBalancedStrategy_shape
        (circuit : string) (totalLaps numStints : Z) (primaryCompound : string)
        (tyrePoints fuelPoints : R) :
  (1 <= numStints)%Z ->
  let stints :=
    Calculations.Strategy.stints
      (Calculations.createBalancedStrategy circuit totalLaps numStints primaryCompound
                                           tyrePoints fuelPoints) in
  map Calculations.Stint.stint stints = map Z.of_nat (seq 1 (Z.to_nat numStints))
  /\ Forall
       (fun stint =>
          (Calculations.Stint.laps stint = totalLaps / numStints
           \/ Calculations.Stint.laps stint = totalLaps / numStints + 1)%Z
          /\ Calculations.Stint.boost stint = "neutral"
          /\ Calculations.Stint.compound stint
             = (if (1 <? numStints)%Z then
                  if (Calculations.Stint.stint stint =? 1)%Z then "S"
                  else if (Calculations.Stint.stint stint =? numStints)%Z then "H"
                  else primaryCompound
                else primaryCompound))
       stints.
Proof.
  intros Hn. cbv zeta.
  unfold Calculations.createBalancedStrategy. cbn [Calculations.Strategy.stints].
  pose proof (Z.div_mod totalLaps numStints ltac:(lia)) as Hdm.
  pose proof (Z.mod_pos_bound totalLaps numStints ltac:(lia)) as Hmb.
  destruct (balancedStints_shape totalLaps numStints primaryCompound
                                 (Z.to_nat numStints) 0 totalLaps []) as [H1 H2].
  - lia.
  - lia.
  - rewrite Z2Nat.id by lia. nia.
  - constructor.
  - cbv zeta in H1, H2. split; [exact H2 | exact H1].
Qed.

Lemma createBalancedStrategy_shape_witness :
  map Calculations.Stint.stint
      (Calculations.Strategy.stints
         (Calculations.createBalancedStrategy "FRA" 25 3 "M" 49 100))
  = [1%Z; 2%Z; 3%Z].
Proof.
  apply (createBalancedStrategy_shape "FRA" 25 3 "M" 49 100). lia.
Defined.

(** ** What the optimiser depends on *)

Lemma generateStrategies_generated
      (circuit : string) (totalLaps : Z) (tyrePoints fuelPoints : R)
      (maxStints : Z) (compounds : list string) (minLength maxLength : Z) :
  Forall (generated totalLaps maxStints minLength maxLength)
         (Calculations.generateStrategies circuit totalLaps tyrePoints fuelPoints
                                          maxStints compounds minLength maxLength).
Proof.
  rewrite generateStrategies_flat_map. apply Forall_forall. intros s Hs.
  apply in_flat_map in Hs. destruct Hs as (numStints & Hn & Hs).
  destruct ((minLength <=? totalLaps / numStints)%Z
            && (totalLaps / numStints <=? maxLength)%Z) eqn:Havg; [| destruct Hs].
  apply andb_true_iff in Havg. destruct Havg as [Hlo Hhi].
  apply Z.leb_le in Hlo, Hhi. apply In_stintCounts in Hn.
  apply in_flat_map in Hs. destruct Hs as (compound & _ & Hs). cbv zeta in Hs.
  destruct (Calculations.validateStrategy _ totalLaps) eqn:Hv; [| destruct Hs].
  destruct Hs as [<- | []].
  apply validateStrategy_true in Hv. destruct Hv as [Hsum Hpos].
  unfold generated. cbv zeta.
  rewrite createBalancedStrategy_length, Z2Nat.id by lia.
  repeat split; try assumption; lia.
Qed.

Lemma generateStrategies_contains
      (circuit : string) (totalLaps : Z) (tyrePoints fuelPoints : R)
      (maxStints : Z) (compounds : list string) (minLength maxLength : Z)
      (numStints : Z) (compound : string) :
  (1 <= numStints <= maxStints)%Z -> (numStints <= totalLaps)%Z ->
  (minLength <= totalLaps / numStints <= maxLength)%Z ->
  In compound compounds ->
  In (Calculations.createBalancedStrategy circuit totalLaps numStints compound
                                          tyrePoints fuelPoints)
     (Calculations.generateStrategies circuit totalLaps tyrePoints fuelPoints
                                      maxStints compounds minLength maxLength).
Proof.
  intros Hn Hlaps Havg Hc.
  rewrite generateStrategies_flat_map. apply in_flat_map.
  exists numStints. split; [now apply In_stintCounts |].
  assert (E : (minLength <=? totalLaps / numStints)%Z
              && (totalLaps / numStints <=? maxLength)%Z = true).
  { apply andb_true_iff. split; apply Z.leb_le; lia. }
  rewrite E. apply in_flat_map. exists compound. split; [exact Hc |].
  cbv zeta.
  rewrite (balanced_split_validates circuit totalLaps numStints compound
                                    tyrePoints fuelPoints) by lia.
  now left.
Qed.

(** With stints of 5 laps or more and of at most 70 percent of the race, a
    candidate exists exactly from 10 laps on. *)
Lemma default_generation_empty_iff
      (circuit : string) (totalLaps : Z) (tyrePoints fuelPoints : R)
      (compounds : list string) :
  compounds <> [] ->
  Calculations.generateStrategies circuit totalLaps tyrePoints fuelPoints
                                  3 compounds 5 (JS.floor (IZR totalLaps * 0.7)) = []
  <-> (totalLaps < 10)%Z.
Proof.
  intros Hc.
  destruct (floor_bounds (IZR totalLaps * 0.7)) as [Flo Fhi].
  set (M := JS.floor (IZR totalLaps * 0.7)) in *.
  split.
  - intros Hnil.
    destruct (Z_lt_le_dec totalLaps 10) as [Hlt | Hge]; [exact Hlt | exfalso].
    destruct compounds as [| compound rest]; [congruence |].
    assert (Hin : In (Calculations.createBalancedStrategy circuit totalLaps 2 compound
                                                          tyrePoints fuelPoints)
                     (Calculations.generateStrategies
                        circuit totalLaps tyrePoints fuelPoints 3 (compound :: rest) 5 M)).
    { apply generateStrategies_contains; try lia; [| now left].
      split; [apply Z.div_le_lower_bound; lia |].
      assert (H2 : (2 * (totalLaps / 2) <= totalLaps)%Z)
        by (apply Z.mul_div_le; lia).
      apply IZR_le in H2. rewrite mult_IZR in H2.
      assert (H10 : 10 <= IZR totalLaps) by (apply IZR_le in Hge; exact Hge).
      assert (H : IZR (totalLaps / 2) < IZR (M + 1)) by (rewrite plus_IZR; lra).
      apply lt_IZR in H. lia. }
    rewrite Hnil in Hin. destruct Hin.
  - intros Hlt.
    pose proof (generateStrategies_generated circuit totalLaps tyrePoints fuelPoints
                                             3 compounds 5 M) as Hall.
    destruct (Calculations.generateStrategies circuit totalLaps tyrePoints fuelPoints
                                              3 compounds 5 M) as [| s rest];
      [reflexivity | exfalso].
    apply Forall_inv in Hall. unfold generated in Hall. cbv zeta in Hall.
    destruct Hall as (_ & _ & Hn & Hlo & Hhi).
    set (n := Z.of_nat (List.length (Calculations.Strategy.stints s))) in *.
    assert (Hcases : n = 1%Z \/ n = 2%Z \/ n = 3%Z) by lia.
    destruct Hcases as [E | [E | E]]; rewrite E in *.
    + rewrite Z.div_1_r in *.
      assert (H1 : IZR totalLaps <= IZR M) by now apply IZR_le.
      assert (H5 : 5 <= IZR totalLaps) by (apply IZR_le in Hlo; exact Hlo).
      lra.
    + assert (totalLaps / 2 < 5)%Z by (apply Z.div_lt_upper_bound; lia). lia.
    + assert (totalLaps / 3 < 5)%Z by (apply Z.div_lt_upper_bound; lia). lia.
Qed.

Lemma sort_nil_iff {A : Type} (compare : A -> A -> Z) (l : list A) :
  JS.sort compare l = [] <-> l = [].
Proof.
  split; [| intros ->; reflexivity].
  intros H. pose proof (sort_perm compare l) as P. rewrite H in P.
  now apply Permutation_nil in P.
Qed.

(** X12.  With no constraints given, [optimizeStrategy] on a known circuit
    succeeds, and it leaves [recommended] undefined exactly when
    [totalLaps] is below 10: the defaults (stints of at least 5 laps and of
    at most 70 percent of the race, up to 3 stints) rule out a single stint
    always and two stints under 10 laps. *)
Theorem optimizeStrategy_default_needs_ten_laps
        (circuit : string) (c : Circuit.t) (totalLaps : Z) (tyrePoints fuelPoints : R) :
  JS.get Calculations.circuitsData circuit = Some c ->
  exists (data : Calculations.Optimization.t) (message : string),
    Calculations.optimizeStrategy circuit totalLaps tyrePoints fuelPoints
                                  Calculations.Constraints.empty
    = Utils.Success data message
    /\ (Calculations.Optimization.recommended data = None <-> (totalLaps < 10)%Z)
    /\ ((totalLaps < 10)%Z -> Calculations.Optimization.alternatives data = []).
Proof.
  intros Hc. unfold Calculations.optimizeStrategy. rewrite Hc.
  cbn [Calculations.Constraints.empty Calculations.Constraints.maxStints
       Calculations.Constraints.preferredCompounds
       Calculations.Constraints.minStintLength Calculations.Constraints.maxStintLength
       Calculations.withDefault].
  eexists. eexists. split; [reflexivity |].
  cbn [Calculations.Optimization.recommended Calculations.Optimization.alternatives].
  pose proof (default_generation_empty_iff circuit totalLaps tyrePoints fuelPoints
                                           ["M"; "S"] ltac:(discriminate)) as Hgen.
  set (strategies := Calculations.generateStrategies _ _ _ _ _ _ _ _) in *.
  set (ranked := JS.sort Calculations.byScoreDescending
                         (map (Calculations.evaluated c) strategies)).
  assert (Hr : ranked = [] <-> strategies = []).
  { unfold ranked. rewrite sort_nil_iff. split.
    - apply map_eq_nil.
    - intros ->. reflexivity. }
  unfold JS.slice_to, JS.slice_from.
  split.
  - rewrite <- Hgen, <- Hr. destruct ranked; cbn; split; congruence.
  - intros Hlt. apply Hgen in Hlt. apply Hr in Hlt. rewrite Hlt. reflexivity.
Qed.

Lemma optimizeStrategy_default_needs_ten_laps_witness :
  exists (data : Calculations.Optimization.t) (message : string),
    Calculations.optimizeStrategy "MON" 9 100 100 Calculations.Constraints.empty
    = Utils.Success data message
    /\ (Calculations.Optimization.recommended data = None <-> (9 < 10)%Z).
Proof.
  destruct (optimizeStrategy_default_needs_ten_laps "MON" Monaco 9 100 100 get_MON)
    as (data & message & E & H & _).
  exists data, message. split; [exact E | exact H].
Defined.

Lemma balancedStints_stints_only (circuit : string) (totalLaps numStints : Z)
      (compound : string) (tp1 fp1 tp2 fp2 : R) :
  Calculations.Strategy.stints
    (Calculations.createBalancedStrategy circuit totalLaps numStints compound tp1 fp1)
  = Calculations.Strategy.stints
      (Calculations.createBalancedStrategy circuit totalLaps numStints compound tp2 fp2).
Proof. reflexivity. Qed.

Lemma sort_insert_map {A B : Type} (f : A -> B) (cmpA : A -> A -> Z) (cmpB : B -> B -> Z)
      (x : A) (l : list A) :
  (forall a b, cmpB (f a) (f b) = cmpA a b) ->
  JS.sort_insert cmpB (f x) (map f l) = map f (JS.sort_insert cmpA x l).
Proof.
  intros H. induction l as [| y rest IH]; [reflexivity |].
  cbn [map JS.sort_insert]. rewrite H.
  destruct (cmpA x y <=? 0)%Z; [reflexivity |].
  cbn [map]. now rewrite IH.
Qed.

Lemma sort_map {A B : Type} (f : A -> B) (cmpA : A -> A -> Z) (cmpB : B -> B -> Z)
      (l : list A) :
  (forall a b, cmpB (f a) (f b) = cmpA a b) ->
  JS.sort cmpB (map f l) = map f (JS.sort cmpA l).
Proof.
  intros H. induction l as [| x rest IH]; [reflexivity |].
  cbn [map JS.sort]. rewrite IH. now apply sort_insert_map.
Qed.

(** The candidates reduced to stints and score, ranked on the score. *)
Lemma ranking_of_optimizeStrategy
      (circuit : string) (c : Circuit.t) (totalLaps : Z) (tyrePoints fuelPoints : R)
      (constraints : Calculations.Constraints.t) :
  JS.get Calculations.circuitsData circuit = Some c ->
  ranking (Calculations.optimizeStrategy circuit totalLaps tyrePoints fuelPoints constraints)
  = Some (firstn 5
            (JS.sort (fun a b => (snd b - snd a)%Z)
               (map (fun strategy =>
                       (Calculations.Strategy.stints strategy,
                        Spec.score (Calculations.Strategy.stints strategy) (Circuit.name c)))
                    (Calculations.generateStrategies
                       circuit totalLaps tyrePoints fuelPoints
                       (Calculations.withDefault
                          (Calculations.Constraints.maxStints constraints) 3%Z)
                       (Calculations.withDefault
                          (Calculations.Constraints.preferredCompounds constraints)
                          ["M"; "S"])
                       (Calculations.withDefault
                          (Calculations.Constraints.minStintLength constraints) 5%Z)
                       (Calculations.withDefault
                          (Calculations.Constraints.maxStintLength constraints)
                          (JS.floor (IZR totalLaps * 0.7))))))).
Proof.
  intros Hc. unfold Calculations.optimizeStrategy. rewrite Hc. cbv zeta.
  set (strategies := Calculations.generateStrategies _ _ _ _ _ _ _ _).
  unfold ranking, Utils.handleSuccess.
  cbn [Calculations.Optimization.recommended Calculations.Optimization.alternatives].
  unfold JS.slice_to, JS.slice_from.
  set (ranked := JS.sort Calculations.byScoreDescending
                         (map (Calculations.evaluated c) strategies)).
  assert (E : match nth_error (firstn 5 ranked) 0 with
              | Some best => [best]
              | None => []
              end ++ skipn 1 (firstn 5 ranked) = firstn 5 ranked).
  { destruct ranked; reflexivity. }
  rewrite E, <- firstn_map. do 2 f_equal. unfold ranked.
  rewrite <- (sort_map
                (fun e => (Calculations.Evaluated.stints e, Calculations.Evaluated.score e))
                Calculations.byScoreDescending
                (fun a b => (snd b - snd a)%Z)) by reflexivity.
  rewrite map_map. f_equal. apply map_ext. intros s.
  unfold Calculations.evaluated.
  cbn [Calculations.Evaluated.stints Calculations.Evaluated.score].
  now rewrite evaluateStrategy_by_name.
Qed.

Lemma map_of_flat_map {A B C : Type} (g : B -> C) (f : A -> list B) (l : list A) :
  map g (flat_map f l) = flat_map (fun x => map g (f x)) l.
Proof.
  induction l as [| x rest IH]; [reflexivity |].
  cbn [flat_map]. now rewrite map_app, IH.
Qed.

Lemma generateStrategies_stints_only
      (circuit : string) (totalLaps : Z) (tp1 fp1 tp2 fp2 : R)
      (maxStints : Z) (compounds : list string) (minLength maxLength : Z) :
  map Calculations.Strategy.stints
      (Calculations.generateStrategies circuit totalLaps tp1 fp1
                                       maxStints compounds minLength maxLength)
  = map Calculations.Strategy.stints
        (Calculations.generateStrategies circuit totalLaps tp2 fp2
                                         maxStints compounds minLength maxLength).
Proof.
  rewrite !generateStrategies_flat_map, !map_of_flat_map.
  apply flat_map_ext. intros n.
  destruct ((minLength <=? totalLaps / n)%Z && (totalLaps / n <=? maxLength)%Z);
    [| reflexivity].
  rewrite !map_of_flat_map. apply flat_map_ext. intros compound. cbv zeta.
  change (Calculations.validateStrategy
            (Calculations.createBalancedStrategy circuit totalLaps n compound tp2 fp2)
            totalLaps)
    with (Calculations.validateStrategy
            (Calculations.createBalancedStrategy circuit totalLaps n compound tp1 fp1)
            totalLaps).
  destruct (Calculations.validateStrategy _ totalLaps); reflexivity.
Qed.

(** X13.  The ranking [optimizeStrategy] returns — the stints and the score
    of [recommended] and of each alternative, in order — depends on the
    circuit, [totalLaps] and the constraints only: [tyrePoints] is never
    read, and [fuelPoints] only feeds the [totalFuel] stored with each
    candidate. *)
Theorem optimizeStrategy_ranking_ignores_points
        (circuit : string) (totalLaps : Z) (tp1 fp1 tp2 fp2 : R)
        (constraints : Calculations.Constraints.t) :
  ranking (Calculations.optimizeStrategy circuit totalLaps tp1 fp1 constraints)
  = ranking (Calculations.optimizeStrategy circuit totalLaps tp2 fp2 constraints)
  /\ Calculations.optimizeStrategy circuit totalLaps tp1 fp1 constraints
     = Calculations.optimizeStrategy circuit totalLaps tp2 fp1 constraints.
Proof.
  split; [| reflexivity].
  destruct (get_None_or_Some Calculations.circuitsData circuit) as [Hn | [c Hc]].
  - unfold Calculations.optimizeStrategy. rewrite Hn. reflexivity.
  - rewrite !(ranking_of_optimizeStrategy circuit c) by exact Hc.
    do 3 f_equal.
    rewrite <- !(map_map Calculations.Strategy.stints
                         (fun stints => (stints, Spec.score stints (Circuit.name c)))).
    f_equal. apply generateStrategies_stints_only.
Qed.

(** ** Comparison of strategies *)

Lemma stintRisk_range (circuit : string) (stint : Calculations.Stint.t) :
  (0 <= stintRisk circuit stint <= 2)%Z.
Proof.
  unfold stintRisk. cbv zeta.
  destruct (JS.ltb _ 30); [lia |]. destruct (JS.ltb _ 50); lia.
Qed.

Lemma analyzeStint_risk_range (circuit : string) (numStints : Z)
      (stints : list Calculations.Stint.t) (st : Calculations.AnalysisState.t) :
  let final := fold_left (Calculations.analyzeStint circuit numStints) stints st in
  (Calculations.AnalysisState.riskLevel st
   <= Calculations.AnalysisState.riskLevel final
   <= Calculations.AnalysisState.riskLevel st + 2 * Z.of_nat (List.length stints))%Z.
Proof.
  cbv zeta. revert st. induction stints as [| x rest IH]; intros st.
  - cbn [fold_left List.length]. lia.
  - cbn [fold_left]. specialize (IH (Calculations.analyzeStint circuit numStints st x)).
    assert (Hrisk : Calculations.AnalysisState.riskLevel
                      (Calculations.analyzeStint circuit numStints st x)
                    = (Calculations.AnalysisState.riskLevel st + stintRisk circuit x)%Z).
    { unfold Calculations.analyzeStint, Calculations.riskAdjust, stintRisk. cbv zeta.
      cbn [Calculations.AnalysisState.riskLevel].
      destruct (JS.ltb _ 30); [reflexivity |].
      destruct (JS.ltb _ 50); [reflexivity | lia]. }
    rewrite Hrisk in IH. pose proof (stintRisk_range circuit x).
    change (List.length (x :: rest)) with (S (List.length rest)). lia.
Qed.

Lemma analyzeStrategy_risk_range (strategy : Calculations.Strategy.t) (circuit : string) :
  let analysis := Calculations.analyzeStrategy strategy circuit in
  let n := Z.of_nat (List.length (Calculations.Strategy.stints strategy)) in
  Calculations.Analysis.pitStops analysis = (n - 1)%Z
  /\ (0 <= Calculations.Analysis.riskLevel analysis <= 2 * n)%Z.
Proof.
  cbv zeta. split; [reflexivity |].
  unfold Calculations.analyzeStrategy. cbv zeta.
  cbn [Calculations.Analysis.riskLevel].
  pose proof (analyzeStint_risk_range
                circuit (Z.of_nat (List.length (Calculations.Strategy.stints strategy)))
                (Calculations.Strategy.stints strategy)
                (Calculations.AnalysisState.mk 0 0 0 0)) as H.
  cbv zeta in H.
  change (Calculations.AnalysisState.riskLevel (Calculations.AnalysisState.mk 0 0 0 0))
    with 0%Z in H.
  lia.
Qed.

(** What the pros and cons say, read from the two counters they test. *)
Lemma pros_cons_of_counters (analysis : Calculations.Analysis.t) :
  let stops := Calculations.Analysis.pitStops analysis in
  let risk := Calculations.Analysis.riskLevel analysis in
  let pros := Calculations.getStrategyPros analysis in
  let cons := Calculations.getStrategyCons analysis in
  ((stops < 3)%Z -> (risk < 3)%Z -> cons = [])
  /\ ((risk < 5)%Z -> ~ In "Estrategia muy arriesgada" cons)
  /\ (In "Estrategia muy arriesgada" cons -> In "Alto riesgo de degradación" cons)
  /\ (In "Riesgo bajo" pros ->
      ~ In "Alto riesgo de degradación" cons /\ ~ In "Estrategia muy arriesgada" cons)
  /\ (In "Estrategia muy segura" pros -> In "Riesgo bajo" pros)
  /\ (risk = 0%Z -> In "Estrategia muy segura" pros /\ In "Riesgo bajo" pros).
Proof.
  cbv zeta. unfold Calculations.getStrategyPros, Calculations.getStrategyCons.
  set (stops := Calculations.Analysis.pitStops analysis).
  set (risk := Calculations.Analysis.riskLevel analysis).
  destruct (Z.eqb_spec stops 0) as [S0 | S0]; destruct (Z.eqb_spec stops 1) as [S1 | S1];
    destruct (Z.leb_spec 3 stops) as [S3 | S3];
    destruct (Z.eqb_spec risk 0) as [R0 | R0]; destruct (Z.leb_spec risk 1) as [R1 | R1];
    destruct (Z.leb_spec 3 risk) as [R3 | R3]; destruct (Z.leb_spec 5 risk) as [R5 | R5];
    try lia;
    cbn [app In];
    repeat split; try intros ?; try intros ?; try lia; try reflexivity;
    repeat match goal with
           | H : _ \/ _ |- _ => destruct H
           | H : False |- _ => destruct H
           | H : @eq string _ _ |- _ => discriminate H
           end;
    try lia; auto 6.
Qed.

(** X14.  [compareStrategies] keeps the strategies in order and attaches to
    each one an analysis with [pitStops] one less than its stint count and a
    [riskLevel] between 0 and twice that count.  The lists derived from it
    are consistent: a strategy of at most one stint has no cons, one of at
    most two stints is never called very risky, "Riesgo bajo" among the
    pros excludes both risk warnings among the cons, and on a circuit code
    that is not in the catalog every strategy is reported as very safe.
    The circuit code names no member of [Object.prototype]. *)
Theorem compareStrategies_consistent
        (strategies : list Calculations.Strategy.t) (circuit : string) :
  JS.inherited circuit = false ->
  let compared := Calculations.compareStrategies strategies circuit in
  map Calculations.Compared.stints compared = map Calculations.Strategy.stints strategies
  /\ Forall (fun entry =>
               let n := Z.of_nat (List.length (Calculations.Compared.stints entry)) in
               let analysis := Calculations.Compared.analysis entry in
               let pros := Calculations.Compared.pros entry in
               let cons := Calculations.Compared.cons entry in
               Calculations.Analysis.pitStops analysis = (n - 1)%Z
               /\ (0 <= Calculations.Analysis.riskLevel analysis <= 2 * n)%Z
               /\ ((n <= 1)%Z -> cons = [])
               /\ ((n <= 2)%Z -> ~ In "Estrategia muy arriesgada" cons)
               /\ (In "Estrategia muy arriesgada" cons
                   -> In "Alto riesgo de degradación" cons)
               /\ (In "Riesgo bajo" pros
                   -> ~ In "Alto riesgo de degradación" cons
                      /\ ~ In "Estrategia muy arriesgada" cons)
               /\ (JS.get Calculations.circuitsData circuit = None
                   -> In "Estrategia muy segura" pros /\ In "Riesgo bajo" pros))
            compared.
Proof.
  intros _. cbv zeta. unfold Calculations.compareStrategies. split.
  - rewrite map_map. reflexivity.
  - apply Forall_forall. intros entry Hentry. apply in_map_iff in Hentry.
    destruct Hentry as (strategy & <- & _). cbv zeta.
    cbn [Calculations.Compared.stints Calculations.Compared.analysis
         Calculations.Compared.pros Calculations.Compared.cons].
    destruct (analyzeStrategy_risk_range strategy circuit) as [Hstops Hrisk].
    cbv zeta in Hstops, Hrisk.
    destruct (pros_cons_of_counters (Calculations.analyzeStrategy strategy circuit))
      as (Hnone & Hvery & Himp & Hlow & _ & Hsafe).
    cbv zeta in Hnone, Hvery, Himp, Hlow, Hsafe.
    repeat split; try assumption; try lia.
    + intros Hn. apply Hnone; lia.
    + intros Hn. apply Hvery. lia.
    + now apply Hlow.
    + now apply Hlow.
    + match goal with
      | Hunknown : JS.get _ _ = None |- _ =>
        now apply Hsafe, analyzeStrategy_unknown_circuit
      end.
    + match goal with
      | Hunknown : JS.get _ _ = None |- _ =>
        now apply Hsafe, analyzeStrategy_unknown_circuit
      end.
Qed.

Lemma compareStrategies_consistent_witness :
  JS.inherited "XXX" = false
  /\ Forall (fun entry =>
               In "Estrategia muy segura" (Calculations.Compared.pros entry)
               /\ In "Riesgo bajo" (Calculations.Compared.pros entry))
            (Calculations.compareStrategies
               [Calculations.Strategy.mk
                  [Calculations.Stint.mk 1 "M" 12 "neutral";
                   Calculations.Stint.mk 2 "S" 12 "alto"]
                  0 "2 paradas"] "XXX").
Proof.
  split; [reflexivity |].
  destruct (compareStrategies_consistent
              [Calculations.Strategy.mk
                 [Calculations.Stint.mk 1 "M" 12 "neutral";
                  Calculations.Stint.mk 2 "S" 12 "alto"]
                 0 "2 paradas"] "XXX" eq_refl) as [_ Hall].
  eapply Forall_impl; [| exact Hall].
  intros entry (_ & _ & _ & _ & _ & _ & Hsafe). now apply Hsafe.
Defined.

(** ** Weather *)

Lemma calculateTyreWear_remaining_range (circuit compound : string) (laps tyrePoints : R) :
  0 <= TyreWear.remaining (Calculations.calculateTyreWear circuit compound laps tyrePoints)
  <= 100.
Proof.
  destruct (get_None_or_Some Calculations.circuitsData circuit) as [Hn | [c Hc]].
  - rewrite failed_call_remaining by now left. lra.
  - destruct (Rle_or_lt laps 0) as [Hl | Hl].
    { rewrite failed_call_remaining by (right; now left). lra. }
    destruct (Rle_or_lt tyrePoints 0) as [Ht | Ht].
    { rewrite failed_call_remaining by (right; now right). lra. }
    destruct (calculateTyreWear_valid circuit compound c laps tyrePoints Hc Hl Ht)
      as (_ & _ & E & _).
    rewrite E.
    pose proof (remainingExact_pos c compound laps tyrePoints) as Hpos.
    pose proof (remainingExact_le_100 c compound laps tyrePoints
                                      (catalog_circuit circuit c Hc)) as Hle.
    split.
    + rewrite <- (formatNumber_zero 2). apply formatNumber_monotone. lra.
    + rewrite <- formatNumber_100. now apply formatNumber_monotone.
Qed.

(** X15.  [calculateWeatherImpact] over any result of [calculateTyreWear]
    (failed ones included) keeps the base calculation and marks the result
    as adjusted; the adjusted remaining lies between 0 and 115; it does not
    exceed the base remaining unless the temperature is above 35; rain does
    not raise it; the humidity is not read; and over a failed base
    calculation in dry heat it reports more than 100 percent.  The bounds
    are those that the unrounded product the code returns keeps in binary
    floating point as well.  The circuit code names no member of
    [Object.prototype]. *)
Theorem calculateWeatherImpact_range
        (circuit compound : string) (laps tyrePoints : R)
        (temperature humidity rainfall : R) :
  JS.inherited circuit = false ->
  let base := Calculations.calculateTyreWear circuit compound laps tyrePoints in
  let adjusted :=
    Calculations.calculateWeatherImpact
      base (Calculations.WeatherConditions.mk temperature humidity rainfall) in
  let value := Calculations.WeatherAdjusted.adjustedRemaining adjusted in
  let dry :=
    Calculations.WeatherAdjusted.adjustedRemaining
      (Calculations.calculateWeatherImpact
         base (Calculations.WeatherConditions.mk temperature humidity 0)) in
  Calculations.WeatherAdjusted.baseCalculation adjusted = base
  /\ Calculations.WeatherAdjusted.weatherAdjusted adjusted = true
  /\ 0 <= value <= 115
  /\ (temperature <= 35 -> value <= TyreWear.remaining base)
  /\ value <= dry
  /\ (forall humidity' : R,
        Calculations.calculateWeatherImpact
          base (Calculations.WeatherConditions.mk temperature humidity' rainfall)
        = adjusted)
  /\ (35 < temperature -> rainfall <= 0 ->
      JS.get Calculations.circuitsData circuit = None \/ laps <= 0 \/ tyrePoints <= 0 ->
      100 < value).
Proof.
  intros _. cbv zeta.
  pose proof (calculateTyreWear_remaining_range circuit compound laps tyrePoints) as Hr.
  pose proof (failed_call_remaining circuit compound laps tyrePoints) as Hfail.
  set (base := Calculations.calculateTyreWear circuit compound laps tyrePoints) in *.
  unfold Calculations.calculateWeatherImpact. cbv zeta.
  cbn [Calculations.WeatherConditions.temperature Calculations.WeatherConditions.rainfall
       Calculations.WeatherAdjusted.adjustedRemaining
       Calculations.WeatherAdjusted.baseCalculation
       Calculations.WeatherAdjusted.weatherAdjusted].
  split; [reflexivity |]. split; [reflexivity |].
  assert (Hdry : JS.ltb 0 0 = false) by (apply ltb_false_iff; lra).
  rewrite Hdry.
  destruct (JS.ltb 35 temperature) eqn:Hhot;
    [apply ltb_true_iff in Hhot | apply ltb_false_iff in Hhot];
    (destruct (JS.ltb temperature 15) eqn:Hcold;
     [apply ltb_true_iff in Hcold | apply ltb_false_iff in Hcold]);
    (destruct (JS.ltb 0 rainfall) eqn:Hrain;
     [apply ltb_true_iff in Hrain | apply ltb_false_iff in Hrain]);
    repeat split; intros; try reflexivity; try lra;
    try (rewrite Hfail by assumption; lra).
Qed.

Lemma calculateWeatherImpact_range_witness :
  JS.inherited "XXX" = false
  /\ 100 < Calculations.WeatherAdjusted.adjustedRemaining
             (Calculations.calculateWeatherImpact
                (Calculations.calculateTyreWear "XXX" "M" 10 100)
                (Calculations.WeatherConditions.mk 40 50 0))
       <= 115.
Proof.
  split; [reflexivity |].
  destruct (calculateWeatherImpact_range "XXX" "M" 10 100 40 50 0 eq_refl)
    as (_ & _ & [_ Hle] & _ & _ & _ & Hhot).
  split; [apply Hhot; [lra | lra | left; reflexivity] | exact Hle].
Defined.

(** * Utilities, accounts and the strategy page *)

(** ** Sanitised input *)

Lemma replaceAll_app (unit : N) (replacement a b : list N) :
  JS.replaceAll unit replacement (a ++ b)
  = JS.replaceAll unit replacement a ++ JS.replaceAll unit replacement b.
Proof. unfold JS.replaceAll. apply flat_map_app. Qed.

Lemma sanitizeInput_app (a b : list N) :
  Utils.sanitizeInput (a ++ b) = Utils.sanitizeInput a ++ Utils.sanitizeInput b.
Proof. unfold Utils.sanitizeInput. now rewrite !replaceAll_app. Qed.

Ltac escape_cases u :=
  destruct (N.eqb_spec u 38) as [-> | ?];
  [| destruct (N.eqb_spec u 60) as [-> | ?];
     [| destruct (N.eqb_spec u 62) as [-> | ?];
        [| destruct (N.eqb_spec u 34) as [-> | ?];
           [| destruct (N.eqb_spec u 39) as [-> | ?];
              [| destruct (N.eqb_spec u 47) as [-> | ?]]]]]].

Lemma replaceAll_other (unit : N) (replacement : list N) (u : N) :
  u <> unit -> JS.replaceAll unit replacement [u] = [u].
Proof.
  intros H. unfold JS.replaceAll. cbn [flat_map].
  destruct (N.eqb_spec u unit); [contradiction | reflexivity].
Qed.

Lemma sanitizeInput_unit (u : N) : Utils.sanitizeInput [u] = escape u.
Proof.
  unfold escape. escape_cases u; try reflexivity.
  unfold Utils.sanitizeInput. now rewrite !replaceAll_other by assumption.
Qed.

Lemma sanitizeInput_escape (s : list N) : Utils.sanitizeInput s = flat_map escape s.
Proof.
  induction s as [| u rest IH]; [reflexivity |].
  change (u :: rest) with ([u] ++ rest).
  rewrite sanitizeInput_app, sanitizeInput_unit, IH. reflexivity.
Qed.

Lemma isMarkup_false (u : N) :
  isMarkup u = false
  <-> u <> 38%N /\ u <> 60%N /\ u <> 62%N /\ u <> 34%N /\ u <> 39%N /\ u <> 47%N.
Proof.
  unfold isMarkup. cbn [existsb]. rewrite !orb_false_iff, !N.eqb_neq. tauto.
Qed.

Lemma escape_clean (u : N) : isMarkup u = false -> escape u = [u].
Proof.
  intros H. apply isMarkup_false in H. unfold escape.
  escape_cases u; tauto || reflexivity.
Qed.

Lemma escape_markup (u : N) :
  isMarkup u = true ->
  exists rest, escape u = 38%N :: rest /\ (3 <= List.length rest)%nat.
Proof.
  intros H. unfold escape.
  escape_cases u; try (eexists; split; [reflexivity | cbn; lia]).
  exfalso. enough (isMarkup u = false) by congruence.
  apply isMarkup_false. tauto.
Qed.

Lemma escape_output (u : N) :
  Forall (fun v => v <> 60%N /\ v <> 62%N /\ v <> 34%N /\ v <> 39%N /\ v <> 47%N)
         (escape u).
Proof.
  unfold escape.
  escape_cases u;
    try (cbn; repeat constructor; discriminate).
  constructor; [| constructor]. tauto.
Qed.

Lemma sanitizeInput_output (input : list N) :
  Forall (fun u => u <> 60%N /\ u <> 62%N /\ u <> 34%N /\ u <> 39%N /\ u <> 47%N)
         (Utils.sanitizeInput input).
Proof.
  rewrite sanitizeInput_escape.
  induction input as [| u rest IH]; [constructor |].
  cbn [flat_map]. apply Forall_app. split; [apply escape_output | exact IH].
Qed.

Lemma sanitizeInput_length (input : list N) :
  (List.length input <= List.length (Utils.sanitizeInput input))%nat.
Proof.
  rewrite sanitizeInput_escape.
  induction input as [| u rest IH]; [cbn; lia |].
  cbn [flat_map]. rewrite length_app. cbn [List.length].
  assert (1 <= List.length (escape u))%nat; [| lia].
  destruct (isMarkup u) eqn:E.
  - destruct (escape_markup u E) as (r & -> & Hr). cbn. lia.
  - rewrite (escape_clean u E). cbn. lia.
Qed.

Lemma sanitizeInput_injective_escape (a b : list N) :
  flat_map escape a = flat_map escape b -> a = b.
Proof.
  revert b. induction a as [| u a IH]; intros [| v b] H.
  - reflexivity.
  - exfalso. cbn [flat_map] in H. unfold escape in H.
    escape_cases v; discriminate H.
  - exfalso. cbn [flat_map] in H. unfold escape in H.
    escape_cases u; discriminate H.
  - cbn [flat_map] in H.
    assert (Huv : u = v /\ flat_map escape a = flat_map escape b).
    { unfold escape in H.
      escape_cases u; escape_cases v;
        cbn in H;
        try discriminate H;
        try (injection H as H; split; [reflexivity | exact H]);
        try (injection H as H1 H; exfalso; congruence);
        try (injection H as H1 H; split; [exact H1 | exact H]). }
    destruct Huv as [-> Hrest]. f_equal. now apply IH.
Qed.

(** X16.  [Utils.sanitizeInput] loses nothing: two different strings are
    never sanitised to the same string. *)
Theorem sanitizeInput_injective (a b : list N) :
  Utils.sanitizeInput a = Utils.sanitizeInput b -> a = b.
Proof. rewrite !sanitizeInput_escape. apply sanitizeInput_injective_escape. Qed.

Lemma sanitizeInput_injective_witness :
  Utils.sanitizeInput (JS.units "<b>") = Utils.sanitizeInput [60; 98; 62]%N
  /\ JS.units "<b>" = [60; 98; 62]%N.
Proof.
  split; [reflexivity |].
  apply (sanitizeInput_injective (JS.units "<b>") [60; 98; 62]%N). reflexivity.
Defined.

Lemma sanitizeInput_clean (s : list N) :
  forallb (fun u => negb (isMarkup u)) s = true -> Utils.sanitizeInput s = s.
Proof.
  rewrite sanitizeInput_escape. induction s as [| u rest IH]; [reflexivity |].
  cbn [forallb flat_map]. intros H. apply andb_true_iff in H. destruct H as [Hu Hrest].
  apply negb_true_iff in Hu. rewrite (escape_clean u Hu), IH by exact Hrest. reflexivity.
Qed.

Lemma sanitizeInput_longer (s : list N) :
  forallb (fun u => negb (isMarkup u)) s = false ->
  (List.length s < List.length (Utils.sanitizeInput s))%nat
  /\ In 38%N (Utils.sanitizeInput s).
Proof.
  rewrite sanitizeInput_escape. induction s as [| u rest IH]; [discriminate |].
  cbn [forallb flat_map]. intros H. rewrite length_app. cbn [List.length].
  pose proof (sanitizeInput_length rest) as Hlen.
  rewrite sanitizeInput_escape in Hlen.
  destruct (isMarkup u) eqn:Hu.
  - destruct (escape_markup u Hu) as (r & -> & Hr). split.
    + cbn [List.length]. lia.
    + now left.
  - cbn [negb andb] in H. destruct (IH H) as [IHlen IHin].
    rewrite (escape_clean u Hu). split.
    + cbn [List.length]. lia.
    + right. exact IHin.
Qed.

Lemma forallb_clean_cases (s : list N) :
  forallb (fun u => negb (isMarkup u)) s = true
  \/ forallb (fun u => negb (isMarkup u)) s = false.
Proof. destruct (forallb _ s); [now left | now right]. Qed.

(** X17.  The output of [Utils.sanitizeInput] holds none of the characters
    [<], [>], double quote, single quote and [/], and is never shorter than
    the input; it is the input with each of the six characters replaced by
    its entity, as if the six passes were one, because [&] is replaced
    first.  The input comes back unchanged exactly when it holds none of the
    six characters; on any other input a second call changes the string
    again, so sanitising twice is not sanitising once. *)
Theorem sanitizeInput_no_markup (input : list N) :
  Forall (fun u => u <> 60%N /\ u <> 62%N /\ u <> 34%N /\ u <> 39%N /\ u <> 47%N)
         (Utils.sanitizeInput input)
  /\ (List.length input <= List.length (Utils.sanitizeInput input))%nat
  /\ Utils.sanitizeInput input = flat_map escape input
  /\ (Utils.sanitizeInput input = input
      <-> forallb (fun u => negb (isMarkup u)) input = true)
  /\ (Utils.sanitizeInput (Utils.sanitizeInput input) = Utils.sanitizeInput input
      <-> forallb (fun u => negb (isMarkup u)) input = true).
Proof.
  assert (Fixed : Utils.sanitizeInput input = input
                  -> forallb (fun u => negb (isMarkup u)) input = true).
  { intros E. destruct (forallb_clean_cases input) as [H | H]; [exact H | exfalso].
    destruct (sanitizeInput_longer input H) as [Hlen _]. rewrite E in Hlen. lia. }
  split; [apply sanitizeInput_output |].
  split; [apply sanitizeInput_length |].
  split; [apply sanitizeInput_escape |].
  split; split.
  - exact Fixed.
  - apply sanitizeInput_clean.
  - intros E. apply Fixed. rewrite !sanitizeInput_escape in E.
    apply sanitizeInput_injective_escape in E. now rewrite sanitizeInput_escape.
  - intros H. now rewrite !(sanitizeInput_clean input H).
Qed.

(** ** User names and logins *)

Lemma isWordUnit_range (u : N) :
  JS.isWordUnit u = true ->
  (97 <= u <= 122 \/ 65 <= u <= 90 \/ 48 <= u <= 57 \/ u = 95)%N.
Proof.
  unfold JS.isWordUnit. rewrite !orb_true_iff, !andb_true_iff, !N.leb_le, N.eqb_eq.
  tauto.
Qed.

Lemma word_not_markup (u : N) : JS.isWordUnit u = true -> isMarkup u = false.
Proof.
  intros H. apply isWordUnit_range in H. apply isMarkup_false. lia.
Qed.

Lemma word_not_whiteSpace (u : N) : JS.isWordUnit u = true -> JS.isWhiteSpace u = false.
Proof.
  intros H. apply isWordUnit_range in H. unfold JS.isWhiteSpace. cbn [existsb].
  rewrite !orb_false_iff, !N.eqb_neq. repeat split; try lia. 
Qed.

Lemma words_clean (s : list N) :
  forallb JS.isWordUnit s = true -> forallb (fun u => negb (isMarkup u)) s = true.
Proof.
  intros H. apply forallb_forall. intros u Hu.
  rewrite forallb_forall in H. now rewrite (word_not_markup u (H u Hu)).
Qed.

Lemma trimStart_word (u : N) (s : list N) :
  JS.isWordUnit u = true -> JS.trimStart (u :: s) = u :: s.
Proof. intros H. cbn [JS.trimStart]. now rewrite (word_not_whiteSpace u H). Qed.

Lemma trim_words (s : list N) : forallb JS.isWordUnit s = true -> JS.trim s = s.
Proof.
  intros H. unfold JS.trim. destruct s as [| u rest]; [reflexivity |].
  cbn [forallb] in H. apply andb_true_iff in H. destruct H as [Hu Hrest].
  rewrite (trimStart_word u rest Hu).
  assert (Hall : forallb JS.isWordUnit (rev (u :: rest)) = true).
  { apply forallb_forall. intros v Hv. apply in_rev in Hv.
    destruct Hv as [<- | Hv]; [exact Hu |].
    rewrite forallb_forall in Hrest. now apply Hrest. }
  destruct (rev (u :: rest)) as [| v r] eqn:E.
  - apply (f_equal (@List.length N)) in E. rewrite length_rev in E. discriminate E.
  - cbn [forallb] in Hall. apply andb_true_iff in Hall. destruct Hall as [Hv _].
    rewrite (trimStart_word v r Hv), <- E. apply rev_involutive.
Qed.

Lemma validateUsername_valid (username : list N) :
  Utils.Validation.isValid (Utils.validateUsername username) = true
  <-> (3 <= List.length username <= 20)%nat /\ forallb JS.isWordUnit username = true.
Proof.
  unfold Utils.validateUsername, Utils.wordOnly. cbv zeta.
  cbn [Utils.Validation.isValid]. split.
  - destruct (List.length username =? 0)%nat eqn:E0; [discriminate |].
    destruct (List.length (JS.trim username) =? 0)%nat; [discriminate |].
    cbn [orb].
    destruct (Nat.ltb_spec (List.length username) 3); [discriminate |].
    destruct (Nat.ltb_spec 20 (List.length username)); [discriminate |].
    cbn [negb andb].
    destruct (forallb JS.isWordUnit username); [| discriminate].
    intros _. split; [lia | reflexivity].
  - intros [Hlen Hall]. rewrite (trim_words username Hall).
    destruct (Nat.eqb_spec (List.length username) 0); [lia |]. cbn [orb].
    destruct (Nat.ltb_spec (List.length username) 3); [lia |].
    destruct (Nat.ltb_spec 20 (List.length username)); [lia |].
    rewrite Hall. reflexivity.
Qed.

Lemma validateUsername_errors (username : list N) :
  let validation := Utils.validateUsername username in
  (Utils.Validation.isValid validation = true /\ Utils.Validation.errors validation = [])
  \/ (Utils.Validation.isValid validation = false
      /\ exists message,
          Utils.Validation.errors validation = [message] /\ message <> "").
Proof.
  cbv zeta. unfold Utils.validateUsername. cbv zeta.
  cbn [Utils.Validation.isValid Utils.Validation.errors].
  destruct ((List.length username =? 0)%nat || (List.length (JS.trim username) =? 0)%nat);
    [right; split; [reflexivity | eexists; split; [reflexivity | discriminate]] |].
  destruct (List.length username <? 3)%nat;
    [right; split; [reflexivity | eexists; split; [reflexivity | discriminate]] |].
  destruct (20 <? List.length username)%nat;
    [right; split; [reflexivity | eexists; split; [reflexivity | discriminate]] |].
  destruct (negb (Utils.wordOnly username));
    [right; split; [reflexivity | eexists; split; [reflexivity | discriminate]] |].
  left. split; reflexivity.
Qed.

(** X18.  [Utils.validateUsername] accepts exactly the strings of 3 to 20
    code units that are all letters, digits or underscores; it reports no
    error when it accepts and exactly one when it rejects.  The test on the
    trimmed name rejects nothing that the three later tests would accept. *)
Theorem validateUsername_accepts (username : list N) :
  let validation := Utils.validateUsername username in
  (Utils.Validation.isValid validation = true
   <-> (3 <= List.length username <= 20)%nat /\ forallb JS.isWordUnit username = true)
  /\ (Utils.Validation.isValid validation = true
      <-> Utils.Validation.errors validation = [])
  /\ (Utils.Validation.isValid validation = false
      <-> exists message, Utils.Validation.errors validation = [message]).
Proof.
  cbv zeta. split; [apply validateUsername_valid |].
  destruct (validateUsername_errors username) as [[Hv He] | (Hv & message & He & _)];
    cbv zeta in *; rewrite Hv, He; split; split; intros H;
    try reflexivity; try discriminate H.
  - destruct H as [m Hm]. discriminate Hm.
  - now exists message.
Qed.

Lemma sanitized_name_valid (name : list N) :
  Utils.Validation.isValid (Utils.validateUsername (Utils.sanitizeInput name)) = true
  <-> Utils.Validation.isValid (Utils.validateUsername name) = true.
Proof.
  split; intros H.
  - destruct (forallb_clean_cases name) as [Hc | Hc].
    + now rewrite (sanitizeInput_clean name Hc) in H.
    + exfalso. apply validateUsername_valid in H. destruct H as [_ Hall].
      destruct (sanitizeInput_longer name Hc) as [_ Hin].
      rewrite forallb_forall in Hall. specialize (Hall _ Hin). discriminate Hall.
  - pose proof H as H'. apply validateUsername_valid in H'. destruct H' as [_ Hall].
    now rewrite (sanitizeInput_clean name (words_clean name Hall)).
Qed.

(** X19.  [Auth.validateLogin] succeeds exactly when the trimmed user name
    is 3 to 20 letters, digits or underscores and the password has at least
    6 code units; the user name it returns is then the trimmed one,
    unchanged by the sanitisation. *)
Theorem validateLogin_accepts (username password : list N) :
  let name := JS.trim username in
  (Utils.success (Auth.validateLogin username password) = true
   <-> (3 <= List.length name <= 20)%nat /\ forallb JS.isWordUnit name = true
       /\ (6 <= List.length password)%nat)
  /\ (Utils.success (Auth.validateLogin username password) = true
      -> Auth.validateLogin username password
         = Utils.Success (Auth.Login.mk name password) "Operación exitosa").
Proof.
  cbv zeta. unfold Auth.validateLogin. cbv zeta.
  pose proof (sanitized_name_valid (JS.trim username)) as Hs.
  pose proof (validateUsername_valid (JS.trim username)) as Hv.
  destruct (Nat.eqb_spec (List.length username) 0) as [Hu0 | Hu0].
  { cbn [orb Utils.handleError Utils.success].
    destruct username; [| discriminate Hu0]. cbn.
    split; [split; [discriminate | intros [H _]; lia] | discriminate]. }
  destruct (Nat.eqb_spec (List.length password) 0) as [Hp0 | Hp0].
  { cbn [orb Utils.handleError Utils.success].
    split; [split; [discriminate | intros (_ & _ & H); lia] | discriminate]. }
  cbn [orb].
  destruct (Utils.Validation.isValid
              (Utils.validateUsername (Utils.sanitizeInput (JS.trim username)))) eqn:Hsv.
  - cbn [negb]. pose proof (proj1 Hs eq_refl) as Hvalid.
    pose proof (proj1 Hv Hvalid) as [Hlen Hall].
    rewrite (sanitizeInput_clean _ (words_clean _ Hall)).
    unfold Utils.validatePassword. cbn [Utils.Validation.isValid].
    destruct (Nat.leb_spec 6 (List.length password)) as [Hp | Hp]; cbn [negb].
    + unfold Utils.handleSuccess. cbn [Utils.success].
      split; [split; [intros _; repeat split; assumption || lia | reflexivity] |
              reflexivity].
    + cbn [Utils.handleError Utils.success].
      split; [split; [discriminate | intros (_ & _ & H); lia] | discriminate].
  - cbn [negb Utils.handleError Utils.success].
    split; [split; [discriminate |] | discriminate].
    intros (Hlen & Hall & _).
    assert (Hvalid : Utils.Validation.isValid (Utils.validateUsername (JS.trim username))
                     = true) by (apply Hv; split; assumption).
    apply Hs in Hvalid. congruence.
Qed.

(** ** 32-bit arithmetic, digits and hashes *)

Lemma toInt32_range (x : Z) : (- 2 ^ 31 <= JS.toInt32 x < 2 ^ 31)%Z.
Proof.
  unfold JS.toInt32.
  pose proof (Z.mod_pos_bound (x + 2 ^ 31) (2 ^ 32) ltac:(lia)). lia.
Qed.

Lemma toInt32_wrap (x : Z) : exists k : Z, JS.toInt32 x = (x + 2 ^ 32 * k)%Z.
Proof.
  exists (- ((x + 2 ^ 31) / 2 ^ 32))%Z. unfold JS.toInt32.
  rewrite (Z.mod_eq (x + 2 ^ 31) (2 ^ 32)) by lia. lia.
Qed.

Lemma toInt32_shift (x k : Z) : JS.toInt32 (x + 2 ^ 32 * k) = JS.toInt32 x.
Proof.
  unfold JS.toInt32.
  replace (x + 2 ^ 32 * k + 2 ^ 31)%Z with (x + 2 ^ 31 + k * 2 ^ 32)%Z by lia.
  now rewrite Z_mod_plus_full.
Qed.

Lemma toInt32_small (x : Z) : (- 2 ^ 31 <= x < 2 ^ 31)%Z -> JS.toInt32 x = x.
Proof.
  intros H. unfold JS.toInt32. rewrite Z.mod_small by lia. lia.
Qed.

Lemma hashStep_wrapped (hash : Z) (char : N) :
  Utils.hashStep (JS.toInt32 hash) char = JS.toInt32 (31 * hash + Z.of_N char).
Proof.
  unfold Utils.hashStep, JS.shiftLeft. cbv zeta.
  destruct (toInt32_wrap hash) as [k1 E1]. rewrite E1.
  destruct (toInt32_wrap (hash + 2 ^ 32 * k1)) as [k2 E2]. rewrite E2.
  destruct (toInt32_wrap ((hash + 2 ^ 32 * k1 + 2 ^ 32 * k2) * 2 ^ 5)) as [k3 E3].
  rewrite E3.
  replace ((hash + 2 ^ 32 * k1 + 2 ^ 32 * k2) * 2 ^ 5 + 2 ^ 32 * k3
           - (hash + 2 ^ 32 * k1) + Z.of_N char)%Z
    with (31 * hash + Z.of_N char + 2 ^ 32 * (31 * k1 + 32 * k2 + k3))%Z by lia.
  apply toInt32_shift.
Qed.

Lemma hash_fold_wrapped (str : list N) (hash : Z) :
  fold_left Utils.hashStep str (JS.toInt32 hash)
  = JS.toInt32 (fold_left (fun hash char => (31 * hash + Z.of_N char)%Z) str hash).
Proof.
  revert hash. induction str as [| char rest IH]; intros hash; [reflexivity |].
  cbn [fold_left]. rewrite hashStep_wrapped. apply IH.
Qed.

Lemma hash_fold_polynomial (str : list N) :
  fold_left Utils.hashStep str 0%Z = JS.toInt32 (polynomialHash str).
Proof.
  unfold polynomialHash. rewrite <- hash_fold_wrapped. reflexivity.
Qed.

Lemma digits_length (radix : Z) (k : nat) (fuel : nat) (n : Z) :
  (2 <= radix)%Z -> (0 <= n < radix ^ Z.of_nat k)%Z ->
  (List.length (JS.digits radix fuel n) <= Nat.max 1 k)%nat.
Proof.
  intros Hr. revert fuel n. induction k as [| k IH]; intros fuel n Hn.
  - destruct fuel as [| fuel]; [cbn; lia |]. cbn [JS.digits].
    destruct (Z.ltb_spec n radix); [cbn; lia |]. cbn in Hn. lia.
  - destruct fuel as [| fuel]; [cbn; lia |]. cbn [JS.digits].
    destruct (Z.ltb_spec n radix); [cbn; lia |].
    rewrite length_app. cbn [List.length].
    assert (Hq : (0 <= n / radix < radix ^ Z.of_nat k)%Z).
    { split; [apply Z.div_pos; lia |].
      apply Z.div_lt_upper_bound; [lia |].
      rewrite Nat2Z.inj_succ, Z.pow_succ_r in Hn by lia. lia. }
    specialize (IH fuel (n / radix)%Z Hq).
    destruct k as [| k]; [| lia].
    cbn in Hq. assert (n / radix = 0)%Z by lia.
    assert (n < radix)%Z; [| lia].
    apply Z.div_small_iff in H0; lia.
Qed.

Lemma digits_range (radix : Z) (fuel : nat) (n : Z) :
  (2 <= radix)%Z -> (0 <= n)%Z ->
  Forall (fun d => (0 <= d < radix)%Z) (JS.digits radix fuel n).
Proof.
  intros Hr. revert n. induction fuel as [| fuel IH]; intros n Hn; [constructor |].
  cbn [JS.digits]. destruct (Z.ltb_spec n radix).
  - constructor; [lia | constructor].
  - apply Forall_app. split.
    + apply IH. apply Z.div_pos; lia.
    + constructor; [apply Z.mod_pos_bound; lia | constructor].
Qed.

Lemma digitsValue_snoc (radix : Z) (ds : list Z) (d : Z) :
  digitsValue radix (ds ++ [d]) = (digitsValue radix ds * radix + d)%Z.
Proof. unfold digitsValue. now rewrite fold_left_app. Qed.

Lemma digits_value (radix : Z) (fuel : nat) (n : Z) :
  (2 <= radix)%Z -> (0 <= n < 2 ^ Z.of_nat fuel)%Z ->
  digitsValue radix (JS.digits radix fuel n) = n.
Proof.
  intros Hr. revert n. induction fuel as [| fuel IH]; intros n Hn.
  - cbn in Hn. cbn. lia.
  - cbn [JS.digits]. destruct (Z.ltb_spec n radix); [cbn; lia |].
    rewrite digitsValue_snoc, IH.
    + rewrite (Z.div_mod n radix) at 3 by lia. lia.
    + split; [apply Z.div_pos; lia |].
      apply Z.div_lt_upper_bound; [lia |].
      rewrite Nat2Z.inj_succ, Z.pow_succ_r in Hn by lia. nia.
Qed.

Lemma log2_fuel (n : Z) : (0 <= n)%Z -> (n < 2 ^ Z.of_nat (S (Z.to_nat (Z.log2 n))))%Z.
Proof.
  intros Hn. rewrite Nat2Z.inj_succ, Z2Nat.id by apply Z.log2_nonneg.
  destruct (Z.eq_dec n 0) as [-> | Hne]; [cbn; lia |].
  apply Z.log2_spec. lia.
Qed.

Lemma digitUnit_range (d : Z) :
  (0 <= d < 36)%Z ->
  let u := JS.digitUnit d in (48 <= u <= 57 \/ 97 <= u <= 122)%N.
Proof.
  intros H. cbv zeta. unfold JS.digitUnit. destruct (Z.ltb_spec d 10); lia.
Qed.

Lemma simpleHash_short (str : list N) :
  str <> [] ->
  exists ds : list Z,
    Utils.simpleHash str = Utils.HashString (map JS.digitUnit ds)
    /\ (1 <= List.length ds <= 6)%nat
    /\ Forall (fun d => (0 <= d < 36)%Z) ds
    /\ Forall (fun u => (48 <= u <= 57 \/ 97 <= u <= 122)%N) (map JS.digitUnit ds).
Proof.
  intros Hne. destruct str as [| char rest]; [congruence |].
  set (value := Z.abs (JS.toInt32 (polynomialHash (char :: rest)))).
  assert (Hv : (0 <= value <= 2 ^ 31)%Z).
  { unfold value. pose proof (toInt32_range (polynomialHash (char :: rest))). lia. }
  assert (Hrange : Forall (fun d => (0 <= d < 36)%Z)
                          (JS.digits 36 (S (Z.to_nat (Z.log2 value))) value))
    by (apply digits_range; lia).
  exists (JS.digits 36 (S (Z.to_nat (Z.log2 value))) value).
  split; [| split; [split |]; [| | split]].
  - unfold Utils.simpleHash. cbn [List.length Nat.eqb].
    rewrite hash_fold_polynomial. fold value. unfold JS.toStringRadix.
    destruct (Z.ltb_spec value 0); [lia | reflexivity].
  - cbn [JS.digits]. destruct (Z.ltb_spec value 36); [cbn; lia |].
    rewrite length_app. cbn. lia.
  - change 6%nat with (Nat.max 1 6). apply digits_length; [lia |].
    change (36 ^ Z.of_nat 6)%Z with 2176782336%Z. lia.
  - exact Hrange.
  - apply Forall_map. eapply Forall_impl; [| exact Hrange].
    intros d Hd. now apply digitUnit_range.
Qed.

(** X20.  On a non-empty string [Utils.simpleHash] returns the radix-36
    digits of the absolute value of the polynomial hash in 31 of the code
    units, wrapped to a signed 32-bit integer: the digits denote that value,
    which is at most 2^31, so the string has 1 to 6 characters, all in
    [0-9a-z]. *)
Theorem simpleHash_polynomial (str : list N) :
  str <> [] ->
  let value := Z.abs (JS.toInt32 (polynomialHash str)) in
  exists ds : list Z,
    Utils.simpleHash str = Utils.HashString (map JS.digitUnit ds)
    /\ digitsValue 36 ds = value
    /\ (0 <= value <= 2 ^ 31)%Z
    /\ (1 <= List.length ds <= 6)%nat
    /\ Forall (fun d => (0 <= d < 36)%Z) ds
    /\ Forall (fun u => (48 <= u <= 57 \/ 97 <= u <= 122)%N) (map JS.digitUnit ds).
Proof.
  intros Hne. destruct str as [| char rest]; [congruence |]. cbv zeta.
  set (value := Z.abs (JS.toInt32 (polynomialHash (char :: rest)))).
  assert (Hv : (0 <= value <= 2 ^ 31)%Z).
  { unfold value. pose proof (toInt32_range (polynomialHash (char :: rest))). lia. }
  exists (JS.digits 36 (S (Z.to_nat (Z.log2 value))) value).
  assert (Hrange : Forall (fun d => (0 <= d < 36)%Z)
                          (JS.digits 36 (S (Z.to_nat (Z.log2 value))) value))
    by (apply digits_range; lia).
  repeat split; try lia.
  - unfold Utils.simpleHash. cbn [List.length Nat.eqb].
    rewrite hash_fold_polynomial. fold value. unfold JS.toStringRadix.
    destruct (Z.ltb_spec value 0); [lia | reflexivity].
  - apply digits_value; [lia |]. split; [lia | apply log2_fuel; lia].
  - cbn [JS.digits]. destruct (Z.ltb_spec value 36); [cbn; lia |].
    rewrite length_app. cbn. lia.
  - change 6%nat with (Nat.max 1 6). apply digits_length; [lia |].
    change (36 ^ Z.of_nat 6)%Z with 2176782336%Z. lia.
  - exact Hrange.
  - apply Forall_map. eapply Forall_impl; [| exact Hrange].
    intros d Hd. now apply digitUnit_range.
Qed.

Lemma simpleHash_polynomial_witness :
  exists ds : list Z,
    Utils.simpleHash (JS.units "Aa") = Utils.HashString (map JS.digitUnit ds)
    /\ digitsValue 36 ds = 2112%Z.
Proof.
  destruct (simpleHash_polynomial (JS.units "Aa") ltac:(discriminate))
    as (ds & E & V & _).
  exists ds. split; [exact E | exact V].
Defined.

(** ** Colours *)

Lemma digits_snoc (radix : Z) (fuel : nat) (q d : Z) :
  (2 <= radix)%Z -> (1 <= q)%Z -> (0 <= d < radix)%Z ->
  JS.digits radix (S fuel) (q * radix + d) = JS.digits radix fuel q ++ [d].
Proof.
  intros Hr Hq Hd. cbn [JS.digits].
  destruct (Z.ltb_spec (q * radix + d) radix); [nia |].
  rewrite Z.div_add_l, Z.div_small, Z.add_0_r by lia.
  rewrite Z.add_comm, Z.mod_add, Z.mod_small by lia. reflexivity.
Qed.

Lemma hexDigit_digitUnit (d : Z) :
  (0 <= d < 16)%Z -> JS.hexDigit (JS.digitUnit d) = Some d.
Proof.
  intros H.
  assert (Hd : In d [0; 1; 2; 3; 4; 5; 6; 7; 8; 9; 10; 11; 12; 13; 14; 15]%Z).
  { cbn [In]. lia. }
  cbn [In] in Hd.
  repeat (destruct Hd as [<- | Hd]; [reflexivity |]). destruct Hd.
Qed.

Lemma shiftLeft_byte (x k : Z) :
  (0 <= x <= 255)%Z -> (0 <= k <= 16)%Z -> JS.shiftLeft x k = (x * 2 ^ k)%Z.
Proof.
  intros Hx Hk. unfold JS.shiftLeft.
  assert (H2 : (1 <= 2 ^ k <= 2 ^ 16)%Z).
  { split; [apply (Z.pow_le_mono_r 2 0 k); lia | apply Z.pow_le_mono_r; lia]. }
  rewrite (toInt32_small x) by lia. apply toInt32_small. nia.
Qed.

Lemma rgbToHex_digits (r g b : Z) :
  (0 <= r <= 255)%Z -> (0 <= g <= 255)%Z -> (0 <= b <= 255)%Z ->
  Utils.rgbToHex r g b
  = 35%N :: map JS.digitUnit
              [r / 16; r mod 16; g / 16; g mod 16; b / 16; b mod 16]%Z.
Proof.
  intros Hr Hg Hb. unfold Utils.rgbToHex.
  rewrite (shiftLeft_byte r 16), (shiftLeft_byte g 8) by lia.
  change (JS.shiftLeft 1 24) with 16777216%Z.
  set (n := (16777216 + r * 2 ^ 16 + g * 2 ^ 8 + b)%Z).
  assert (Hn : (2 ^ 24 <= n < 2 ^ 25)%Z) by (unfold n; lia).
  unfold JS.toStringRadix. destruct (Z.ltb_spec n 0); [lia |].
  assert (Hlog : Z.log2 n = 24%Z) by (apply Z.log2_unique; lia).
  rewrite Hlog. change (S (Z.to_nat 24)) with 25%nat.
  pose proof (Z.div_mod r 16 ltac:(lia)) as Er.
  pose proof (Z.div_mod g 16 ltac:(lia)) as Eg.
  pose proof (Z.div_mod b 16 ltac:(lia)) as Eb.
  pose proof (Z.mod_pos_bound r 16 ltac:(lia)) as Br.
  pose proof (Z.mod_pos_bound g 16 ltac:(lia)) as Bg.
  pose proof (Z.mod_pos_bound b 16 ltac:(lia)) as Bb.
  assert (Qr : (0 <= r / 16 < 16)%Z)
    by (split; [apply Z.div_pos; lia | apply Z.div_lt_upper_bound; lia]).
  assert (Qg : (0 <= g / 16 < 16)%Z)
    by (split; [apply Z.div_pos; lia | apply Z.div_lt_upper_bound; lia]).
  assert (Qb : (0 <= b / 16 < 16)%Z)
    by (split; [apply Z.div_pos; lia | apply Z.div_lt_upper_bound; lia]).
  set (r1 := (r / 16)%Z) in *. set (r2 := (r mod 16)%Z) in *.
  set (g1 := (g / 16)%Z) in *. set (g2 := (g mod 16)%Z) in *.
  set (b1 := (b / 16)%Z) in *. set (b2 := (b mod 16)%Z) in *.
  replace n
    with ((((((1 * 16 + r1) * 16 + r2) * 16 + g1) * 16 + g2) * 16 + b1) * 16 + b2)%Z
    by (unfold n; lia).
  rewrite !digits_snoc by lia.
  reflexivity.
Qed.

(** X21.  For three integers between 0 and 255 [Utils.rgbToHex] returns
    [#] and six hexadecimal digits, and [Utils.hexToRgb] reads the three
    values back from it. *)
Theorem hexToRgb_rgbToHex (r g b : Z) :
  (0 <= r <= 255)%Z -> (0 <= g <= 255)%Z -> (0 <= b <= 255)%Z ->
  List.length (Utils.rgbToHex r g b) = 7%nat
  /\ Utils.hexToRgb (Utils.rgbToHex r g b) = Some (Utils.Rgb.mk r g b).
Proof.
  intros Hr Hg Hb. rewrite (rgbToHex_digits r g b Hr Hg Hb).
  split; [reflexivity |].
  unfold Utils.hexToRgb. cbn [map].
  assert (Qr : (0 <= r / 16 < 16)%Z)
    by (split; [apply Z.div_pos; lia | apply Z.div_lt_upper_bound; lia]).
  assert (Qg : (0 <= g / 16 < 16)%Z)
    by (split; [apply Z.div_pos; lia | apply Z.div_lt_upper_bound; lia]).
  assert (Qb : (0 <= b / 16 < 16)%Z)
    by (split; [apply Z.div_pos; lia | apply Z.div_lt_upper_bound; lia]).
  rewrite !hexDigit_digitUnit
    by (assumption || (apply Z.mod_pos_bound; lia)).
  rewrite <- !Z.div_mod by lia. reflexivity.
Qed.

Lemma hexToRgb_rgbToHex_witness :
  Utils.hexToRgb (Utils.rgbToHex 220 0 0) = Some (Utils.Rgb.mk 220 0 0).
Proof.
  apply (hexToRgb_rgbToHex 220 0 0); lia.
Defined.

Lemma polynomialHash_app (a b : list N) :
  polynomialHash (a ++ b)
  = fold_left (fun hash char => (31 * hash + Z.of_N char)%Z) b (polynomialHash a).
Proof. unfold polynomialHash. apply fold_left_app. Qed.

(** X22.  [Auth.hashPassword] returns, for every password, a string of 1
    to 6 characters, all in [0-9a-z] (never the number 0 that
    [Utils.simpleHash] has for the empty string); and it does not tell
    apart two passwords that differ by [Aa] against [BB] at the same place:
    the two have the same length and the same 32-bit polynomial hash. *)
Theorem hashPassword_collision (password before after : list N) :
  (exists ds : list Z,
      Auth.hashPassword password = Utils.HashString (map JS.digitUnit ds)
      /\ (1 <= List.length ds <= 6)%nat
      /\ Forall (fun d => (0 <= d < 36)%Z) ds
      /\ Forall (fun u => (48 <= u <= 57 \/ 97 <= u <= 122)%N) (map JS.digitUnit ds))
  /\ Auth.hashPassword (before ++ JS.units "Aa" ++ after)
     = Auth.hashPassword (before ++ JS.units "BB" ++ after)
  /\ before ++ JS.units "Aa" ++ after <> before ++ JS.units "BB" ++ after.
Proof.
  split; [| split].
  - unfold Auth.hashPassword. cbv zeta.
    set (salted := JS.toStringRadix 10 _ ++ _).
    assert (Hne : salted <> []).
    { unfold salted. intros E. apply app_eq_nil in E. destruct E as [_ E].
      apply app_eq_nil in E. destruct E as [E _]. discriminate E. }
    exact (simpleHash_short salted Hne).
  - unfold Auth.hashPassword. cbv zeta.
    rewrite !hash_fold_polynomial, !length_app.
    assert (E : polynomialHash (before ++ JS.units "Aa" ++ after)
                = polynomialHash (before ++ JS.units "BB" ++ after)).
    { rewrite !polynomialHash_app, !fold_left_app. f_equal.
      cbn [JS.units list_ascii_of_string map fold_left].
      change (Z.of_N (N_of_ascii "A")) with 65%Z.
      change (Z.of_N (N_of_ascii "a")) with 97%Z.
      change (Z.of_N (N_of_ascii "B")) with 66%Z. lia. }
    rewrite E. reflexivity.
  - intros E. apply app_inv_head in E. discriminate E.
Qed.

(** ** Arrays *)

Lemma spliceStart_inside (len : nat) (i : Z) :
  (0 <= i <= Z.of_nat len)%Z -> JS.spliceStart len i = Z.to_nat i.
Proof.
  intros H. unfold JS.spliceStart. destruct (Z.ltb_spec i 0); lia.
Qed.

Lemma nth_split_at {A : Type} (d : A) (l : list A) (n : nat) :
  (n < List.length l)%nat -> l = firstn n l ++ nth n l d :: skipn (S n) l.
Proof.
  revert n. induction l as [| x l IH]; intros n H; [cbn in H; lia |].
  destruct n as [| n]; [reflexivity |].
  cbn [firstn nth skipn app]. f_equal. apply IH. cbn in H. lia.
Qed.

Lemma remove_inserted {A : Type} (l : list A) (n : nat) (x : A) :
  (n <= List.length l)%nat ->
  firstn n (firstn n l ++ x :: skipn n l)
  ++ skipn (S n) (firstn n l ++ x :: skipn n l) = l.
Proof.
  intros H.
  assert (Hlen : List.length (firstn n l) = n) by (rewrite length_firstn; lia).
  rewrite firstn_app, Hlen, Nat.sub_diag, firstn_O, app_nil_r.
  rewrite firstn_all2 by lia.
  rewrite skipn_app, Hlen.
  rewrite (skipn_all2 (n := S n) (firstn n l)) by lia.
  replace (S n - n)%nat with 1%nat by lia. cbn [skipn app].
  apply firstn_skipn.
Qed.

Lemma insert_removed {A : Type} (d : A) (l : list A) (n : nat) :
  (n < List.length l)%nat ->
  let l' := firstn n l ++ skipn (S n) l in
  firstn n l' ++ nth n l d :: skipn n l' = l.
Proof.
  intros H. cbv zeta.
  assert (Hlen : List.length (firstn n l) = n) by (rewrite length_firstn; lia).
  rewrite firstn_app, Hlen, Nat.sub_diag, firstn_O, app_nil_r.
  rewrite firstn_all2 by lia.
  rewrite skipn_app, Hlen, Nat.sub_diag.
  rewrite (skipn_all2 (n := n) (firstn n l)) by lia.
  cbn [skipn app]. symmetry. now apply nth_split_at.
Qed.

Lemma arrayMove_inside {A : Type} (undefined : A) (arr : list A) (fromIndex toIndex : Z) :
  (0 <= fromIndex < Z.of_nat (List.length arr))%Z ->
  (0 <= toIndex < Z.of_nat (List.length arr))%Z ->
  let f := Z.to_nat fromIndex in
  let t := Z.to_nat toIndex in
  let rest := firstn f arr ++ skipn (S f) arr in
  Utils.arrayMove undefined arr fromIndex toIndex
  = firstn t rest ++ nth f arr undefined :: skipn t rest
  /\ List.length rest = (List.length arr - 1)%nat.
Proof.
  intros Hf Ht. cbv zeta.
  assert (Hrest : List.length (firstn (Z.to_nat fromIndex) arr
                               ++ skipn (S (Z.to_nat fromIndex)) arr)
                  = (List.length arr - 1)%nat).
  { rewrite length_app, length_firstn, length_skipn. lia. }
  split; [| exact Hrest].
  unfold Utils.arrayMove, JS.spliceInsert, JS.spliceRemove, JS.index. cbv zeta.
  destruct (Z.ltb_spec fromIndex 0); [lia |].
  rewrite (spliceStart_inside (List.length arr) fromIndex) by lia.
  rewrite Hrest. rewrite spliceStart_inside by lia. reflexivity.
Qed.

(** X23.  [Utils.arrayMove] with both indices inside the array keeps the
    length and the elements, puts the element of [fromIndex] at [toIndex],
    leaves the other elements in their order, and is undone by the move
    back. *)
Theorem arrayMove_moves {A : Type} (undefined : A) (arr : list A) (fromIndex toIndex : Z) :
  (0 <= fromIndex < Z.of_nat (List.length arr))%Z ->
  (0 <= toIndex < Z.of_nat (List.length arr))%Z ->
  let moved := Utils.arrayMove undefined arr fromIndex toIndex in
  List.length moved = List.length arr
  /\ Permutation arr moved
  /\ JS.index undefined moved toIndex = JS.index undefined arr fromIndex
  /\ JS.spliceRemove moved toIndex = JS.spliceRemove arr fromIndex
  /\ Utils.arrayMove undefined moved toIndex fromIndex = arr.
Proof.
  intros Hf Ht. cbv zeta.
  destruct (arrayMove_inside undefined arr fromIndex toIndex Hf Ht) as [E Hrest].
  cbv zeta in E, Hrest.
  set (f := Z.to_nat fromIndex) in *. set (t := Z.to_nat toIndex) in *.
  set (rest := firstn f arr ++ skipn (S f) arr) in *.
  set (x := nth f arr undefined) in *.
  assert (Hfn : (f < List.length arr)%nat) by (unfold f; lia).
  assert (Htn : (t <= List.length rest)%nat) by (unfold t; lia).
  assert (Hsplit : arr = firstn f arr ++ x :: skipn (S f) arr)
    by (apply nth_split_at; exact Hfn).
  assert (Hlen : List.length (firstn t rest ++ x :: skipn t rest) = List.length arr).
  { rewrite length_app. cbn [List.length]. rewrite length_firstn, length_skipn. lia. }
  assert (Hremove : JS.spliceRemove (firstn t rest ++ x :: skipn t rest) toIndex = rest).
  { unfold JS.spliceRemove. cbv zeta. rewrite Hlen.
    rewrite spliceStart_inside by lia. fold t. now apply remove_inserted. }
  rewrite E. repeat split.
  - exact Hlen.
  - rewrite Hsplit at 1.
    apply Permutation_trans with (x :: rest).
    + unfold rest. symmetry. apply Permutation_middle.
    + rewrite <- (firstn_skipn t rest) at 1. apply Permutation_middle.
  - unfold JS.index. destruct (Z.ltb_spec toIndex 0); [lia |].
    destruct (Z.ltb_spec fromIndex 0); [lia |]. fold t f.
    rewrite app_nth2; rewrite length_firstn; [| lia].
    replace (t - Nat.min t (List.length rest))%nat with 0%nat by lia. reflexivity.
  - rewrite Hremove. unfold JS.spliceRemove. cbv zeta.
    rewrite spliceStart_inside by lia. reflexivity.
  - unfold Utils.arrayMove. cbv zeta. rewrite Hremove.
    unfold JS.spliceInsert. cbv zeta. rewrite Hrest.
    rewrite spliceStart_inside by lia. fold f.
    assert (Hx : JS.index undefined (firstn t rest ++ x :: skipn t rest) toIndex = x).
    { unfold JS.index. destruct (Z.ltb_spec toIndex 0); [lia |]. fold t.
      rewrite app_nth2; rewrite length_firstn; [| lia].
      replace (t - Nat.min t (List.length rest))%nat with 0%nat by lia. reflexivity. }
    rewrite Hx. unfold rest, x. now apply insert_removed.
Qed.

Lemma arrayMove_moves_witness :
  Utils.arrayMove 0%Z [10; 20; 30; 40]%Z 0 2 = [20; 30; 10; 40]%Z
  /\ Utils.arrayMove 0%Z (Utils.arrayMove 0%Z [10; 20; 30; 40]%Z 0 2) 2 0
     = [10; 20; 30; 40]%Z.
Proof.
  split; [reflexivity |].
  apply (arrayMove_moves 0%Z [10; 20; 30; 40]%Z 0 2); cbn; lia.
Defined.

(** [Utils.arrayMove] with a [fromIndex] at or past the end removes
    nothing and inserts [undefined]: the array comes back one element
    longer. *)
Theorem arrayMove_from_outside {A : Type} (undefined : A) (arr : list A)
        (fromIndex toIndex : Z) :
  (Z.of_nat (List.length arr) <= fromIndex)%Z ->
  Utils.arrayMove undefined arr fromIndex toIndex
  = JS.spliceInsert arr toIndex undefined
  /\ List.length (Utils.arrayMove undefined arr fromIndex toIndex)
     = S (List.length arr)
  /\ In undefined (Utils.arrayMove undefined arr fromIndex toIndex).
Proof.
  intros Hf.
  assert (E : Utils.arrayMove undefined arr fromIndex toIndex
              = JS.spliceInsert arr toIndex undefined).
  { unfold Utils.arrayMove. cbv zeta.
    assert (Hi : JS.index undefined arr fromIndex = undefined).
    { unfold JS.index. destruct (Z.ltb_spec fromIndex 0); [reflexivity |].
      apply nth_overflow. lia. }
    assert (Hr : JS.spliceRemove arr fromIndex = arr).
    { unfold JS.spliceRemove, JS.spliceStart. cbv zeta.
      destruct (Z.ltb_spec fromIndex 0); [lia |].
      replace (Nat.min (Z.to_nat fromIndex) (List.length arr)) with (List.length arr)
        by lia.
      rewrite firstn_all, skipn_all2 by lia. apply app_nil_r. }
    now rewrite Hi, Hr. }
  rewrite E. unfold JS.spliceInsert. cbv zeta. repeat split.
  - rewrite length_app. cbn [List.length]. rewrite length_firstn, length_skipn.
    assert (JS.spliceStart (List.length arr) toIndex <= List.length arr)%nat; [| lia].
    unfold JS.spliceStart. destruct (Z.ltb_spec toIndex 0); lia.
  - apply in_or_app. right. now left.
Qed.

Lemma arrayMove_from_outside_witness :
  Utils.arrayMove 0%Z [10; 20]%Z 5 0 = [0; 10; 20]%Z.
Proof.
  apply (arrayMove_from_outside 0%Z [10; 20]%Z 5 0). cbn. lia.
Defined.

Section ArrayUnique.

Context {A K : Type} (same : K -> K -> bool) (keyOf : A -> K).
Hypothesis same_spec : forall a b, same a b = true <-> a = b.

Lemma seen_has (seen : list K) (k : K) : existsb (same k) seen = true <-> In k seen.
Proof.
  rewrite existsb_exists. split.
  - intros (x & Hx & Hs). apply same_spec in Hs. now subst.
  - intros H. exists k. split; [exact H | now apply same_spec].
Qed.

Lemma uniqueFilter_keys (arr : list A) (seen : list K) :
  let result := Utils.uniqueFilter same keyOf seen arr in
  NoDup (map keyOf result)
  /\ (forall k, In k (map keyOf result) <-> In k (map keyOf arr) /\ ~ In k seen).
Proof.
  cbv zeta. revert seen. induction arr as [| item rest IH]; intros seen.
  - cbn. split; [constructor | tauto].
  - cbn [Utils.uniqueFilter]. cbv zeta.
    destruct (existsb (same (keyOf item)) seen) eqn:E.
    + apply seen_has in E. destruct (IH seen) as [Hnd Hin]. split; [exact Hnd |].
      intros k. rewrite Hin. cbn [map In]. split; [tauto |].
      intros [[<- | H] Hs]; tauto.
    + assert (Hns : ~ In (keyOf item) seen).
      { intros H. apply seen_has in H. congruence. }
      destruct (IH (seen ++ [keyOf item])) as [Hnd Hin]. split.
      * cbn [map]. constructor; [| exact Hnd].
        intros H. apply Hin in H. destruct H as [_ H]. apply H.
        apply in_or_app. right. now left.
      * intros k. cbn [map In]. rewrite Hin, in_app_iff. cbn [In]. split.
        -- intros [<- | [H1 H2]]; tauto.
        -- intros [[<- | H] Hs]; [now left |].
           destruct (same k (keyOf item)) eqn:Ek.
           ++ apply same_spec in Ek. now left.
           ++ right. split; [exact H |]. intros [H' | [H' | []]]; [tauto |].
              assert (same k (keyOf item) = true) by (apply same_spec; congruence).
              congruence.
Qed.

Lemma uniqueFilter_first (arr : list A) (seen : list K) (item : A) :
  In item (Utils.uniqueFilter same keyOf seen arr) ->
  exists before after,
    arr = before ++ item :: after /\ ~ In (keyOf item) (map keyOf before).
Proof.
  revert seen. induction arr as [| x rest IH]; intros seen H; [destruct H |].
  cbn [Utils.uniqueFilter] in H. cbv zeta in H.
  destruct (existsb (same (keyOf x)) seen) eqn:E.
  - destruct (IH seen H) as (before & after & -> & Hb).
    pose proof (uniqueFilter_keys (before ++ item :: after) seen) as [_ Hin].
    cbv zeta in Hin.
    assert (Hk : ~ In (keyOf item) seen).
    { apply (Hin (keyOf item)). now apply in_map. }
    exists (x :: before), after. split; [reflexivity |].
    cbn [map In]. intros [Hx | Hx]; [| tauto].
    apply seen_has in E. congruence.
  - destruct H as [<- | H].
    + exists [], rest. split; [reflexivity | intros []].
    + destruct (IH _ H) as (before & after & -> & Hb).
      pose proof (uniqueFilter_keys (before ++ item :: after) (seen ++ [keyOf x]))
        as [_ Hin].
      cbv zeta in Hin.
      assert (Hk : ~ In (keyOf item) (seen ++ [keyOf x])).
      { apply (Hin (keyOf item)). now apply in_map. }
      exists (x :: before), after. split; [reflexivity |].
      cbn [map In]. intros [Hx | Hx]; [| tauto].
      apply Hk. apply in_or_app. right. now left.
Qed.

Lemma uniqueFilter_distinct (arr : list A) (seen : list K) :
  NoDup (map keyOf arr) -> (forall k, In k (map keyOf arr) -> ~ In k seen) ->
  Utils.uniqueFilter same keyOf seen arr = arr.
Proof.
  revert seen. induction arr as [| x rest IH]; intros seen Hnd Hs; [reflexivity |].
  cbn [Utils.uniqueFilter]. cbv zeta. cbn [map] in Hnd, Hs.
  apply NoDup_cons_iff in Hnd. destruct Hnd as [Hx Hnd].
  destruct (existsb (same (keyOf x)) seen) eqn:E.
  - apply seen_has in E. exfalso. apply (Hs (keyOf x)); [now left | exact E].
  - f_equal. apply IH; [exact Hnd |].
    intros k Hk Hin. apply in_app_iff in Hin. destruct Hin as [Hin | [<- | []]].
    + apply (Hs k); [now right | exact Hin].
    + contradiction.
Qed.

End ArrayUnique.

(** X24.  [Utils.arrayUnique(arr, key)], for values of [item[key]] that
    the [Set] compares by equality: the result holds each key value of
    [arr] exactly once, the item kept for a value is the first one of [arr]
    that has it, an array without repeated key values comes back as it is,
    and a second call changes nothing. *)
Theorem arrayUnique_first_of_each_key
        {A K : Type} (sameItem : A -> A -> bool) (sameKey : K -> K -> bool)
        (keyOf : A -> K) (arr : list A) :
  (forall a b, sameKey a b = true <-> a = b) ->
  let result := Utils.arrayUnique sameItem sameKey arr (Some keyOf) in
  NoDup (map keyOf result)
  /\ (forall k, In k (map keyOf result) <-> In k (map keyOf arr))
  /\ (forall item, In item result ->
        exists before after,
          arr = before ++ item :: after /\ ~ In (keyOf item) (map keyOf before))
  /\ (NoDup (map keyOf arr) -> result = arr)
  /\ Utils.arrayUnique sameItem sameKey result (Some keyOf) = result.
Proof.
  intros Hsame. cbv zeta. unfold Utils.arrayUnique.
  destruct (uniqueFilter_keys sameKey keyOf Hsame arr []) as [Hnd Hin].
  cbv zeta in Hnd, Hin.
  split; [exact Hnd |]. split; [| split; [| split]].
  - intros k. rewrite Hin. cbn [In]. tauto.
  - intros item. apply (uniqueFilter_first sameKey keyOf Hsame).
  - intros H. apply (uniqueFilter_distinct sameKey keyOf Hsame); [exact H |].
    intros k _ [].
  - apply (uniqueFilter_distinct sameKey keyOf Hsame); [exact Hnd |].
    intros k _ [].
Qed.

Lemma arrayUnique_first_of_each_key_witness :
  Utils.arrayUnique
    (fun a b : Z * Z => (fst a =? fst b)%Z && (snd a =? snd b)%Z) Z.eqb
    (Utils.arrayUnique
       (fun a b : Z * Z => (fst a =? fst b)%Z && (snd a =? snd b)%Z) Z.eqb
       [(1, 10); (2, 20); (1, 30)]%Z (Some fst))
    (Some fst)
  = Utils.arrayUnique
      (fun a b : Z * Z => (fst a =? fst b)%Z && (snd a =? snd b)%Z) Z.eqb
      [(1, 10); (2, 20); (1, 30)]%Z (Some fst).
Proof.
  apply (arrayUnique_first_of_each_key
           (fun a b : Z * Z => (fst a =? fst b)%Z && (snd a =? snd b)%Z) Z.eqb
           fst [(1, 10); (2, 20); (1, 30)]%Z Z.eqb_eq).
Defined.

(** ** The cache of the database *)

Lemma sameUnits_spec (a b : list N) : JS.sameUnits a b = true <-> a = b.
Proof.
  revert b. induction a as [| u a IH]; intros [| v b]; cbn [JS.sameUnits];
    try (split; [discriminate | discriminate]); [tauto |].
  rewrite andb_true_iff, N.eqb_eq, IH. split.
  - intros [-> ->]. reflexivity.
  - intros E. injection E as -> ->. split; reflexivity.
Qed.

Lemma sameUnits_refl (a : list N) : JS.sameUnits a a = true.
Proof. now apply sameUnits_spec. Qed.

Lemma sameUnits_neq (a b : list N) : a <> b -> JS.sameUnits a b = false.
Proof.
  intros H. destruct (JS.sameUnits a b) eqn:E; [| reflexivity].
  apply sameUnits_spec in E. contradiction.
Qed.

Lemma mapGet_set_same {V : Type} (m : list (list N * V)) (key : list N) (value : V) :
  JS.mapGet (JS.mapSet m key value) key = Some value.
Proof.
  induction m as [| [k v] rest IH]; cbn [JS.mapSet JS.mapGet].
  - now rewrite sameUnits_refl.
  - destruct (JS.sameUnits k key) eqn:E; cbn [JS.mapGet]; rewrite E; [reflexivity | exact IH].
Qed.

Lemma mapGet_set_other {V : Type} (m : list (list N * V)) (key other : list N) (value : V) :
  other <> key -> JS.mapGet (JS.mapSet m key value) other = JS.mapGet m other.
Proof.
  intros Hne. induction m as [| [k v] rest IH]; cbn [JS.mapSet JS.mapGet].
  - rewrite sameUnits_neq by congruence. reflexivity.
  - destruct (JS.sameUnits k key) eqn:E; cbn [JS.mapGet].
    + apply sameUnits_spec in E. subst k.
      rewrite sameUnits_neq by congruence. reflexivity.
    + destruct (JS.sameUnits k other); [reflexivity | exact IH].
Qed.

Lemma mapGet_None {V : Type} (m : list (list N * V)) (key : list N) :
  ~ In key (map fst m) -> JS.mapGet m key = None.
Proof.
  induction m as [| [k v] rest IH]; intros H; [reflexivity |].
  cbn [JS.mapGet]. cbn [map fst In] in H.
  rewrite sameUnits_neq by tauto. apply IH. tauto.
Qed.

Lemma mapGet_Some_In {V : Type} (m : list (list N * V)) (key : list N) (v : V) :
  JS.mapGet m key = Some v -> In key (map fst m).
Proof.
  induction m as [| [k w] rest IH]; cbn [JS.mapGet]; [discriminate |].
  destruct (JS.sameUnits k key) eqn:E.
  - apply sameUnits_spec in E. intros _. now left.
  - intros H. right. now apply IH.
Qed.

Lemma mapDelete_keys {V : Type} (m : list (list N * V)) (key k : list N) :
  In k (map fst (JS.mapDelete m key)) -> In k (map fst m).
Proof.
  induction m as [| [k0 v] rest IH]; cbn [JS.mapDelete]; [tauto |].
  destruct (JS.sameUnits k0 key); cbn [map fst In]; tauto.
Qed.

Lemma mapDelete_NoDup {V : Type} (m : list (list N * V)) (key : list N) :
  NoDup (map fst m) -> NoDup (map fst (JS.mapDelete m key)).
Proof.
  induction m as [| [k v] rest IH]; cbn [JS.mapDelete map fst]; intros H; [exact H |].
  apply NoDup_cons_iff in H. destruct H as [Hk Hrest].
  destruct (JS.sameUnits k key); [exact Hrest |].
  cbn [map fst]. constructor; [| now apply IH].
  intros Hin. apply Hk. now apply mapDelete_keys in Hin.
Qed.

Lemma mapGet_delete {V : Type} (m : list (list N * V)) (key other : list N) :
  NoDup (map fst m) ->
  JS.mapGet (JS.mapDelete m key) other
  = if JS.sameUnits key other then None else JS.mapGet m other.
Proof.
  induction m as [| [k v] rest IH]; cbn [JS.mapDelete JS.mapGet map fst]; intros H.
  - now destruct (JS.sameUnits key other).
  - apply NoDup_cons_iff in H. destruct H as [Hk Hrest].
    destruct (JS.sameUnits k key) eqn:E.
    + apply sameUnits_spec in E. subst k.
      destruct (JS.sameUnits key other) eqn:E2; [| reflexivity].
      apply sameUnits_spec in E2. subst other. now apply mapGet_None.
    + cbn [JS.mapGet]. destruct (JS.sameUnits k other) eqn:E2; [| now apply IH].
      apply sameUnits_spec in E2. subst other.
      destruct (JS.sameUnits key k) eqn:E3; [| reflexivity].
      apply sameUnits_spec in E3. subst key. now rewrite sameUnits_refl in E.
Qed.

Lemma mapGet_delete_all {V : Type} (keys : list (list N)) (m : list (list N * V))
      (other : list N) :
  NoDup (map fst m) ->
  JS.mapGet (fold_left (fun m key => JS.mapDelete m key) keys m) other
  = if existsb (fun key => JS.sameUnits key other) keys then None else JS.mapGet m other.
Proof.
  revert m. induction keys as [| key keys IH]; intros m H; [reflexivity |].
  cbn [fold_left existsb]. rewrite IH by now apply mapDelete_NoDup.
  rewrite mapGet_delete by exact H.
  destruct (JS.sameUnits key other); cbn [orb]; [| reflexivity].
  now destruct (existsb _ keys).
Qed.

Lemma mapGet_invalidate (cache : Database.Cache) (path key : list N) :
  NoDup (map fst cache) ->
  JS.mapGet (Database.invalidateCache cache path) key
  = if overlap key path then None else JS.mapGet cache key.
Proof.
  intros H. unfold Database.invalidateCache. cbv zeta.
  rewrite mapGet_delete_all by exact H.
  destruct (existsb _ _) eqn:E.
  - apply existsb_exists in E. destruct E as (k & Hk & Hs).
    apply sameUnits_spec in Hs. subst k. apply filter_In in Hk.
    destruct Hk as [_ Hk]. unfold overlap. now rewrite Hk.
  - destruct (overlap key path) eqn:Eo; [| reflexivity].
    destruct (JS.mapGet cache key) as [v |] eqn:Eg; [| reflexivity].
    exfalso. apply mapGet_Some_In in Eg.
    assert (Hin : In key (filter (fun key => JS.startsWith key path
                                             || JS.startsWith path key)
                                 (map fst cache)))
      by (apply filter_In; split; assumption).
    assert (Ht : existsb (fun k => JS.sameUnits k key)
                         (filter (fun key => JS.startsWith key path
                                             || JS.startsWith path key)
                                 (map fst cache)) = true).
    { apply existsb_exists. exists key. split; [exact Hin | apply sameUnits_refl]. }
    congruence.
Qed.

Lemma startsWith_refl (s : list N) : JS.startsWith s s = true.
Proof.
  induction s as [| u s IH]; [reflexivity |]. cbn [JS.startsWith].
  now rewrite N.eqb_refl, IH.
Qed.

Lemma startsWith_app (s prefix : list N) :
  JS.startsWith s prefix = true <-> exists rest, s = prefix ++ rest.
Proof.
  revert s. induction prefix as [| p prefix IH]; intros s.
  - cbn [JS.startsWith]. split; [intros _; now exists s | reflexivity].
  - destruct s as [| u s]; cbn [JS.startsWith].
    + split; [discriminate | intros [rest E]; discriminate E].
    + rewrite andb_true_iff, N.eqb_eq, IH. split.
      * intros [-> [rest ->]]. now exists rest.
      * intros [rest E]. injection E as -> ->. split; [reflexivity | now exists rest].
Qed.



Lemma mapSet_keys {V : Type} (m : list (list N * V)) (key : list N) (value : V) (k : list N) :
  In k (map fst (JS.mapSet m key value)) -> k = key \/ In k (map fst m).
Proof.
  induction m as [| [k0 v] rest IH]; cbn [JS.mapSet map fst In].
  - intros [<- | []]. now left.
  - destruct (JS.sameUnits k0 key); cbn [map fst In]; tauto.
Qed.

Lemma mapSet_NoDup {V : Type} (m : list (list N * V)) (key : list N) (value : V) :
  NoDup (map fst m) -> NoDup (map fst (JS.mapSet m key value)).
Proof.
  induction m as [| [k v] rest IH]; cbn [JS.mapSet map fst]; intros H.
  - constructor; [intros [] | constructor].
  - destruct (JS.sameUnits k key) eqn:E; [exact H |].
    apply NoDup_cons_iff in H. destruct H as [Hk Hrest].
    cbn [map fst]. constructor; [| now apply IH].
    intros Hin. apply mapSet_keys in Hin. destruct Hin as [-> | Hin]; [| tauto].
    now rewrite sameUnits_refl in E.
Qed.

Lemma invalidateCache_NoDup (cache : Database.Cache) (path : list N) :
  NoDup (map fst cache) -> NoDup (map fst (Database.invalidateCache cache path)).
Proof.
  unfold Database.invalidateCache. cbv zeta.
  generalize (filter (fun key => JS.startsWith key path || JS.startsWith path key)
                     (map fst cache)).
  intros keys. revert cache. induction keys as [| key keys IH]; intros cache H; [exact H |].
  cbn [fold_left]. apply IH. now apply mapDelete_NoDup.
Qed.

Lemma getFromCache_invalidated (cache : Database.Cache) (path key : list N) (t : Z) :
  NoDup (map fst cache) -> overlap key path = true ->
  Database.getFromCache (Database.invalidateCache cache path) t key = Database.Null.
Proof.
  intros H Ho. unfold Database.getFromCache.
  now rewrite mapGet_invalidate, Ho by exact H.
Qed.

Lemma overlap_extension (path suffix : list N) :
  overlap (path ++ suffix) path = true /\ overlap path (path ++ suffix) = true.
Proof.
  assert (E : JS.startsWith (path ++ suffix) path = true)
    by (apply startsWith_app; now exists suffix).
  unfold overlap. rewrite E. split; [reflexivity | apply orb_true_r].
Qed.

(** X25.  A successful [set] or [remove] through [executeOperation]
    empties the cache of the path written and of every path that starts
    with it or that it starts with, and of no other path: a later [get] of
    such a path is answered by Firebase, never by a value cached before the
    write.  The test compares the characters of the two paths, whatever
    follows the common part. *)
Theorem write_invalidates_overlapping_paths
        (cache : Database.Cache) (now fetched : Z) (operation : string)
        (path : list N) (data written : Database.Value) :
  NoDup (map fst cache) ->
  operation = "set" \/ operation = "remove" ->
  let after :=
    snd (Database.executeOperation cache None now fetched operation path data
                                   (Database.Resolves written)) in
  NoDup (map fst after)
  /\ (forall key, overlap key path = true ->
      forall (t t' : Z) (result : Database.Value),
        Database.getFromCache after t key = Database.Null
        /\ Database.executeOperation after None t t' "get" key Database.Null
                                     (Database.Resolves result)
           = (Utils.Success result "Data retrieved successfully",
              Database.setCache after t' key result))
  /\ (forall key, overlap key path = false -> JS.mapGet after key = JS.mapGet cache key)
  /\ (forall suffix, overlap (path ++ suffix) path = true
                     /\ overlap path (path ++ suffix) = true).
Proof.
  intros Hnd Hop. cbv zeta.
  assert (E : snd (Database.executeOperation cache None now fetched operation path data
                                             (Database.Resolves written))
              = Database.invalidateCache cache path).
  { destruct Hop as [-> | ->]; reflexivity. }
  rewrite E. split; [now apply invalidateCache_NoDup |].
  split; [| split].
  - intros key Ho t t' result.
    pose proof (getFromCache_invalidated cache path key t Hnd Ho) as Hg.
    split; [exact Hg |].
    unfold Database.executeOperation. cbv zeta. cbn [String.eqb Ascii.eqb Bool.eqb].
    rewrite Hg. reflexivity.
  - intros key Ho. now rewrite mapGet_invalidate, Ho by exact Hnd.
  - apply overlap_extension.
Qed.

Lemma write_invalidates_overlapping_paths_witness :
  Database.getFromCache
    (snd (Database.executeOperation
            [(JS.units "users_backup", Database.Cached.mk (Database.Number 1) 0)]
            None 10 10 "set" (JS.units "users") Database.Null
            (Database.Resolves Database.Null)))
    20 (JS.units "users_backup")
  = Database.Null.
Proof.
  destruct (write_invalidates_overlapping_paths
              [(JS.units "users_backup", Database.Cached.mk (Database.Number 1) 0)]
              10 10 "set" (JS.units "users") Database.Null Database.Null)
    as (_ & H & _).
  - repeat constructor. intros [].
  - now left.
  - exact (proj1 (H (JS.units "users_backup") eq_refl 20%Z 20%Z Database.Null)).
Defined.

(** X26.  A [get] that misses the cache returns what Firebase returns and
    stores it.  If that value is truthy, a [get] of the same path less than
    five minutes after the store returns it from the cache and Firebase is
    not consulted; from five minutes on, or if the value stored is falsy
    ([null], [false], 0, the empty string), the next [get] asks Firebase
    again. *)
Theorem get_is_cached_for_five_minutes
        (cache : Database.Cache) (now fetched later later' : Z) (path : list N)
        (result : Database.Value) :
  Database.truthy (Database.getFromCache cache now path) = false ->
  let first :=
    Database.executeOperation cache None now fetched "get" path Database.Null
                              (Database.Resolves result) in
  fst first = Utils.Success result "Data retrieved successfully"
  /\ (Database.truthy result = true -> (later - fetched < 300000)%Z ->
      forall firebase,
        Database.executeOperation (snd first) None later later' "get" path Database.Null
                                  firebase
        = (Utils.Success result "Data retrieved from cache", snd first))
  /\ (Database.truthy result = false \/ (300000 <= later - fetched)%Z ->
      forall value,
        Database.executeOperation (snd first) None later later' "get" path Database.Null
                                  (Database.Resolves value)
        = (Utils.Success value "Data retrieved successfully",
           Database.setCache (snd first) later' path value)).
Proof.
  intros Hmiss. cbv zeta.
  assert (E : Database.executeOperation cache None now fetched "get" path Database.Null
                                        (Database.Resolves result)
              = (Utils.Success result "Data retrieved successfully",
                 Database.setCache cache fetched path result)).
  { unfold Database.executeOperation. cbv zeta. cbn [String.eqb Ascii.eqb Bool.eqb].
    now rewrite Hmiss. }
  rewrite E. cbn [fst snd]. split; [reflexivity |].
  assert (Hget : Database.getFromCache (Database.setCache cache fetched path result)
                                       later path
                 = if (later - fetched <? Database.cacheTimeout)%Z
                   then result else Database.Null).
  { unfold Database.getFromCache, Database.setCache. now rewrite mapGet_set_same. }
  change Database.cacheTimeout with 300000%Z in Hget.
  split.
  - intros Ht Hlt firebase.
    unfold Database.executeOperation. cbv zeta. cbn [String.eqb Ascii.eqb Bool.eqb].
    rewrite Hget. destruct (Z.ltb_spec (later - fetched) 300000); [| lia].
    now rewrite Ht.
  - intros Hcase value.
    unfold Database.executeOperation. cbv zeta. cbn [String.eqb Ascii.eqb Bool.eqb].
    rewrite Hget. destruct (Z.ltb_spec (later - fetched) 300000).
    + destruct Hcase as [Hf | Hge]; [| lia]. now rewrite Hf.
    + reflexivity.
Qed.

Lemma get_is_cached_for_five_minutes_witness :
  fst (Database.executeOperation [] None 0 5 "get" (JS.units "users") Database.Null
                                 (Database.Resolves (Database.Number 7)))
  = Utils.Success (Database.Number 7) "Data retrieved successfully".
Proof.
  apply (get_is_cached_for_five_minutes [] 0 5 6 6 (JS.units "users")
                                        (Database.Number 7)).
  reflexivity.
Defined.

(** ** Rate limiting of logins *)

Lemma mapSet_same {V : Type} (m : list (list N * V)) (key : list N) (value : V) :
  JS.mapGet m key = Some value -> JS.mapSet m key value = m.
Proof.
  induction m as [| [k v] rest IH]; cbn [JS.mapGet JS.mapSet]; [discriminate |].
  destruct (JS.sameUnits k key) eqn:E.
  - intros [= ->]. reflexivity.
  - intros H. now rewrite IH.
Qed.

(** One failed login under an identifier that is not locked and whose
    window has not expired. *)
Lemma failed_login_counts (attempts : Auth.Attempts) (now recorded : Z)
      (username : list N) (count first locked : Z) :
  JS.mapGet attempts (Auth.identifierOf username)
  = Some (Auth.Attempt.mk count first locked) ->
  (locked <= now)%Z -> (now - first <= 900000)%Z -> (count < 5)%Z ->
  JS.mapGet
    (snd (Auth.loginWithRateLimit
            attempts now recorded username
            (Utils.Failure "Contraseña incorrecta" "Login" : Utils.Response unit)))
    (Auth.identifierOf username)
  = Some (Auth.Attempt.mk (count + 1) first
                          (if (5 <=? count + 1)%Z then recorded + 900000 else locked)%Z).
Proof.
  intros Hget Hlock Hwin Hcount.
  unfold Auth.loginWithRateLimit, Auth.check. cbv zeta. rewrite Hget.
  cbn [Auth.Attempt.lockedUntil Auth.Attempt.firstAttempt Auth.Attempt.count].
  destruct (Z.ltb_spec now locked); [lia |].
  change Auth.lockoutTime with 900000%Z. change Auth.maxAttempts with 5%Z.
  destruct (Z.ltb_spec 900000 (now - first)); [lia |].
  cbn [Auth.Attempt.count Auth.RateCheck.allowed].
  destruct (Z.ltb_spec count 5); [| lia].
  cbn [negb Utils.success snd].
  rewrite (mapSet_same attempts _ _ Hget).
  unfold Auth.record. cbv zeta. rewrite Hget.
  cbn [Auth.Attempt.lockedUntil Auth.Attempt.firstAttempt Auth.Attempt.count].
  change Auth.lockoutTime with 900000%Z. change Auth.maxAttempts with 5%Z.
  apply mapGet_set_same.
Qed.

Lemma first_failed_login (attempts : Auth.Attempts) (now recorded : Z) (username : list N) :
  JS.mapGet attempts (Auth.identifierOf username) = None -> (0 <= now)%Z ->
  JS.mapGet
    (snd (Auth.loginWithRateLimit
            attempts now recorded username
            (Utils.Failure "Contraseña incorrecta" "Login" : Utils.Response unit)))
    (Auth.identifierOf username)
  = Some (Auth.Attempt.mk 1 recorded 0).
Proof.
  intros Hget Hnow.
  unfold Auth.loginWithRateLimit, Auth.check. cbv zeta. rewrite Hget.
  cbn [Auth.Attempt.lockedUntil Auth.Attempt.firstAttempt Auth.Attempt.count].
  destruct (Z.ltb_spec now 0); [lia |].
  change Auth.lockoutTime with 900000%Z. change Auth.maxAttempts with 5%Z.
  destruct (Z.ltb_spec 900000 (now - now)); [lia |].
  cbn [Auth.Attempt.count Auth.RateCheck.allowed negb Utils.success snd].
  unfold Auth.record. cbv zeta. rewrite Hget.
  cbn [Auth.Attempt.lockedUntil Auth.Attempt.firstAttempt Auth.Attempt.count].
  apply mapGet_set_same.
Qed.

Lemma locked_login_refused {A : Type} (attempts : Auth.Attempts) (t t' : Z)
      (username : list N) (count first locked : Z) (login : Utils.Response A) :
  JS.mapGet attempts (Auth.identifierOf username)
  = Some (Auth.Attempt.mk count first locked) ->
  (t < locked <= t + 900000)%Z ->
  exists minutes : Z,
    (1 <= minutes <= 15)%Z
    /\ Auth.loginWithRateLimit attempts t t' username login
       = (Utils.Failure
            ("Demasiados intentos. Inténtalo de nuevo en "
               ++ JS.string_of_Z minutes ++ " minutos.")
            "Rate limit",
          attempts).
Proof.
  intros Hget Ht.
  exists (- ((t - locked) / 60000))%Z.
  assert (Hm : (1 <= - ((t - locked) / 60000) <= 15)%Z).
  { pose proof (Z.div_mod (t - locked) 60000 ltac:(lia)).
    pose proof (Z.mod_pos_bound (t - locked) 60000 ltac:(lia)). lia. }
  split; [exact Hm |].
  unfold Auth.loginWithRateLimit, Auth.check. cbv zeta. rewrite Hget.
  cbn [Auth.Attempt.lockedUntil].
  destruct (Z.ltb_spec t locked); [| lia].
  cbn [Auth.RateCheck.allowed Auth.RateCheck.remainingTime negb].
  destruct (Z.eqb_spec (- ((t - locked) / 60000)) 0); [lia |].
  reflexivity.
Qed.

(** X27.  Five failed logins under one user name, the first of them with
    no record yet and all checked within 15 minutes of the first record,
    lock the name: from the fifth record and for the next 15 minutes
    [loginWithRateLimit] answers with the rate-limit error and the minutes
    left (1 to 15), whatever the login itself would return, and leaves the
    attempts as they are. *)
Theorem five_failures_lock_out
        {A : Type} (attempts : Auth.Attempts) (username : list N)
        (n1 r1 n2 r2 n3 r3 n4 r4 n5 r5 t t' : Z) (login : Utils.Response A) :
  JS.mapGet attempts (Auth.identifierOf username) = None ->
  (0 <= n1 <= r1)%Z -> (r1 <= n2 <= r2)%Z -> (r2 <= n3 <= r3)%Z ->
  (r3 <= n4 <= r4)%Z -> (r4 <= n5 <= r5)%Z ->
  (n5 - r1 <= 900000)%Z ->
  (r5 <= t < r5 + 900000)%Z ->
  let locked :=
    failedLogins attempts username [(n1, r1); (n2, r2); (n3, r3); (n4, r4); (n5, r5)] in
  exists minutes : Z,
    (1 <= minutes <= 15)%Z
    /\ Auth.loginWithRateLimit locked t t' username login
       = (Utils.Failure
            ("Demasiados intentos. Inténtalo de nuevo en "
               ++ JS.string_of_Z minutes ++ " minutos.")
            "Rate limit",
          locked).
Proof.
  intros Hnone H1 H2 H3 H4 H5 Hwin Ht. cbv zeta.
  unfold failedLogins. cbn [fold_left fst snd].
  pose proof (first_failed_login attempts n1 r1 username Hnone ltac:(lia)) as S1.
  set (a1 := snd (Auth.loginWithRateLimit attempts n1 r1 username _)) in *.
  pose proof (failed_login_counts a1 n2 r2 username 1 r1 0 S1
                                  ltac:(lia) ltac:(lia) ltac:(lia)) as S2.
  set (a2 := snd (Auth.loginWithRateLimit a1 n2 r2 username _)) in *.
  pose proof (failed_login_counts a2 n3 r3 username 2 r1 0 S2
                                  ltac:(lia) ltac:(lia) ltac:(lia)) as S3.
  set (a3 := snd (Auth.loginWithRateLimit a2 n3 r3 username _)) in *.
  pose proof (failed_login_counts a3 n4 r4 username 3 r1 0 S3
                                  ltac:(lia) ltac:(lia) ltac:(lia)) as S4.
  set (a4 := snd (Auth.loginWithRateLimit a3 n4 r4 username _)) in *.
  pose proof (failed_login_counts a4 n5 r5 username 4 r1 0 S4
                                  ltac:(lia) ltac:(lia) ltac:(lia)) as S5.
  set (a5 := snd (Auth.loginWithRateLimit a4 n5 r5 username _)) in *.
  cbn in S2, S3, S4, S5.
  apply (locked_login_refused a5 t t' username 5 r1 (r5 + 900000) login S5). lia.
Qed.

Lemma five_failures_lock_out_witness :
  exists minutes : Z,
    (1 <= minutes <= 15)%Z
    /\ Auth.loginWithRateLimit
         (failedLogins [] (JS.units "admin_igp")
                       [(0, 1); (2, 3); (4, 5); (6, 7); (8, 9)]%Z)
         10 11 (JS.units "admin_igp") (Utils.Success tt "Login exitoso")
       = (Utils.Failure
            ("Demasiados intentos. Inténtalo de nuevo en "
               ++ JS.string_of_Z minutes ++ " minutos.")
            "Rate limit",
          failedLogins [] (JS.units "admin_igp")
                       [(0, 1); (2, 3); (4, 5); (6, 7); (8, 9)]%Z).
Proof.
  apply (five_failures_lock_out [] (JS.units "admin_igp")
                                0 1 2 3 4 5 6 7 8 9 10 11
                                (Utils.Success tt "Login exitoso"));
    try lia.
  reflexivity.
Defined.

Lemma trim_leading_space (s : list N) : JS.trim (32%N :: s) = JS.trim s.
Proof. reflexivity. Qed.

(** X28.  The rate limiter is keyed on the user name as typed, the login
    on the trimmed one: a name with a space in front is validated like the
    name itself, but counts as another identifier, and with no record of its
    own it is let through whatever the record of the name is. *)
Theorem rate_limit_keyed_on_typed_name
        {A : Type} (attempts : Auth.Attempts) (t t' : Z)
        (username password : list N) (login : Utils.Response A) :
  username <> [] ->
  JS.mapGet attempts (Auth.identifierOf (32%N :: username)) = None ->
  (0 <= t)%Z ->
  Auth.validateLogin (32%N :: username) password = Auth.validateLogin username password
  /\ Auth.identifierOf (32%N :: username) <> Auth.identifierOf username
  /\ fst (Auth.loginWithRateLimit attempts t t' (32%N :: username) login) = login.
Proof.
  intros Hne Hnone Ht. split; [| split].
  - unfold Auth.validateLogin. rewrite trim_leading_space.
    destruct username; [congruence | reflexivity].
  - unfold Auth.identifierOf. cbv zeta.
    change (32%N :: username) with ([32%N] ++ username).
    rewrite sanitizeInput_app. change (Utils.sanitizeInput [32%N]) with [32%N].
    cbn [app List.length Nat.eqb].
    pose proof (sanitizeInput_length username) as Hlen.
    destruct username as [| u rest]; [congruence |]. cbn [List.length] in Hlen.
    destruct (Utils.sanitizeInput (u :: rest)) as [| v s] eqn:E; [cbn in Hlen; lia |].
    cbn [List.length Nat.eqb]. intros H.
    apply (f_equal (@List.length N)) in H. cbn [List.length] in H. lia.
  - unfold Auth.loginWithRateLimit, Auth.check. cbv zeta. rewrite Hnone.
    cbn [Auth.Attempt.lockedUntil Auth.Attempt.firstAttempt Auth.Attempt.count].
    destruct (Z.ltb_spec t 0); [lia |].
    change Auth.lockoutTime with 900000%Z. change Auth.maxAttempts with 5%Z.
    destruct (Z.ltb_spec 900000 (t - t)); [lia |].
    cbn [Auth.Attempt.count Auth.RateCheck.allowed negb].
    destruct (Utils.success login); reflexivity.
Qed.

Lemma rate_limit_keyed_on_typed_name_witness :
  fst (Auth.loginWithRateLimit
         (failedLogins [] (JS.units "admin_igp")
                       [(0, 1); (2, 3); (4, 5); (6, 7); (8, 9)]%Z)
         10 11 (32%N :: JS.units "admin_igp") (Utils.Success tt "Login exitoso"))
  = Utils.Success tt "Login exitoso".
Proof.
  apply (rate_limit_keyed_on_typed_name
           (failedLogins [] (JS.units "admin_igp")
                         [(0, 1); (2, 3); (4, 5); (6, 7); (8, 9)]%Z)
           10 11 (JS.units "admin_igp") (JS.units "abcdef")
           (Utils.Success tt "Login exitoso")).
  - discriminate.
  - reflexivity.
  - lia.
Defined.

(** ** The strategy page *)

Lemma catalog_laps (circuit : string) (c : Circuit.t) :
  JS.get Calculations.circuitsData circuit = Some c -> (10 <= Circuit.laps c)%Z.
Proof.
  intros H. apply get_In in H.
  assert (F : Forall (fun kc => (10 <= Circuit.laps (snd kc))%Z) Calculations.circuitsData).
  { unfold Calculations.circuitsData, Config.getCircuitsData.
    repeat (constructor; [cbn; lia |]). constructor. }
  rewrite Forall_forall in F. exact (F _ H).
Qed.

(** A candidate of the generator is a balanced split that passed the
    tests. *)
Lemma generateStrategies_balanced
      (circuit : string) (totalLaps : Z) (tyrePoints fuelPoints : R)
      (maxStints : Z) (compounds : list string) (minLength maxLength : Z)
      (strategy : Calculations.Strategy.t) :
  In strategy (Calculations.generateStrategies circuit totalLaps tyrePoints fuelPoints
                                               maxStints compounds minLength maxLength) ->
  exists (numStints : Z) (compound : string),
    (1 <= numStints <= maxStints)%Z
    /\ (minLength <= totalLaps / numStints <= maxLength)%Z
    /\ strategy = Calculations.createBalancedStrategy circuit totalLaps numStints compound
                                                      tyrePoints fuelPoints
    /\ Calculations.validateStrategy strategy totalLaps = true.
Proof.
  rewrite generateStrategies_flat_map. intros Hs.
  apply in_flat_map in Hs. destruct Hs as (numStints & Hn & Hs).
  destruct ((minLength <=? totalLaps / numStints)%Z
            && (totalLaps / numStints <=? maxLength)%Z) eqn:Havg; [| destruct Hs].
  apply andb_true_iff in Havg. destruct Havg as [Hlo Hhi].
  apply Z.leb_le in Hlo, Hhi. apply In_stintCounts in Hn.
  apply in_flat_map in Hs. destruct Hs as (compound & _ & Hs). cbv zeta in Hs.
  destruct (Calculations.validateStrategy _ totalLaps) eqn:Hv; [| destruct Hs].
  destruct Hs as [<- | []].
  exists numStints, compound. repeat split; try assumption; lia.
Qed.

Lemma createBalancedStrategy_stints
      (circuit : string) (totalLaps numStints : Z) (compound : string)
      (tyrePoints fuelPoints : R) :
  (1 <= numStints <= totalLaps)%Z ->
  Forall (balancedStint totalLaps numStints compound)
         (Calculations.Strategy.stints
            (Calculations.createBalancedStrategy circuit totalLaps numStints compound
                                                 tyrePoints fuelPoints)).
Proof.
  intros Hn. unfold Calculations.createBalancedStrategy.
  cbn [Calculations.Strategy.stints].
  pose proof (Z.div_mod totalLaps numStints ltac:(lia)) as Hdm.
  pose proof (Z.mod_pos_bound totalLaps numStints ltac:(lia)) as Hmb.
  destruct (balancedStints_shape totalLaps numStints compound
                                 (Z.to_nat numStints) 0 totalLaps []) as [H _].
  - lia.
  - lia.
  - rewrite Z2Nat.id by lia. nia.
  - constructor.
  - exact H.
Qed.

(** What the application reads from the recommendation on a circuit of
    the catalog. *)
Lemma recommended_on_catalog (circuit : string) (c : Circuit.t) (tyrePoints fuelPoints : R) :
  JS.get Calculations.circuitsData circuit = Some c ->
  exists (data : Calculations.Optimization.t) (message : string)
         (best : Calculations.Evaluated.t),
    Calculations.optimizeStrategy
      circuit (Circuit.laps c) tyrePoints fuelPoints
      (Calculations.Constraints.mk
         (Some 3%Z) (Some ["M"; "S"; "H"]) (Some 5%Z)
         (Some (JS.floor (IZR (Circuit.laps c) * 0.7))))
    = Utils.Success data message
    /\ Calculations.Optimization.recommended data = Some best
    /\ sumZ (map Calculations.Stint.laps (Calculations.Evaluated.stints best))
       = Circuit.laps c
    /\ (2 <= List.length (Calculations.Evaluated.stints best) <= 3)%nat
    /\ Forall (fun stint => (5 <= Calculations.Stint.laps stint)%Z
                            /\ Calculations.Stint.boost stint = "neutral")
              (Calculations.Evaluated.stints best).
Proof.
  intros Hc. pose proof (catalog_laps circuit c Hc) as Hlaps.
  unfold Calculations.optimizeStrategy. rewrite Hc.
  cbn [Calculations.Constraints.maxStints Calculations.Constraints.preferredCompounds
       Calculations.Constraints.minStintLength Calculations.Constraints.maxStintLength
       Calculations.withDefault].
  set (T := Circuit.laps c) in *.
  set (strategies := Calculations.generateStrategies _ _ _ _ _ _ _ _).
  set (ranked := JS.sort Calculations.byScoreDescending
                         (map (Calculations.evaluated c) strategies)).
  assert (Hne : strategies <> []).
  { intros E.
    apply (default_generation_empty_iff circuit T tyrePoints fuelPoints ["M"; "S"; "H"]
                                        ltac:(discriminate)) in E. lia. }
  assert (Hr : ranked <> []).
  { unfold ranked. intros E. apply sort_nil_iff in E. apply map_eq_nil in E. contradiction. }
  destruct ranked as [| best others] eqn:Er; [congruence |].
  eexists. eexists. exists best. split; [reflexivity |].
  cbn [Calculations.Optimization.recommended JS.slice_to firstn nth_error].
  split; [reflexivity |].
  assert (Hin : In best (map (Calculations.evaluated c) strategies)).
  { apply (Permutation_in best (sort_perm Calculations.byScoreDescending _)).
    fold ranked. rewrite Er. now left. }
  apply in_map_iff in Hin. destruct Hin as (strategy & <- & Hs).
  cbn [Calculations.evaluated Calculations.Evaluated.stints].
  apply generateStrategies_balanced in Hs.
  destruct Hs as (n & compound & Hn & Havg & -> & Hv).
  apply validateStrategy_true in Hv. destruct Hv as [Hsum _].
  destruct (floor_bounds (IZR T * 0.7)) as [Flo Fhi].
  assert (Hn2 : (2 <= n)%Z).
  { destruct (Z.eq_dec n 1) as [-> | Hne1]; [exfalso | lia].
    rewrite Z.div_1_r in Havg. destruct Havg as [_ Hhi].
    apply IZR_le in Hhi. apply IZR_le in Hlaps. lra. }
  assert (HnT : (n <= T)%Z) by lia.
  split; [exact Hsum |].
  split.
  - rewrite createBalancedStrategy_length. lia.
  - pose proof (createBalancedStrategy_stints circuit T n compound tyrePoints fuelPoints
                                              ltac:(lia)) as Hshape.
    eapply Forall_impl; [| exact Hshape].
    intros stint (Hl & Hb & _). split; [lia | exact Hb].
Qed.

(** X29.  The Optimise button on a circuit of the catalog always finds a
    recommendation and replaces the stints by it: two or three stints of at
    least 5 laps each, with neutral boost, whose laps add up to the race
    distance of the circuit; circuit and points are left as they were. *)
Theorem optimize_fills_the_race
        (strategy : Main.StrategyState.t) (c : Circuit.t) :
  JS.get Calculations.circuitsData (Main.StrategyState.circuit strategy) = Some c ->
  let after := Main.optimizeStrategy strategy in
  Main.optimizeToast strategy = "Estrategia optimizada"
  /\ Main.StrategyState.circuit after = Main.StrategyState.circuit strategy
  /\ Main.StrategyState.tyrePoints after = Main.StrategyState.tyrePoints strategy
  /\ Main.StrategyState.fuelPoints after = Main.StrategyState.fuelPoints strategy
  /\ sumZ (map Main.StintInput.laps (Main.StrategyState.stints after)) = Circuit.laps c
  /\ (2 <= List.length (Main.StrategyState.stints after) <= 3)%nat
  /\ Forall (fun stint => (5 <= Main.StintInput.laps stint)%Z
                          /\ Main.StintInput.boost stint = "neutral")
            (Main.StrategyState.stints after).
Proof.
  intros Hc. cbv zeta.
  destruct (recommended_on_catalog
              (Main.StrategyState.circuit strategy) c
              (IZR (Main.StrategyState.tyrePoints strategy))
              (IZR (Main.StrategyState.fuelPoints strategy)) Hc)
    as (data & message & best & E & Hbest & Hsum & Hlen & Hall).
  unfold Main.optimizeToast, Main.optimizeStrategy. rewrite Hc, E, Hbest.
  unfold Main.withStints.
  cbn [Main.StrategyState.circuit Main.StrategyState.tyrePoints
       Main.StrategyState.fuelPoints Main.StrategyState.stints].
  repeat split.
  - rewrite map_map. cbn [Main.StintInput.laps]. exact Hsum.
  - rewrite length_map. lia.
  - rewrite length_map. lia.
  - apply Forall_map. eapply Forall_impl; [| exact Hall].
    intros stint [Hl Hb]. cbn [Main.StintInput.laps Main.StintInput.boost].
    split; [exact Hl |]. rewrite Hb. reflexivity.
Qed.

Lemma optimize_fills_the_race_witness :
  sumZ (map Main.StintInput.laps
            (Main.StrategyState.stints (Main.optimizeStrategy Main.initialStrategy)))
  = 24%Z.
Proof.
  apply (optimize_fills_the_race Main.initialStrategy France). reflexivity.
Defined.

Lemma iter_push_length (k : nat) (stints : list Main.StintInput.t) :
  List.length (Nat.iter k (fun stints => stints ++ [Main.newStint]) stints)
  = (List.length stints + k)%nat.
Proof.
  induction k as [| k IH]; simpl Nat.iter; [lia |].
  rewrite length_app, IH. cbn. lia.
Qed.

Lemma iter_push_laps (k : nat) (stints : list Main.StintInput.t) :
  Forall (fun stint => (1 <= Main.StintInput.laps stint)%Z) stints ->
  Forall (fun stint => (1 <= Main.StintInput.laps stint)%Z)
         (Nat.iter k (fun stints => stints ++ [Main.newStint]) stints).
Proof.
  intros H. induction k as [| k IH]; simpl Nat.iter; [exact H |].
  apply Forall_app. split; [exact IH |]. constructor; [cbn; lia | constructor].
Qed.

Lemma removelast_length {A : Type} (l : list A) :
  List.length (removelast l) = (List.length l - 1)%nat.
Proof.
  induction l as [| x [| y l] IH]; [reflexivity | reflexivity |].
  change (removelast (x :: y :: l)) with (x :: removelast (y :: l)).
  cbn [List.length] in *. lia.
Qed.

Lemma removelast_Forall {A : Type} (P : A -> Prop) (l : list A) :
  Forall P l -> Forall P (removelast l).
Proof.
  induction l as [| x [| y l] IH]; intros H; [constructor | constructor |].
  change (removelast (x :: y :: l)) with (x :: removelast (y :: l)).
  inversion H; subst. constructor; [assumption | now apply IH].
Qed.

Lemma iter_pop_length (k : nat) (stints : list Main.StintInput.t) :
  List.length (Nat.iter k (fun stints => removelast stints) stints)
  = (List.length stints - k)%nat.
Proof.
  induction k as [| k IH]; simpl Nat.iter; [lia |].
  rewrite removelast_length, IH. lia.
Qed.

Lemma iter_pop_laps (k : nat) (stints : list Main.StintInput.t) :
  Forall (fun stint => (1 <= Main.StintInput.laps stint)%Z) stints ->
  Forall (fun stint => (1 <= Main.StintInput.laps stint)%Z)
         (Nat.iter k (fun stints => removelast stints) stints).
Proof.
  intros H. induction k as [| k IH]; simpl Nat.iter; [exact H |].
  now apply removelast_Forall.
Qed.

Lemma updateStint_length (stints : list Main.StintInput.t) (index : Z)
      (update : Main.StintInput.t -> Main.StintInput.t) :
  List.length (Main.updateStint stints index update) = List.length stints.
Proof.
  unfold Main.updateStint. destruct (index <? 0)%Z; [reflexivity |].
  destruct (nth_error stints (Z.to_nat index)) as [stint |] eqn:E; [| reflexivity].
  assert (Hlt : (Z.to_nat index < List.length stints)%nat).
  { apply nth_error_Some. congruence. }
  rewrite length_app. cbn [List.length]. rewrite length_firstn, length_skipn. lia.
Qed.

Lemma Forall_firstn {A : Type} (P : A -> Prop) (n : nat) (l : list A) :
  Forall P l -> Forall P (firstn n l).
Proof.
  intros H. apply Forall_forall. intros x Hx. rewrite Forall_forall in H.
  apply H. now apply In_firstn in Hx.
Qed.

Lemma Forall_skipn {A : Type} (P : A -> Prop) (n : nat) (l : list A) :
  Forall P l -> Forall P (skipn n l).
Proof.
  intros H. rewrite <- (firstn_skipn n l) in H. apply Forall_app in H. tauto.
Qed.

Lemma updateStint_laps (stints : list Main.StintInput.t) (index : Z)
      (update : Main.StintInput.t -> Main.StintInput.t) :
  (forall stint, (1 <= Main.StintInput.laps stint)%Z ->
                 (1 <= Main.StintInput.laps (update stint))%Z) ->
  Forall (fun stint => (1 <= Main.StintInput.laps stint)%Z) stints ->
  Forall (fun stint => (1 <= Main.StintInput.laps stint)%Z)
         (Main.updateStint stints index update).
Proof.
  intros Hu H. unfold Main.updateStint. destruct (index <? 0)%Z; [exact H |].
  destruct (nth_error stints (Z.to_nat index)) as [stint |] eqn:E; [| exact H].
  apply Forall_app. split; [now apply Forall_firstn |].
  constructor; [| now apply Forall_skipn].
  apply Hu. rewrite Forall_forall in H. apply H. eapply nth_error_In. exact E.
Qed.

Lemma handle_plannable (strategy : Main.StrategyState.t) (event : Main.Event) :
  plannable strategy -> Main.rendered strategy event = true ->
  plannable (Main.handle strategy event).
Proof.
  intros ([c Hc] & Htp & Hfp & Hlen & Hlaps) Hr.
  destruct event as [value | parsed | parsed | parsed | index compound | index parsed
                     | index value | | index |];
    unfold plannable; cbn [Main.handle Main.rendered] in *; cbv zeta in *;
    unfold Main.withStints;
    cbn [Main.StrategyState.circuit Main.StrategyState.tyrePoints
         Main.StrategyState.fuelPoints Main.StrategyState.stints].
  - destruct (JS.get Calculations.circuitsData value) as [c' |]; [| discriminate].
    repeat split; try assumption; try lia. now exists c'.
  - repeat split; try assumption; try lia. now exists c.
  - repeat split; try assumption; try lia. now exists c.
  - set (newLength := Z.to_nat (Z.max 1 (Z.min 5 (Main.parsedOr parsed 1)))).
    assert (Hn : (1 <= newLength <= 5)%nat) by (unfold newLength; lia).
    split; [now exists c |]. split; [exact Htp |]. split; [exact Hfp |]. split.
    + rewrite iter_pop_length, !iter_push_length. lia.
    + now apply iter_pop_laps, iter_push_laps.
  - split; [now exists c |]. split; [exact Htp |]. split; [exact Hfp |]. split.
    + rewrite updateStint_length. lia.
    + apply updateStint_laps; [| exact Hlaps]. intros stint H. exact H.
  - split; [now exists c |]. split; [exact Htp |]. split; [exact Hfp |]. split.
    + rewrite updateStint_length. lia.
    + apply updateStint_laps; [| exact Hlaps]. intros stint H.
      cbn [Main.StintInput.laps]. lia.
  - split; [now exists c |]. split; [exact Htp |]. split; [exact Hfp |]. split.
    + rewrite updateStint_length. lia.
    + apply updateStint_laps; [| exact Hlaps]. intros stint H. exact H.
  - destruct (Nat.ltb_spec (List.length (Main.StrategyState.stints strategy)) 5).
    + cbn [Main.StrategyState.circuit Main.StrategyState.tyrePoints
           Main.StrategyState.fuelPoints Main.StrategyState.stints].
      split; [now exists c |]. split; [exact Htp |]. split; [exact Hfp |]. split.
      * rewrite length_app. cbn. lia.
      * apply Forall_app. split; [exact Hlaps |].
        constructor; [cbn; lia | constructor].
    + split; [now exists c |]. repeat split; assumption || lia.
  - apply andb_true_iff in Hr. destruct Hr as [Hi Hc1].
    apply andb_true_iff in Hi. destruct Hi as [Hi0 Hi1].
    apply Z.leb_le in Hi0. apply Z.ltb_lt in Hi1, Hc1.
    split; [now exists c |]. split; [exact Htp |]. split; [exact Hfp |].
    unfold JS.spliceRemove. cbv zeta.
    assert (Hs : JS.spliceStart (List.length (Main.StrategyState.stints strategy)) index
                 = Z.to_nat index).
    { unfold JS.spliceStart. destruct (Z.ltb_spec index 0); lia. }
    rewrite Hs. split.
    + rewrite length_app, length_firstn, length_skipn. lia.
    + apply Forall_app. split; [now apply Forall_firstn | now apply Forall_skipn].
  - destruct (recommended_on_catalog
                (Main.StrategyState.circuit strategy) c
                (IZR (Main.StrategyState.tyrePoints strategy))
                (IZR (Main.StrategyState.fuelPoints strategy)) Hc)
      as (data & message & best & E & Hbest & _ & Hblen & Hall).
    unfold Main.optimizeStrategy. rewrite Hc, E, Hbest. unfold Main.withStints.
    cbn [Main.StrategyState.circuit Main.StrategyState.tyrePoints
         Main.StrategyState.fuelPoints Main.StrategyState.stints].
    split; [now exists c |]. split; [exact Htp |]. split; [exact Hfp |]. split.
    + rewrite length_map. lia.
    + apply Forall_map. eapply Forall_impl; [| exact Hall].
      intros stint [Hl _]. cbn [Main.StintInput.laps]. lia.
Qed.

Lemma session_plannable (events : list Main.Event) (strategy final : Main.StrategyState.t) :
  plannable strategy -> Main.session strategy events = Some final -> plannable final.
Proof.
  revert strategy. induction events as [| event rest IH]; intros strategy Hp Hs.
  - cbn in Hs. injection Hs as <-. exact Hp.
  - cbn [Main.session] in Hs.
    destruct (Main.rendered strategy event) eqn:Hr; [| discriminate].
    apply (IH (Main.handle strategy event)); [| exact Hs].
    now apply handle_plannable.
Qed.

Lemma initialStrategy_plannable : plannable Main.initialStrategy.
Proof.
  unfold plannable, Main.initialStrategy.
  cbn [Main.StrategyState.circuit Main.StrategyState.tyrePoints
       Main.StrategyState.fuelPoints Main.StrategyState.stints].
  split; [exists France; reflexivity |].
  repeat split; try lia; try (cbn; lia).
  constructor; [cbn; lia | constructor].
Qed.

(** X30.  Whatever the user does on the strategy page, starting from the
    strategy the application starts with and using the controls the page
    shows, the strategy keeps a circuit of the catalog, tyre and fuel
    points of at least 1 and one to five stints of at least one lap; so the
    tyre and the fuel calculation of every stint succeed and the page never
    shows [Error]. *)
Theorem session_never_shows_error
        (events : list Main.Event) (final : Main.StrategyState.t) :
  Main.session Main.initialStrategy events = Some final ->
  plannable final
  /\ Forall (fun stint =>
               TyreWear.success (Main.stintTyre final stint) = Some true
               /\ Utils.success (Main.stintFuel final stint) = true)
            (Main.StrategyState.stints final).
Proof.
  intros Hs.
  pose proof (session_plannable events _ final initialStrategy_plannable Hs) as Hp.
  split; [exact Hp |].
  destruct Hp as ([c Hc] & Htp & Hfp & _ & Hlaps).
  eapply Forall_impl; [| exact Hlaps].
  intros stint Hl. cbv beta in Hl.
  assert (0 < IZR (Main.StintInput.laps stint)) by (apply IZR_lt; lia).
  assert (0 < IZR (Main.StrategyState.tyrePoints final)) by (apply IZR_lt; lia).
  assert (0 < IZR (Main.StrategyState.fuelPoints final)) by (apply IZR_lt; lia).
  split.
  - unfold Main.stintTyre.
    now destruct (calculateTyreWear_valid
                    (Main.StrategyState.circuit final) (Main.StintInput.compound stint) c
                    (IZR (Main.StintInput.laps stint))
                    (IZR (Main.StrategyState.tyrePoints final)) Hc) as (E & _).
  - unfold Main.stintFuel.
    now rewrite (calculateStintFuel_valid
                   (Main.StrategyState.circuit final) c
                   (IZR (Main.StrategyState.fuelPoints final))
                   (IZR (Main.StintInput.laps stint)) (Main.StintInput.boost stint) Hc).
Qed.

Lemma session_never_shows_error_witness :
  plannable
    (Main.handle
       (Main.handle (Main.handle Main.initialStrategy (Main.TyrePointsChange (Some 0%Z)))
                    (Main.StintsChange (Some 2%Z)))
       (Main.RemoveStint 0)).
Proof.
  apply (session_never_shows_error
           [Main.TyrePointsChange (Some 0%Z); Main.StintsChange (Some 2%Z);
            Main.RemoveStint 0]).
  reflexivity.
Defined.
